(** * WebCV: the resume generator [generator/generate.py]

    A shallow embedding of the HTML generator: dates and durations,
    the anonymization rules, grouping by company, the two-column
    pagination of the detail pages, the section renderers and the
    document assembly, followed by the properties of each.

    Conventions of the embedding.
    - A Python [str] is a Rocq [string] holding the UTF-8 bytes of the text.
      Concatenation, equality, search and ordering of such strings agree
      with Python's on the code points.  Character classes ([\s], [\w],
      [\d], case folding) are those of Python on ASCII; a byte above 127
      (part of a non-ASCII character) counts as a word character that is
      neither blank nor a digit and has no other case.  Python itself takes
      some characters outside ASCII for blanks (U+00A0 and the like), for
      digits or for characters that are not of a word, and folds the case
      of accented letters: on a text that has such characters [strip], the
      patterns and [strptime] of Python may differ from those here.  The
      properties that pin what [strip] or a pattern with [\s] leaves of a
      given text are stated for texts whose blanks are those of ASCII
      ([ascii_blanks_only]).
    - A Python [int] is a [Z].
    - A JSON object is a record of texts and lists; a key that may be
      absent is an [option] field, and the value of a key that is present
      is a text or a list, never [null].  The dates of a work entry are the
      exception: there [null] is the empty text, both are falsy and every
      function that reads these dates reads them alike.
    - A raised exception is the [Raise] case of [result].
    - [datetime.now()] is the parameter [now] (year, month). *)

From Stdlib Require Import ZArith NArith Bool Ascii String DecimalString.
From Stdlib Require Import List Lia Permutation Sorted.
Import ListNotations.

Local Open Scope Z_scope.

(** ** Python text operations *)

Module Py.

Local Open Scope string_scope.

(** The double quote and the line feed, which the templates are full of. *)
Definition dq : string := String "034"%char EmptyString.
Definition nl : string := String "010"%char EmptyString.

(** [q s] is [s] between double quotes. *)
Definition q (s : string) : string := dq ++ s ++ dq.

Definition code (c : ascii) : N := N_of_ascii c.

Definition between (lo hi : N) (c : ascii) : bool :=
  ((lo <=? code c) && (code c <=? hi))%N.

(** [str.isspace] and the class [\s]: tab to carriage return, the four
    separators 28-31 and the space. *)
Definition is_space (c : ascii) : bool :=
  between 9 13 c || between 28 32 c.

Definition is_digit (c : ascii) : bool := between 48 57 c.

Definition is_upper (c : ascii) : bool := between 65 90 c.
Definition is_lower (c : ascii) : bool := between 97 122 c.

(** The class [\w]: letters, digits, the underscore, and the bytes of
    non-ASCII characters. *)
Definition is_word (c : ascii) : bool :=
  is_digit c || is_upper c || is_lower c || (code c =? 95)%N || (128 <=? code c)%N.

Definition lower (c : ascii) : ascii :=
  if is_upper c then ascii_of_N (code c + 32) else c.

Definition upper (c : ascii) : ascii :=
  if is_lower c then ascii_of_N (code c - 32) else c.

(** Truth value of a text: the empty text is false. *)
Definition truthy (s : string) : bool :=
  match s with EmptyString => false | String _ _ => true end.

(** Truth value of a list: the empty list is false. *)
Definition nonempty {B : Type} (l : list B) : bool :=
  match l with [] => false | _ :: _ => true end.

(** Truth value of [d.get(key)] for a text field. *)
Definition truthy_opt (o : option string) : bool :=
  match o with Some s => truthy s | None => false end.

(** [d.get(key, "")]. *)
Definition get_or_empty (o : option string) : string :=
  match o with Some s => s | None => EmptyString end.

(** [s.startswith(p)]. *)
Definition startswith (p s : string) : bool := String.prefix p s.

(** [sub in s]. *)
Fixpoint contains (sub s : string) : bool :=
  if String.prefix sub s then true
  else match s with
       | EmptyString => false
       | String _ t => contains sub t
       end.

(** [s.replace(old, new)]: the occurrences of [old] are replaced from left
    to right without overlap; [skip] counts the characters of an occurrence
    still to pass over. *)
Fixpoint replace_from (old new s : string) (skip : nat) : string :=
  match s with
  | EmptyString => if truthy old then EmptyString else new
  | String c t =>
      match skip with
      | S k => replace_from old new t k
      | O => if String.prefix old s
             then if truthy old
                  then new ++ replace_from old new t (String.length old - 1)
                  else new ++ String c (replace_from old new t 0)
             else String c (replace_from old new t 0)
      end
  end.

Definition replace (old new s : string) : string := replace_from old new s 0.

(** [s.split(sep)[0]] for a separator that is not empty: the text before
    the first [sep]. *)
Fixpoint split_head (sep s : string) : string :=
  if String.prefix sep s then EmptyString
  else match s with
       | EmptyString => EmptyString
       | String c t => String c (split_head sep t)
       end.

Fixpoint lstrip (s : string) : string :=
  match s with
  | String c t => if is_space c then lstrip t else s
  | EmptyString => EmptyString
  end.

Fixpoint rstrip (s : string) : string :=
  match s with
  | String c t =>
      match rstrip t with
      | EmptyString => if is_space c then EmptyString else String c EmptyString
      | t' => String c t'
      end
  | EmptyString => EmptyString
  end.

(** [s.strip()]. *)
Definition strip (s : string) : string := rstrip (lstrip s).

(** [sep.join(l)]. *)
Fixpoint join (sep : string) (l : list string) : string :=
  match l with
  | [] => EmptyString
  | [x] => x
  | x :: t => x ++ sep ++ join sep t
  end.

(** [str(n)] for an integer. *)
Definition str_of_int (n : Z) : string := NilZero.string_of_int (Z.to_int n).

Definition mem (x : string) (l : list string) : bool :=
  existsb (String.eqb x) l.

(** [list(dict.fromkeys(l))]: the first occurrence of each text, in order. *)
Fixpoint fromkeys_from (seen l : list string) : list string :=
  match l with
  | [] => []
  | x :: t => if mem x seen then fromkeys_from seen t
              else x :: fromkeys_from (x :: seen) t
  end.

Definition fromkeys (l : list string) : list string := fromkeys_from [] l.

(** [min(l)] and [max(l)] of a non-empty list of texts, which compare by
    code points. *)
Definition min_str (x : string) (l : list string) : string :=
  fold_left (fun m y => if String.ltb y m then y else m) l x.

Definition max_str (x : string) (l : list string) : string :=
  fold_left (fun m y => if String.ltb m y then y else m) l x.

(** [l[:n]]. *)
Definition take {B : Type} (n : nat) (l : list B) : list B := firstn n l.

End Py.

(** ** Regular expressions: the fragment of [re] the generator uses *)

Module Re.

Import Py.
Local Open Scope string_scope.

(** Character sets. *)
Inductive cclass : Type :=
| Space                       (* \s *)
| Word                        (* \w *)
| Range (lo hi : ascii)       (* [lo-hi] *)
| OneOf (cs : list ascii)     (* [abc] *)
| NoneOf (cs : list ascii).   (* [^abc] *)

(** A pattern is a sequence of items; a quantifier applies to one character
    set, and the only group is group 1. *)
Inductive item : Type :=
| Lit (c : ascii)
| Cls (cc : cclass)
| Plus (cc : cclass)          (* greedy one or more *)
| Star (cc : cclass)          (* greedy zero or more *)
| WordB                       (* \b *)
| GOpen                       (* ( *)
| GClose.                     (* ) *)

Definition pattern : Type := list item.

(** The literal characters of a text. *)
Fixpoint lits (s : string) : pattern :=
  match s with
  | EmptyString => []
  | String c t => Lit c :: lits t
  end.

(** Equality of characters, up to case under [re.IGNORECASE]. *)
Definition chr_eq (icase : bool) (c d : ascii) : bool :=
  if icase then Ascii.eqb (lower c) (lower d) else Ascii.eqb c d.

Definition in_range (lo hi c : ascii) : bool :=
  between (code lo) (code hi) c.

Definition cclass_matches (icase : bool) (cc : cclass) (c : ascii) : bool :=
  match cc with
  | Space => is_space c
  | Word => is_word c
  | Range lo hi =>
      if icase then in_range lo hi (lower c) || in_range lo hi (upper c)
      else in_range lo hi c
  | OneOf cs => existsb (chr_eq icase c) cs
  | NoneOf cs => negb (existsb (chr_eq icase c) cs)
  end.

Definition word_opt (o : option ascii) : bool :=
  match o with Some c => is_word c | None => false end.

Definition head_opt (s : string) : option ascii :=
  match s with String c _ => Some c | EmptyString => None end.

(** [\b]: exactly one of the two neighbours is a word character. *)
Definition at_boundary (prev : option ascii) (s : string) : bool :=
  xorb (word_opt prev) (word_opt (head_opt s)).

(** The text still to read when group 1 opened and when it closed. *)
Definition marks : Type := (option string * option string)%type.

Definition no_marks : marks := (None, None).

(** Backtracking match of [items] at the head of [s], where [prev] is the
    character before.  The result is the text left after the match.  A
    greedy quantifier takes all it can and gives back one character at a
    time while the rest of the pattern fails. *)
Fixpoint match_items (icase : bool) (items : pattern) (prev : option ascii)
         (s : string) (g : marks) {struct items} : option (string * marks) :=
  match items with
  | [] => Some (s, g)
  | Lit c :: rest =>
      match s with
      | String d t => if chr_eq icase c d then match_items icase rest (Some d) t g else None
      | EmptyString => None
      end
  | Cls cc :: rest =>
      match s with
      | String d t =>
          if cclass_matches icase cc d then match_items icase rest (Some d) t g else None
      | EmptyString => None
      end
  | WordB :: rest =>
      if at_boundary prev s then match_items icase rest prev s g else None
  | GOpen :: rest => match_items icase rest prev s (Some s, snd g)
  | GClose :: rest => match_items icase rest prev s (fst g, Some s)
  | Star cc :: rest =>
      (fix star (prev : option ascii) (s : string) {struct s} : option (string * marks) :=
         match s with
         | String d t =>
             if cclass_matches icase cc d then
               match star (Some d) t with
               | Some r => Some r
               | None => match_items icase rest prev s g
               end
             else match_items icase rest prev s g
         | EmptyString => match_items icase rest prev s g
         end) prev s
  | Plus cc :: rest =>
      match s with
      | String d t =>
          if cclass_matches icase cc d then
            (fix star (prev : option ascii) (s : string) {struct s} : option (string * marks) :=
               match s with
               | String d t =>
                   if cclass_matches icase cc d then
                     match star (Some d) t with
                     | Some r => Some r
                     | None => match_items icase rest prev s g
                     end
                   else match_items icase rest prev s g
               | EmptyString => match_items icase rest prev s g
               end) (Some d) t
          else None
      | EmptyString => None
      end
  end.

(** The first [n] characters of a text. *)
Fixpoint take_str (n : nat) (s : string) : string :=
  match n, s with
  | S k, String c t => String c (take_str k t)
  | _, _ => EmptyString
  end.

(** The text between two points of the same text, given by what is left to
    read at each. *)
Definition text_between (from to : string) : string :=
  take_str (String.length from - String.length to) from.

(** [m.group(1)]. *)
Definition group1 (g : marks) : string :=
  match g with
  | (Some from, Some to) => text_between from to
  | _ => EmptyString
  end.

(** A replacement template: literal text and references to group 1. *)
Inductive piece : Type :=
| Text (s : string)
| Group1.                     (* \1 *)

Definition template : Type := list piece.

Fixpoint expand (tpl : template) (g : marks) : string :=
  match tpl with
  | [] => EmptyString
  | Text s :: rest => s ++ expand rest g
  | Group1 :: rest => group1 g ++ expand rest g
  end.

(** [re.sub(pattern, repl, s)]: every match, leftmost first and without
    overlap, is replaced.  [skip] counts the characters of the last match
    still to pass over.  The patterns of the generator match no empty
    text. *)
Fixpoint sub_from (icase : bool) (items : pattern) (repl : template)
         (prev : option ascii) (s : string) (skip : nat) : string :=
  match s with
  | EmptyString => EmptyString
  | String c t =>
      match skip with
      | S k => sub_from icase items repl (Some c) t k
      | O =>
          match match_items icase items prev s no_marks with
          | Some (s', g) =>
              match (String.length s - String.length s')%nat with
              | O => String c (sub_from icase items repl (Some c) t 0)
              | S k => expand repl g ++ sub_from icase items repl (Some c) t k
              end
          | None => String c (sub_from icase items repl (Some c) t 0)
          end
      end
  end.

Definition sub (icase : bool) (items : pattern) (repl : template) (s : string) : string :=
  sub_from icase items repl None s 0.

(** [re.search(pattern, s)], giving group 1 of the leftmost match. *)
Fixpoint search_from (icase : bool) (items : pattern) (prev : option ascii)
         (s : string) : option string :=
  match match_items icase items prev s no_marks with
  | Some (_, g) => Some (group1 g)
  | None =>
      match s with
      | String c t => search_from icase items (Some c) t
      | EmptyString => None
      end
  end.

Definition search (icase : bool) (items : pattern) (s : string) : option string :=
  search_from icase items None s.

End Re.

(** ** Pagination: the packing loop of [split_experiences_into_pages] *)

Module Pagination.

Import Py.

Definition MAX_HEIGHT_PER_COL : Z := 255.
Definition AVG_EXP_HEIGHT : Z := 35.

Section Packing.

Context {A : Type}.

(** A page is the pair (column 1, column 2) of rendered fragments. *)
Definition page : Type := (list A * list A)%type.

(** The local variables of the loop. *)
Record pack_state : Type := mk_pack_state {
  pages : list page;
  col1 : list A;
  col2 : list A;
  col1_height : Z;
  col2_height : Z
}.

Definition pack_init : pack_state := mk_pack_state [] [] [] 0 0.

(** The start of a new page: the current pair is appended to [pages] and
    the group seeds column 1. *)
Definition start_new_page (st : pack_state) (exp_html : A) (height : Z) : pack_state :=
  mk_pack_state (pages st ++ [(col1 st, col2 st)]) [exp_html] [] height 0.

(** One iteration of [for exp_html, height in all_exp_groups], with the two
    branches of the source. *)
Definition place_group (st : pack_state) (g : A * Z) : pack_state :=
  let '(exp_html, height) := g in
  if col1_height st <=? col2_height st then
    if col1_height st + height <=? MAX_HEIGHT_PER_COL then
      mk_pack_state (pages st) (col1 st ++ [exp_html]) (col2 st)
                    (col1_height st + height) (col2_height st)
    else start_new_page st exp_html height
  else
    if col2_height st + height <=? MAX_HEIGHT_PER_COL then
      mk_pack_state (pages st) (col1 st) (col2 st ++ [exp_html])
                    (col1_height st) (col2_height st + height)
    else start_new_page st exp_html height.

(** "Add last page if not empty". *)
Definition close_last_page (st : pack_state) : list page :=
  if nonempty (col1 st) || nonempty (col2 st)
  then pages st ++ [(col1 st, col2 st)]
  else pages st.

Definition pack_groups (all_exp_groups : list (A * Z)) : list page :=
  close_last_page (fold_left place_group all_exp_groups pack_init).

(** *** The algorithm in the words of the specification *)

Inductive column : Type := Col1 | Col2.

(** The column with the smaller or equal accumulated height, ties to
    column 1. *)
Definition candidate (st : pack_state) : column :=
  if col1_height st <=? col2_height st then Col1 else Col2.

Definition column_height (st : pack_state) (c : column) : Z :=
  match c with Col1 => col1_height st | Col2 => col2_height st end.

Definition append_to (st : pack_state) (c : column) (frag : A) (height : Z) : pack_state :=
  match c with
  | Col1 => mk_pack_state (pages st) (col1 st ++ [frag]) (col2 st)
                          (col1_height st + height) (col2_height st)
  | Col2 => mk_pack_state (pages st) (col1 st) (col2 st ++ [frag])
                          (col1_height st) (col2_height st + height)
  end.

Definition greedy_step (st : pack_state) (g : A * Z) : pack_state :=
  let c := candidate st in
  if column_height st c + snd g <=? MAX_HEIGHT_PER_COL
  then append_to st c (fst g) (snd g)
  else mk_pack_state (pages st ++ [(col1 st, col2 st)]) [fst g] [] (snd g) 0.

Definition greedy_pack (groups : list (A * Z)) : list page :=
  close_last_page (fold_left greedy_step groups pack_init).

(** *** What is on the pages *)

(** The fragments of a list of pages, page by page, column 1 first. *)
Definition placed (ps : list page) : list A :=
  concat (map (fun p : page => fst p ++ snd p) ps).

(** Everything the loop holds at some point: finished pages and the page in
    progress. *)
Definition held (st : pack_state) : list A :=
  placed (pages st) ++ col1 st ++ col2 st.

Definition empty_page (p : page) : bool :=
  negb (nonempty (fst p)) && negb (nonempty (snd p)).

(** Column 1 holds a fragment and no finished page is empty: once true,
    this stays true through the loop. *)
Definition col1_filled (st : pack_state) : Prop :=
  col1 st <> [] /\ Forall (fun p => empty_page p = false) (pages st).

End Packing.

Arguments page : clear implicits.
Arguments pack_state : clear implicits.

(** The groups tagged by their position in the input. *)
Definition tag_positions {A : Type} (groups : list (A * Z)) : list (nat * Z) :=
  combine (seq 0 (length groups)) (map snd groups).

End Pagination.

(** ** The generator *)

Module Gen.

Import Py Re.
Local Open Scope string_scope.

(** *** Exceptions *)

Inductive exn : Type :=
| KeyError (key : string)
| AttributeError.             (* attribute access on [None] *)

Inductive result (T : Type) : Type :=
| Ok (v : T)
| Raise (e : exn).

Arguments Ok {T} v.
Arguments Raise {T} e.

Definition bind {T U : Type} (r : result T) (k : T -> result U) : result U :=
  match r with
  | Ok v => k v
  | Raise e => Raise e
  end.

Notation "x <- r ;; k" := (bind r (fun x => k))
  (at level 61, r at next level, right associativity).

(** [d[key]]: an absent key raises [KeyError]. *)
Definition item_of {T : Type} (key : string) (o : option T) : result T :=
  match o with
  | Some v => Ok v
  | None => Raise (KeyError key)
  end.

(** A loop that stops at the first exception. *)
Fixpoint map_r {T U : Type} (f : T -> result U) (l : list T) : result (list U) :=
  match l with
  | [] => Ok []
  | x :: t => y <- f x ;; ys <- map_r f t ;; Ok (y :: ys)
  end.

(** *** Tables *)

Definition lookup {T : Type} (key : string) (table : list (string * T)) : option T :=
  match find (fun kv => String.eqb (fst kv) key) table with
  | Some kv => Some (snd kv)
  | None => None
  end.

Definition COMPANY_LOGOS : list (string * string) :=
  [ ("SFEIR", "assets/logos/sfeir.png");
    ("Mixdata", "assets/logos/mixdata.jpg");
    ("Canal+", "assets/logos/canal.svg");
    ("Viseo Technologies", "assets/logos/viseo.jpg");
    ("Capgemini", "assets/logos/capgemini.svg");
    ("Maison du Temps et de la Mobilité", "assets/logos/belfort.jpg") ].

Definition COMPANY_COLORS : list (string * string) :=
  [ ("SFEIR", "c-sf");
    ("Mixdata", "c-mx");
    ("Canal+", "c-ca");
    ("Viseo Technologies", "c-vi");
    ("Capgemini", "c-cg");
    ("Maison du Temps et de la Mobilité", "c-ot") ].

(** One or more blanks, [\s+]. *)
Definition blanks : item := Plus Space.

(** A pattern between two word boundaries. *)
Definition whole (p : pattern) : pattern := (WordB :: p ++ [WordB])%list.

(** The apostrophe set of the Caisse d'Epargne rules. *)
Definition apostrophe : item := Cls (OneOf ["'"%char; "'"%char]).

Definition caisse_d_epargne : pattern :=
  (lits "Caisse" ++ [blanks] ++ lits "d" ++ [apostrophe] ++ lits "Epargne")%list.

(** Client anonymization rules, applied in order: pattern, replacement,
    description. *)
Definition ANONYMIZATION_RULES : list (pattern * template * string) :=
  [ (whole (lits "Voyages-SNCF.com"), [Text "Client Transports"], "Voyages-SNCF.com");
    (whole (lits "ButConforama"), [Text "Client Distribution"], "ButConforama");
    (whole (lits "LVMH" ++ [blanks] ++ lits "Beauty" ++ [blanks] ++ lits "Tech")%list,
     [Text "Client Luxe"], "LVMH Beauty Tech");
    (whole (lits "LVMH"), [Text "Client Luxe"], "LVMH");
    (whole (lits "Groupe" ++ [blanks] ++ caisse_d_epargne)%list,
     [Text "Client Banque"], "Groupe Caisse d'Epargne");
    (whole (lits "Groupe" ++ [blanks; GOpen; Plus Word; GClose])%list,
     [Text "Client "; Group1], "Groupe XXX");
    (whole (lits "Groupama"), [Text "Client Assurances"], "Groupama");
    (whole (lits "Natixis"), [Text "Client Banque"], "Natixis");
    (whole (lits "Generali"), [Text "Client Assurances"], "Generali");
    (whole (lits "Société" ++ [blanks] ++ lits "Générale")%list,
     [Text "Client Banque"], "Société Générale");
    (whole (lits "GE" ++ [blanks] ++ lits "Money" ++ [blanks] ++ lits "Bank")%list,
     [Text "Client Banque"], "GE Money Bank");
    (whole (caisse_d_epargne ++ [blanks] ++ lits "Financement")%list,
     [Text "Client Banque"], "Caisse d'Epargne Financement");
    (whole caisse_d_epargne, [Text "Client Banque"], "Caisse d'Epargne");
    (whole (lits "Mission" ++
            [blanks; GOpen; Cls (Range "A" "Z"); Plus (NoneOf [")"%char]); GClose])%list,
     [Text "Mission "; Group1], "Keep Mission prefix") ].

(** *** Labels *)

Inductive language : Type := Fr | En.

Definition lang_code (lang : language) : string :=
  match lang with Fr => "fr" | En => "en" end.

Record labels : Type := mk_labels {
  l_summary : string;
  l_detail : string;
  l_tldr : string;
  l_contact : string;
  l_education : string;
  l_certificates : string;
  l_languages : string;
  l_skills : string;
  l_interests : string;
  l_present : string;
  l_months : string;
  l_year : string;
  l_years : string;
  l_page : string;
  l_suite : string;
  l_months_list : list string
}.

Definition LABELS (lang : language) : labels :=
  match lang with
  | Fr => mk_labels
      "Parcours professionnel — Synthèse"
      "Parcours professionnel — Détail"
      "TL;DR" "Contact" "Formation" "Certifications" "Langues" "Compétences"
      "Loisirs & Intérêts" "Présent" "mois" "an" "ans" "Page" " (suite)"
      ["Jan"; "Fév"; "Mar"; "Avr"; "Mai"; "Jun"; "Jul"; "Août"; "Sep"; "Oct"; "Nov"; "Déc"]
  | En => mk_labels
      "Professional Experience — Summary"
      "Professional Experience — Detail"
      "TL;DR" "Contact" "Education" "Certifications" "Languages" "Skills"
      "Interests" "Present" "months" "year" "years" "Page" " (continued)"
      ["Jan"; "Feb"; "Mar"; "Apr"; "May"; "Jun"; "Jul"; "Aug"; "Sep"; "Oct"; "Nov"; "Dec"]
  end.

(** *** Dates *)

Definition digit_value (c : ascii) : Z := Z.of_N (code c) - 48.

(** The month of [%m], the alternation [1[0-2]|0[1-9]|[1-9]] tried in this
    order: the month and the text left after it. *)
Definition month_prefix (s : string) : option (Z * string) :=
  match s with
  | String c t =>
      let one :=
        if between 49 57 c then Some (digit_value c, t) else None in
      match t with
      | String d r =>
          if Ascii.eqb c "1" && between 48 50 d then Some (10 + digit_value d, r)
          else if Ascii.eqb c "0" && between 49 57 d then Some (digit_value d, r)
          else one
      | EmptyString => one
      end
  | EmptyString => None
  end.

(** [datetime.strptime(s, "%Y-%m")]: four digits, a dash and a month, with
    nothing left over and a year from 1 on; [None] stands for [ValueError].
    The result is (year, month). *)
Definition strptime_Y_m (s : string) : option (Z * Z) :=
  match s with
  | String a (String b (String c (String d (String dash rest)))) =>
      if is_digit a && is_digit b && is_digit c && is_digit d && Ascii.eqb dash "-" then
        let year := 1000 * digit_value a + 100 * digit_value b
                    + 10 * digit_value c + digit_value d in
        match month_prefix rest with
        | Some (month, EmptyString) =>
            if (1 <=? year)%Z then Some (year, month) else None
        | _ => None
        end
      else None
  | _ => None
  end.

(** Parse date string in format YYYY-MM. *)
Definition parse_date (date_str : string) : option (Z * Z) :=
  if negb (truthy date_str) then None
  else strptime_Y_m date_str.

(** Format date for display. *)
Definition format_date (date_str : string) (lang : language) : string :=
  if negb (truthy date_str) then l_present (LABELS lang)
  else match parse_date date_str with
       | None => date_str
       | Some (year, month) =>
           let months := l_months_list (LABELS lang) in
           nth (Z.to_nat (month - 1)) months EmptyString ++ " " ++ str_of_int year
       end.

(** Calculate duration between two dates.  An end date that is set but does
    not parse leaves [end_dt] at [None], and reading its year raises. *)
Definition calculate_duration (now : Z * Z) (start end_ : string) (lang : language)
  : result string :=
  let start_dt := parse_date start in
  let end_dt := if truthy end_ then parse_date end_ else Some now in
  match start_dt with
  | None => Ok EmptyString
  | Some (start_year, start_month) =>
      match end_dt with
      | None => Raise AttributeError
      | Some (end_year, end_month) =>
          let months := (end_year - start_year) * 12 + (end_month - start_month) in
          let years := months / 12 in
          let remaining_months := months mod 12 in
          let lbl := LABELS lang in
          let year_word := if (years =? 1)%Z then l_year lbl else l_years lbl in
          if (years =? 0)%Z then
            Ok (str_of_int remaining_months ++ " " ++ l_months lbl)
          else if (remaining_months =? 0)%Z then
            Ok (str_of_int years ++ " " ++ year_word)
          else
            Ok (str_of_int years ++ " " ++ year_word ++ " "
                ++ str_of_int remaining_months ++ " " ++ l_months lbl)
      end
  end.

(** *** Anonymization *)

(** Anonymize client names in text using rules. *)
Definition anonymize_text (text : string) : string :=
  fold_left (fun result rule => Re.sub true (fst (fst rule)) (snd (fst rule)) result)
            ANONYMIZATION_RULES text.

(** *** The resume record (JSON Resume) *)

Record work_entry : Type := mk_work {
  w_name : option string;
  w_position : option string;
  w_startDate : option string;
  w_endDate : option string;
  w_summary : option string;
  w_highlights : option (list string)
}.

Record skill : Type := mk_skill {
  sk_name : option string;
  sk_keywords : option (list string)
}.

Record education_entry : Type := mk_education {
  ed_studyType : option string;
  ed_area : option string;
  ed_institution : option string;
  ed_startDate : option string;
  ed_endDate : option string
}.

Record certificate : Type := mk_certificate {
  ce_name : option string;
  ce_date : option string
}.

Record language_entry : Type := mk_language {
  la_language : option string;
  la_fluency : option string
}.

Record interest : Type := mk_interest {
  in_name : option string;
  in_keywords : option (list string)
}.

Record profile : Type := mk_profile {
  pr_network : option string;
  pr_username : option string
}.

Record location : Type := mk_location {
  lo_city : option string
}.

Record basics_record : Type := mk_basics {
  b_name : option string;
  b_label : option string;
  b_image : option string;
  b_summary : option string;
  b_phone : option string;
  b_email : option string;
  b_url : option string;
  b_profiles : list profile;
  b_location : option location
}.

(** The top-level lists are read with [.get(key, [])], so an absent list is
    the empty one. *)
Record resume : Type := mk_resume {
  basics : basics_record;
  work : list work_entry;
  skills : list skill;
  education : list education_entry;
  certificates : list certificate;
  languages : list language_entry;
  interests : list interest
}.

(** *** Companies *)

(** [\s*\([^)]*\)]: a parenthesis and the blanks before it. *)
Definition parenthetical : pattern :=
  [Star Space; Lit "("%char; Star (NoneOf [")"%char]); Lit ")"%char].

(** [\(([^)]+)\)]: the text of a non-empty parenthesis. *)
Definition parenthesized : pattern :=
  [Lit "("%char; GOpen; Plus (NoneOf [")"%char]); GClose; Lit ")"%char].

(** Extract main company name from work entry. *)
Definition get_company_name (w : work_entry) : string :=
  let name := get_or_empty (w_name w) in
  strip (Re.sub false parenthetical [] name).

(** Get company logo path (relative). *)
Definition get_company_logo (company_name : string) : string :=
  let logo_path := get_or_empty (lookup company_name COMPANY_LOGOS) in
  if truthy logo_path then "../" ++ logo_path else EmptyString.

(** Get company color class. *)
Definition get_company_color (company_name : string) : string :=
  match lookup company_name COMPANY_COLORS with
  | Some c => c
  | None => "c-sf"
  end.

(** A dict from company to entries, in insertion order. *)
Definition groups : Type := list (string * list work_entry).

(** [if company not in grouped: grouped[company] = []] followed by
    [grouped[company].append(work)]. *)
Fixpoint add_to_group (company : string) (w : work_entry) (grouped : groups) : groups :=
  match grouped with
  | [] => [(company, [w])]
  | (k, ws) :: rest =>
      if String.eqb k company then (k, (ws ++ [w])%list) :: rest
      else (k, ws) :: add_to_group company w rest
  end.

(** Group work experiences by main company. *)
Definition group_experiences_by_company (work_list : list work_entry) : groups :=
  fold_left (fun grouped w => add_to_group (get_company_name w) w grouped) work_list [].

(** *** Sidebar *)

Definition cls (c : string) : string := "class=" ++ q c.

Definition render_skill (s : skill) : result string :=
  let keywords := join ", " (match sk_keywords s with Some l => l | None => [] end) in
  name <- item_of "name" (sk_name s) ;;
  Ok ("    <div " ++ cls "sg" ++ ">" ++ nl
      ++ "      <div " ++ cls "sg-n" ++ ">" ++ name ++ "</div>" ++ nl
      ++ "      <div " ++ cls "sg-k" ++ ">" ++ keywords ++ "</div>" ++ nl
      ++ "    </div>" ++ nl).

Definition render_certificate (c : certificate) : result string :=
  let date := get_or_empty (ce_date c) in
  let year := if truthy date then split_head "-" date else EmptyString in
  name <- item_of "name" (ce_name c) ;;
  Ok ("    <div " ++ cls "it" ++ ">" ++ name ++ " <span " ++ cls "it-s" ++ ">"
      ++ year ++ "</span></div>" ++ nl).

Definition render_language (l : language_entry) : result string :=
  language <- item_of "language" (la_language l) ;;
  fluency <- item_of "fluency" (la_fluency l) ;;
  Ok ("    <div " ++ cls "it" ++ ">" ++ language ++ " · " ++ fluency ++ "</div>" ++ nl).

Definition render_interest (i : interest) : result string :=
  let keywords := join ", " (match in_keywords i with Some l => l | None => [] end) in
  name <- item_of "name" (in_name i) ;;
  Ok ("  <div>" ++ nl
      ++ "    <div " ++ cls "st" ++ ">" ++ name ++ "</div>" ++ nl
      ++ "    <div " ++ cls "it" ++ ">" ++ keywords ++ "</div>" ++ nl
      ++ "  </div>" ++ nl).

Definition render_education (lang : language) (edu : education_entry) : string :=
  let study_type := get_or_empty (ed_studyType edu) in
  let area := get_or_empty (ed_area edu) in
  let degree :=
    if truthy study_type && truthy area then
      let sep := match lang with Fr => " en " | En => " in " end in
      study_type ++ sep ++ area
    else if truthy study_type then study_type else area in
  "    <div " ++ cls "it" ++ "><b>" ++ degree ++ "</b><br><span " ++ cls "it-s" ++ ">"
  ++ get_or_empty (ed_institution edu) ++ " · " ++ get_or_empty (ed_startDate edu)
  ++ "–" ++ get_or_empty (ed_endDate edu) ++ "</span></div>" ++ nl.

(** A titled block of the sidebar. *)
Definition titled_section (title body : string) : string :=
  "  <hr>" ++ nl
  ++ "  <div>" ++ nl
  ++ "    <div " ++ cls "st" ++ ">" ++ title ++ "</div>" ++ nl
  ++ body ++ "  </div>".

Definition span_item (s : string) : string := "      <span>" ++ s ++ "</span>".
Definition link_item (s : string) : string := "      <a>" ++ s ++ "</a>".

Definition linkedin_items (profiles : list profile) : list string :=
  flat_map (fun p =>
    match pr_network p with
    | Some "LinkedIn" => [link_item ("linkedin.com/in/" ++ get_or_empty (pr_username p))]
    | _ => []
    end) profiles.

Definition city_items (o : option location) : list string :=
  match o with
  | Some loc =>
      if truthy_opt (lo_city loc)
      then [span_item (get_or_empty (lo_city loc) ++ ", France")]
      else []
  | None => []
  end.

(** The lines of the contact block.  Phone and email are listed only when
    not anonymizing. *)
Definition contact_items (b : basics_record) (anonymize : bool) : list string :=
  ((if negb anonymize && truthy_opt (b_phone b)
    then [span_item (get_or_empty (b_phone b))] else [])
   ++ (if negb anonymize && truthy_opt (b_email b)
       then [span_item (get_or_empty (b_email b))] else [])
   ++ (if truthy_opt (b_url b)
       then [link_item (replace "http://" EmptyString
                          (replace "https://" EmptyString (get_or_empty (b_url b))))]
       else [])
   ++ linkedin_items (b_profiles b)
   ++ city_items (b_location b))%list.

(** Render sidebar HTML. *)
Definition render_sidebar (b : basics_record) (skills : list skill)
           (education : list education_entry) (certificates : list certificate)
           (languages : list language_entry) (interests : list interest)
           (anonymize : bool) (lang : language) : result string :=
  let lbl := LABELS lang in
  skills_html <- map_r render_skill skills ;;
  let skills_section :=
    if nonempty skills then titled_section (l_skills lbl) (String.concat EmptyString skills_html)
    else EmptyString in
  certs_html <- map_r render_certificate certificates ;;
  let certs_section :=
    if nonempty certificates
    then titled_section (l_certificates lbl) (String.concat EmptyString certs_html)
    else EmptyString in
  langs_html <- map_r render_language languages ;;
  let langs_section :=
    if nonempty languages
    then titled_section (l_languages lbl) (String.concat EmptyString langs_html)
    else EmptyString in
  interests_html <- map_r render_interest interests ;;
  let interests_section :=
    if nonempty interests
    then "  <hr>" ++ nl ++ String.concat EmptyString interests_html
    else EmptyString in
  let edu_section :=
    if nonempty education
    then titled_section (l_education lbl)
           (String.concat EmptyString (map (render_education lang) education))
    else EmptyString in
  let contact_html := join nl (contact_items b anonymize) in
  Ok ("<aside " ++ cls "sb" ++ ">" ++ nl
      ++ "  <img src=" ++ q (get_or_empty (b_image b))
      ++ " alt=" ++ q (get_or_empty (b_name b)) ++ " " ++ cls "photo" ++ ">" ++ nl
      ++ "  <div>" ++ nl
      ++ "    <h1>" ++ replace " " "<br>" (get_or_empty (b_name b)) ++ "</h1>" ++ nl
      ++ "    <div " ++ cls "sub" ++ ">"
      ++ replace " / " "<br>" (get_or_empty (b_label b)) ++ "</div>" ++ nl
      ++ "  </div>" ++ nl
      ++ "  <hr>" ++ nl
      ++ "  <div>" ++ nl
      ++ "    <div " ++ cls "st" ++ ">" ++ l_contact lbl ++ "</div>" ++ nl
      ++ "    <div " ++ cls "ct" ++ ">" ++ nl
      ++ contact_html ++ nl
      ++ "    </div>" ++ nl
      ++ "  </div>" ++ nl
      ++ skills_section ++ nl
      ++ edu_section ++ nl
      ++ certs_section ++ nl
      ++ langs_section ++ nl
      ++ interests_section ++ "</aside>").


(** *** Page 1: company summaries *)

(** [[exp["startDate"] for exp in experiences if exp.get("startDate")]]. *)
Definition all_starts (experiences : list work_entry) : list string :=
  flat_map (fun e => if truthy_opt (w_startDate e) then [get_or_empty (w_startDate e)] else [])
           experiences.

Definition all_ends (experiences : list work_entry) : list string :=
  flat_map (fun e => if truthy_opt (w_endDate e) then [get_or_empty (w_endDate e)] else [])
           experiences.

(** [min(all_starts) if all_starts else ""]. *)
Definition earliest_start (experiences : list work_entry) : string :=
  match all_starts experiences with
  | [] => EmptyString
  | x :: t => min_str x t
  end.

(** [max(all_ends) if all_ends else ""]. *)
Definition latest_end (experiences : list work_entry) : string :=
  match all_ends experiences with
  | [] => EmptyString
  | x :: t => max_str x t
  end.

(** The period line of a company summary. *)
Definition company_period (experiences : list work_entry) (lang : language) : string :=
  format_date (earliest_start experiences) lang ++ " – "
  ++ format_date (latest_end experiences) lang.

(** [exp["position"].split("(")[0].strip()]. *)
Definition role_of (e : work_entry) : result string :=
  position <- item_of "position" (w_position e) ;;
  Ok (strip (split_head "(" position)).

Definition is_environment (h : string) : bool := startswith "Environnement:" h.

(** The summary of an entry and its first two highlights that are not
    environment lines. *)
Definition descriptions_of (e : work_entry) : list string :=
  ((if truthy_opt (w_summary e) then [get_or_empty (w_summary e)] else [])
   ++ take 2 (filter (fun h => negb (is_environment h))
                     (match w_highlights e with Some l => l | None => [] end)))%list.

Definition render_company_summary (now : Z * Z) (anonymize : bool) (lang : language)
           (group : string * list work_entry) : result string :=
  let '(company, experiences) := group in
  let earliest := earliest_start experiences in
  let latest := latest_end experiences in
  roles <- map_r role_of experiences ;;
  let roles_str := join " • " (fromkeys roles) in
  let description := join "<br><br>" (take 3 (flat_map descriptions_of experiences)) in
  let roles_str := if anonymize then anonymize_text roles_str else roles_str in
  let description := if anonymize then anonymize_text description else description in
  let logo := get_company_logo company in
  let color := get_company_color company in
  duration <- calculate_duration now earliest latest lang ;;
  Ok ("  <!-- " ++ company ++ " -->" ++ nl
      ++ "  <div " ++ cls ("company-sum " ++ color) ++ ">" ++ nl
      ++ "    <div " ++ cls "company-sum-logo" ++ ">" ++ nl
      ++ "      <img src=" ++ q logo ++ " alt=" ++ q company ++ ">" ++ nl
      ++ "    </div>" ++ nl
      ++ "    <div " ++ cls "company-sum-left" ++ ">" ++ nl
      ++ "      <div " ++ cls "company-sum-name" ++ ">" ++ company ++ "</div>" ++ nl
      ++ "      <div " ++ cls "company-sum-period" ++ ">"
      ++ company_period experiences lang ++ "</div>" ++ nl
      ++ "      <div " ++ cls "company-sum-dur" ++ ">" ++ duration ++ "</div>" ++ nl
      ++ "    </div>" ++ nl
      ++ "    <div " ++ cls "company-sum-right" ++ ">" ++ nl
      ++ "      <div " ++ cls "company-sum-roles" ++ ">" ++ roles_str ++ "</div>" ++ nl
      ++ "      <div " ++ cls "company-sum-desc" ++ ">" ++ nl
      ++ "        " ++ description ++ nl
      ++ "      </div>" ++ nl
      ++ "    </div>" ++ nl
      ++ "  </div>" ++ nl
      ++ nl).

(** Render page 1 with company summaries. *)
Definition render_page_1 (now : Z * Z) (r : resume) (anonymize : bool) (lang : language)
  : result string :=
  let lbl := LABELS lang in
  sidebar <- render_sidebar (basics r) (skills r) (education r) (certificates r)
                            (languages r) (interests r) anonymize lang ;;
  let grouped_work := group_experiences_by_company (work r) in
  summaries <- map_r (render_company_summary now anonymize lang) grouped_work ;;
  let company_summaries_html := String.concat EmptyString summaries in
  let summary := replace ". " ".<br><br>" (get_or_empty (b_summary (basics r))) in
  Ok ("<!-- ========== PAGE 1 ========== -->" ++ nl
      ++ "<div " ++ cls "page" ++ ">" ++ nl
      ++ nl
      ++ sidebar ++ nl
      ++ nl
      ++ "<!-- MAIN PAGE 1 -->" ++ nl
      ++ "<main " ++ cls "mn" ++ ">" ++ nl
      ++ nl
      ++ "  <!-- TL;DR -->" ++ nl
      ++ "  <div " ++ cls "tldr" ++ ">" ++ nl
      ++ "    <div " ++ cls "tldr-title" ++ ">" ++ l_tldr lbl ++ "</div>" ++ nl
      ++ "    <div " ++ cls "tldr-text" ++ ">" ++ nl
      ++ "      " ++ summary ++ nl
      ++ "    </div>" ++ nl
      ++ "  </div>" ++ nl
      ++ nl
      ++ "  <div " ++ cls "sec-title" ++ ">" ++ l_summary lbl ++ "</div>" ++ nl
      ++ nl
      ++ company_summaries_html ++ nl
      ++ "</main>" ++ nl
      ++ nl
      ++ "<div " ++ cls "page-num" ++ ">" ++ l_page lbl ++ " 1</div>" ++ nl
      ++ nl
      ++ "</div>" ++ nl).

(** *** Detail pages *)

(** The mission of an entry: the parenthesis of the name if the name has
    one, else that of a position that mentions a mission. *)
Definition mission_of (name position : string) : string :=
  if contains "(" name then
    match Re.search false parenthesized name with
    | Some m => m
    | None => EmptyString
    end
  else if contains "Mission" position then
    match Re.search false parenthesized position with
    | Some m => m
    | None => EmptyString
    end
  else EmptyString.

Definition render_highlight (anonymize : bool) (highlight : string) : string :=
  let highlight := if anonymize then anonymize_text highlight else highlight in
  if is_environment highlight then
    let env_text := strip (replace "Environnement:" EmptyString highlight) in
    "            <li " ++ cls "exp-env" ++ ">" ++ env_text ++ "</li>" ++ nl
  else
    "            <li>" ++ highlight ++ "</li>" ++ nl.

(** One iteration of [for exp in experiences]: the block of one entry.  The
    position is read only after the name, in the test for a mission when the
    name has no parenthesis and in any case for the role. *)
Definition render_experience (now : Z * Z) (company color : string) (anonymize : bool)
           (lang : language) (e : work_entry) : result string :=
  name <- item_of "name" (w_name e) ;;
  position_full <- item_of "position" (w_position e) ;;
  let mission := mission_of name position_full in
  let position := strip (split_head "(" position_full) in
  let mission := if anonymize then anonymize_text mission else mission in
  let position := if anonymize then anonymize_text position else position in
  let highlights := match w_highlights e with Some l => l | None => [] end in
  let highlights_html :=
    String.concat EmptyString (map (render_highlight anonymize) highlights) in
  startDate <- item_of "startDate" (w_startDate e) ;;
  endDate <- item_of "endDate" (w_endDate e) ;;
  duration <- calculate_duration now startDate endDate lang ;;
  let mission_html :=
    if truthy mission then "<div " ++ cls "exp-mi" ++ ">" ++ mission ++ "</div>"
    else EmptyString in
  Ok ("        <div " ++ cls ("exp " ++ color) ++ ">" ++ nl
      ++ "          <div " ++ cls "exp-co" ++ ">" ++ company ++ "</div>" ++ nl
      ++ "          " ++ mission_html ++ nl
      ++ "          <div " ++ cls "exp-ro" ++ ">" ++ position ++ "</div>" ++ nl
      ++ "          <div " ++ cls "exp-dt" ++ ">" ++ format_date startDate lang ++ " – "
      ++ format_date endDate lang ++ " <span " ++ cls "exp-dur" ++ ">" ++ duration
      ++ "</span></div>" ++ nl
      ++ "          <ul " ++ cls "exp-hl" ++ ">" ++ nl
      ++ highlights_html ++ "          </ul>" ++ nl
      ++ "        </div>" ++ nl
      ++ nl).

(** Render a group of experiences for one company. *)
Definition render_experience_group (now : Z * Z) (company : string)
           (experiences : list work_entry) (color : string) (anonymize : bool)
           (lang : language) : result string :=
  blocks <- map_r (render_experience now company color anonymize lang) experiences ;;
  Ok ("      <!-- " ++ company ++ " -->" ++ nl
      ++ "      <div " ++ cls "exp-grp" ++ ">" ++ nl
      ++ "        <div " ++ cls "exp-grp-title" ++ ">" ++ company ++ "</div>" ++ nl
      ++ nl
      ++ String.concat EmptyString blocks
      ++ "      </div>" ++ nl ++ nl).

(** The rendered fragment of a group and its estimated height. *)
Definition render_and_estimate (now : Z * Z) (anonymize : bool) (lang : language)
           (group : string * list work_entry) : result (string * Z) :=
  let '(company, experiences) := group in
  let color := get_company_color company in
  exp_group_html <- render_experience_group now company experiences color anonymize lang ;;
  let estimated_height := (Z.of_nat (List.length experiences) * Pagination.AVG_EXP_HEIGHT)%Z in
  Ok (exp_group_html, estimated_height).

(** Split experiences into multiple pages (2 columns per page). *)
Definition split_experiences_into_pages (now : Z * Z) (grouped_work : groups)
           (anonymize : bool) (lang : language) : result (list (Pagination.page string)) :=
  all_exp_groups <- map_r (render_and_estimate now anonymize lang) grouped_work ;;
  Ok (Pagination.pack_groups all_exp_groups).

Definition render_detail_page (lang : language) (sidebar : string) (page_num : Z)
           (p : Pagination.page string) : string :=
  let lbl := LABELS lang in
  let col1_html := String.concat EmptyString (fst p) in
  let col2_html := String.concat EmptyString (snd p) in
  "<!-- ========== PAGE " ++ str_of_int page_num ++ " ========== -->" ++ nl
  ++ "<div " ++ cls "page" ++ ">" ++ nl
  ++ nl
  ++ sidebar ++ nl
  ++ nl
  ++ "<!-- MAIN PAGE " ++ str_of_int page_num ++ " -->" ++ nl
  ++ "<main " ++ cls "mn" ++ ">" ++ nl
  ++ nl
  ++ "  <div " ++ cls "sec-title" ++ ">" ++ l_detail lbl
  ++ (if (2 <? page_num)%Z then l_suite lbl else EmptyString) ++ "</div>" ++ nl
  ++ nl
  ++ "  <div " ++ cls "exp-cols" ++ ">" ++ nl
  ++ "    <div " ++ cls "exp-col" ++ ">" ++ nl
  ++ nl
  ++ col1_html ++ "    </div>" ++ nl
  ++ nl
  ++ "    <div " ++ cls "exp-col" ++ ">" ++ nl
  ++ nl
  ++ col2_html ++ "    </div>" ++ nl
  ++ "  </div>" ++ nl
  ++ nl
  ++ "</main>" ++ nl
  ++ nl
  ++ "<div " ++ cls "page-num" ++ ">" ++ l_page lbl ++ " " ++ str_of_int page_num
  ++ "</div>" ++ nl
  ++ nl
  ++ "</div>" ++ nl
  ++ nl.

(** [for page_num, page in enumerate(pages_data, start=page_num)]. *)
Fixpoint render_pages_from (lang : language) (sidebar : string) (page_num : Z)
         (pages_data : list (Pagination.page string)) : string :=
  match pages_data with
  | [] => EmptyString
  | p :: rest =>
      render_detail_page lang sidebar page_num p
      ++ render_pages_from lang sidebar (page_num + 1) rest
  end.

(** Render detail pages (page 2+) with experiences. *)
Definition render_detail_pages (now : Z * Z) (r : resume) (anonymize : bool)
           (lang : language) : result string :=
  sidebar <- render_sidebar (basics r) (skills r) (education r) (certificates r)
                            (languages r) (interests r) anonymize lang ;;
  let grouped_work := group_experiences_by_company (work r) in
  pages_data <- split_experiences_into_pages now grouped_work anonymize lang ;;
  Ok (render_pages_from lang sidebar 2 pages_data).

(** *** The document *)

(** The rewrite of a work entry when anonymizing: name and position must be
    there, summary and highlights default to empty. *)
Definition anonymize_work_entry (e : work_entry) : result work_entry :=
  name <- item_of "name" (w_name e) ;;
  position <- item_of "position" (w_position e) ;;
  Ok (mk_work (Some (anonymize_text name))
              (Some (anonymize_text position))
              (w_startDate e)
              (w_endDate e)
              (Some (anonymize_text (get_or_empty (w_summary e))))
              (Some (map anonymize_text
                         (match w_highlights e with Some l => l | None => [] end)))).

Definition with_work (r : resume) (w : list work_entry) : resume :=
  mk_resume (basics r) w (skills r) (education r) (certificates r) (languages r)
            (interests r).

(** Generate complete HTML from resume data.  [template_content] is the text
    of [templates/cv_template.html]. *)
Definition generate_html (template_content : string) (now : Z * Z) (resume_data : resume)
           (anonymize : bool) (lang : language) : result string :=
  resume_data <-
    (if anonymize
     then w <- map_r anonymize_work_entry (work resume_data) ;; Ok (with_work resume_data w)
     else Ok resume_data) ;;
  page_1 <- render_page_1 now resume_data anonymize lang ;;
  detail_pages <- render_detail_pages now resume_data anonymize lang ;;
  let html := replace "{{ lang }}" (lang_code lang) template_content in
  let html := replace "{{ name }}" (get_or_empty (b_name (basics resume_data))) html in
  let html := replace "{{ content }}" (page_1 ++ nl ++ detail_pages) html in
  Ok html.


End Gen.

(** ** Notions the properties are stated with *)

Module Notions.

Import Py Re Gen.
Local Open Scope string_scope.

(** The position of the first occurrence of [x] in [l], or the length of
    [l] when there is none. *)
Fixpoint first_index (x : string) (l : list string) : nat :=
  match l with
  | [] => O
  | y :: t => if String.eqb y x then O else S (first_index x t)
  end.

(** The entries of a company, in source order. *)
Definition entries_of (company : string) (work_list : list work_entry) : list work_entry :=
  filter (fun w => String.eqb (get_company_name w) company) work_list.

(** The number of grouped entries. *)
Definition total_size (grouped : groups) : nat :=
  list_sum (map (fun g => List.length (snd g)) grouped).

Fixpoint has_char (c : ascii) (s : string) : bool :=
  match s with
  | EmptyString => false
  | String d t => Ascii.eqb d c || has_char c t
  end.

(** An opening parenthesis with a closing one somewhere after it. *)
Fixpoint open_then_close (s : string) : bool :=
  match s with
  | EmptyString => false
  | String c t => (Ascii.eqb c "(" && has_char ")" t) || open_then_close t
  end.

Fixpoint last_char (s : string) : option ascii :=
  match s with
  | EmptyString => None
  | String c t => match t with EmptyString => Some c | String _ _ => last_char t end
  end.

Fixpoint all_blank (s : string) : bool :=
  match s with
  | EmptyString => true
  | String c t => is_space c && all_blank t
  end.

(** No blank at either end. *)
Definition trimmed (s : string) : bool :=
  negb (match head_opt s with Some c => is_space c | None => false end)
  && negb (match last_char s with Some c => is_space c | None => false end).

(** The match of [parenthetical] unfolded: the blanks, then the
    parenthesis up to the first closing one. *)
Definition paren_body (g : marks) : option ascii -> string -> option (string * marks) :=
  fix star (prev : option ascii) (s : string) {struct s} : option (string * marks) :=
    match s with
    | String d t =>
        if cclass_matches false (NoneOf [")"%char]) d then
          match star (Some d) t with
          | Some r => Some r
          | None => match_items false [Lit ")"%char] prev s g
          end
        else match_items false [Lit ")"%char] prev s g
    | EmptyString => match_items false [Lit ")"%char] prev s g
    end.

Definition paren_open (g : marks) (prev : option ascii) (s : string)
  : option (string * marks) :=
  match s with
  | String d t => if chr_eq false "(" d then paren_body g (Some d) t else None
  | EmptyString => None
  end.

Definition paren_blanks (g : marks) : option ascii -> string -> option (string * marks) :=
  fix star (prev : option ascii) (s : string) {struct s} : option (string * marks) :=
    match s with
    | String d t =>
        if cclass_matches false Space d then
          match star (Some d) t with
          | Some r => Some r
          | None => paren_open g prev s
          end
        else paren_open g prev s
    | EmptyString => paren_open g prev s
    end.

(** The pattern has an item that reads a character. *)
Definition consuming (items : pattern) : bool :=
  existsb (fun i => match i with Lit _ | Cls _ | Plus _ => true | _ => false end) items.

Definition is_some {T : Type} (o : option T) : bool :=
  match o with Some _ => true | None => false end.

(** The four keys the detail view reads with [exp[key]]. *)
Definition has_required_keys (e : work_entry) : bool :=
  is_some (w_name e) && is_some (w_position e)
  && is_some (w_startDate e) && is_some (w_endDate e).

(** The end date is absent, empty or in the format YYYY-MM. *)
Definition end_date_ok (e : work_entry) : bool :=
  match w_endDate e with
  | Some s => negb (truthy s) || is_some (parse_date s)
  | None => true
  end.

(** Summary and highlights set to what [.get] gives when they are absent. *)
Definition with_defaults (e : work_entry) : work_entry :=
  mk_work (w_name e) (w_position e) (w_startDate e) (w_endDate e)
          (Some (get_or_empty (w_summary e)))
          (Some (match w_highlights e with Some l => l | None => [] end)).

(** The record with another phone and email. *)
Definition with_contact (r : resume) (phone email : option string) : resume :=
  let b := basics r in
  mk_resume (mk_basics (b_name b) (b_label b) (b_image b) (b_summary b) phone email
                       (b_url b) (b_profiles b) (b_location b))
            (work r) (skills r) (education r) (certificates r) (languages r) (interests r).

(** The exception, if any, is a [KeyError]. *)
Definition key_errors_only {T : Type} (x : result T) : Prop :=
  match x with
  | Raise AttributeError => False
  | _ => True
  end.

(** The substitution of [get_company_name], from any point of the name. *)
Definition strip_parens (prev : option ascii) (s : string) (skip : nat) : string :=
  sub_from false parenthetical [] prev s skip.

End Notions.


(** ** Sample inputs *)

Module Samples.

Import Py Re Gen.
Local Open Scope string_scope.

(** The date of the run. *)
Definition today : Z * Z := (2026, 11).

(** A work entry with all its keys. *)
Definition plain_entry (name position startDate endDate : string) : work_entry :=
  mk_work (Some name) (Some position) (Some startDate) (Some endDate) None None.

(** A company with eight engagements: estimated height 8 * 35 = 280. *)
Definition eight_engagements : groups :=
  [("ACME", repeat (plain_entry "ACME" "Dev" "2020-01" "2020-06") 8)].

(** A company with a closed engagement and one still running. *)
Definition closed_and_running : list work_entry :=
  [ plain_entry "Capgemini (Mission Alpha)" "Architecte" "2017-07" "2019-12";
    plain_entry "Capgemini (Mission Beta)" "Architecte" "2019-06" EmptyString ].

(** A document skeleton with the three insertion points. *)
Definition sample_template : string :=
  "<html lang={{ lang }}><head><title>{{ name }}</title></head><body>" ++ nl
  ++ "{{ content }}</body></html>" ++ nl.

Definition sample_basics (summary : string) : basics_record :=
  mk_basics (Some "Jeanne Martin") (Some "Architecte / Tech Lead") (Some "photo.jpg")
            (Some summary) (Some "+33 6 12 34 56 78") (Some "jeanne.martin@example.org")
            (Some "https://martin.example.org")
            [mk_profile (Some "LinkedIn") (Some "jmartin")]
            (Some (mk_location (Some "Paris"))).

(** Two employers; the second has two overlapping engagements with six
    highlight lines in all; the name of the first is matched by a rule. *)
Definition scenario : resume :=
  mk_resume
    (sample_basics "Architecte logiciel. Quinze ans de conseil.")
    [ mk_work (Some "Natixis") (Some "Developpeur") (Some "2015-01") (Some "2017-06")
              (Some "Refonte du poste de travail.") (Some ["API de cotation"]);
      mk_work (Some "Capgemini (Mission Alpha)") (Some "Architecte (lead)")
              (Some "2017-07") (Some "2019-12") None
              (Some ["Cadrage"; "Migration"; "Environnement: Java, Kafka"]);
      mk_work (Some "Capgemini (Mission Beta)") (Some "Architecte")
              (Some "2019-06") (Some EmptyString) (Some "Plateforme de paiement.")
              (Some ["Conception"; "Revue de code"; "Environnement: Go"]) ]
    [mk_skill (Some "Langages") (Some ["Java"; "Go"])]
    [mk_education (Some "DUT") (Some "Informatique") (Some "IUT") (Some "2001") (Some "2003")]
    [mk_certificate (Some "Cloud Architect") (Some "2020-05")]
    [mk_language (Some "Anglais") (Some "Courant")]
    [mk_interest (Some "Sport") (Some ["Escalade"])].

(** A record whose summary names the client of its one engagement. *)
Definition client_in_summary : resume :=
  mk_resume
    (sample_basics "Consultante chez LVMH depuis 2015.")
    [ mk_work (Some "SFEIR (Mission LVMH)") (Some "Architecte") (Some "2015-01")
              (Some EmptyString) None None ]
    [] [] [] [] [].

(** A record whose first entry has an end date that does not parse and
    whose second entry has no end date key. *)
Definition bad_date_then_missing_key : resume :=
  mk_resume
    (sample_basics EmptyString)
    [ plain_entry "Mixdata" "Dev" "2012-01" "2013";
      mk_work (Some "SFEIR") (Some "Dev") (Some "2014-01") None None None ]
    [] [] [] [] [].

(** A record whose one entry has no end date key. *)
Definition missing_end_date : resume :=
  mk_resume
    (sample_basics EmptyString)
    [ mk_work (Some "SFEIR") (Some "Dev") (Some "2014-01") None None None ]
    [] [] [] [] [].

End Samples.

(** ** Notions of the further properties *)

Module Further.

Import Py Re Pagination Gen Notions.

Section PackingNotions.

Context {A : Type}.

(** The groups carried through the packing with their heights, so that the
    pages show what each column holds. *)
Definition with_heights (groups : list (A * Z)) : list ((A * Z) * Z) :=
  map (fun g => (g, snd g)) groups.

(** The estimated height of a column. *)
Definition total_height (col : list (A * Z)) : Z :=
  fold_right (fun g acc => snd g + acc) 0 col.

(** Column 2 is within the budget, and column 1 is too unless it is one
    group alone. *)
Definition within_budget (p : page (A * Z)) : Prop :=
  total_height (snd p) <= MAX_HEIGHT_PER_COL
  /\ (total_height (fst p) <= MAX_HEIGHT_PER_COL \/ length (fst p) = 1%nat).

(** The group fits in neither column of the page. *)
Definition fits_neither (p : page (A * Z)) (g : A * Z) : Prop :=
  MAX_HEIGHT_PER_COL < total_height (fst p) + snd g
  /\ MAX_HEIGHT_PER_COL < total_height (snd p) + snd g.

(** The first group of page [q] did not fit on page [p]. *)
Definition opened_after (p q : page (A * Z)) : Prop :=
  match fst q with
  | g :: _ => fits_neither p g
  | [] => False
  end.

(** The loop variables agree with what the columns hold. *)
Definition heights_tracked (st : pack_state (A * Z)) : Prop :=
  col1_height st = total_height (col1 st)
  /\ col2_height st = total_height (col2 st).

End PackingNotions.

(** A relation between each element of a list and the next. *)
Fixpoint chain {T : Type} (R : T -> T -> Prop) (l : list T) : Prop :=
  match l with
  | a :: t => match t with
              | b :: _ => R a b /\ chain R t
              | [] => True
              end
  | [] => True
  end.

(** What the loop keeps true of its state when the heights are those of the
    groups. *)
Definition packed_well {A : Type} (st : pack_state (A * Z)) : Prop :=
  heights_tracked st
  /\ within_budget (col1 st, col2 st)
  /\ Forall within_budget (pages st)
  /\ chain opened_after (pages st ++ [(col1 st, col2 st)])
  /\ (pages st <> [] -> col1 st <> []).

(** The items of a page, column 1 first. *)
Definition page_items {T : Type} (p : page T) : list T := fst p ++ snd p.

(** Every item of the first page comes before every item of the second. *)
Definition page_before (p q : page nat) : Prop :=
  forall x y, In x (page_items p) -> In y (page_items q) -> (x < y)%nat.

Definition columns_in_order (p : page nat) : Prop :=
  StronglySorted lt (fst p) /\ StronglySorted lt (snd p).

(** The pages so far with the one in progress. *)
Definition all_pages {T : Type} (st : pack_state T) : list (page T) :=
  pages st ++ [(col1 st, col2 st)].

(** Positions below [k] only, in order within each column and from page to
    page. *)
Definition in_reading_order (k : nat) (ps : list (page nat)) : Prop :=
  Forall columns_in_order ps
  /\ StronglySorted page_before ps
  /\ Forall (fun x => (x < k)%nat) (placed ps).

(** A page with every fragment replaced by its image. *)
Definition map_page {T U : Type} (f : T -> U) (p : page T) : page U :=
  (map f (fst p), map f (snd p)).

Definition map_state {T U : Type} (f : T -> U) (st : pack_state T) : pack_state U :=
  mk_pack_state (map (map_page f) (pages st)) (map f (col1 st)) (map f (col2 st))
                (col1_height st) (col2_height st).

(** The groups with their positions in the input. *)
Definition positioned {T : Type} (groups : list (T * Z)) : list ((nat * T) * Z) :=
  map (fun t => ((fst t, fst (snd t)), snd (snd t)))
      (combine (seq 0 (length groups)) groups).

Definition sum_heights {T : Type} (groups : list (T * Z)) : Z :=
  fold_right (fun g acc => snd g + acc) 0 groups.

(** The estimated height of a company group. *)
Definition estimated_height (group : string * list work_entry) : Z :=
  Z.of_nat (length (snd group)) * AVG_EXP_HEIGHT.

(** *** Dates *)

(** The character of a decimal digit. *)
Definition digit_char (n : Z) : ascii := ascii_of_N (Z.to_N (48 + n)).

(** A year in four digits. *)
Definition year_text (year : Z) : string :=
  String (digit_char (year / 1000))
    (String (digit_char (year / 100 mod 10))
       (String (digit_char (year / 10 mod 10))
          (String (digit_char (year mod 10)) EmptyString))).

(** The date of a month written YYYY-MM, as [strftime("%Y-%m")] writes
    it. *)
Definition iso_month (year month : Z) : string :=
  (year_text year ++ "-"
   ++ String (digit_char (month / 10)) (String (digit_char (month mod 10)) EmptyString))%string.

(** The same without the leading zero of the month. *)
Definition short_month (year month : Z) : string :=
  (year_text year ++ "-" ++ String (digit_char month) EmptyString)%string.

Definition valid_date (d : Z * Z) : Prop :=
  1 <= fst d <= 9999 /\ 1 <= snd d <= 12.

(** *** Texts *)

(** No anonymization rule has a match anywhere in the text. *)
Definition no_rule_matches (text : string) : bool :=
  forallb (fun rule : pattern * template * string =>
             negb (is_some (Re.search true (fst (fst rule)) text)))
          ANONYMIZATION_RULES.

(** The entry under another name. *)
Definition rename (e : work_entry) (name : string) : work_entry :=
  mk_work (Some name) (w_position e) (w_startDate e) (w_endDate e)
          (w_summary e) (w_highlights e).

(** The computation returns a value. *)
Definition succeeds {T : Type} (x : result T) : Prop := exists v, x = Ok v.

(** The keys the sidebar reads with [d[key]]: the name of every skill,
    certificate and interest, the language and fluency of every language. *)
Definition sidebar_keys_ok (r : resume) : bool :=
  forallb (fun s => is_some (sk_name s)) (skills r)
  && forallb (fun c => is_some (ce_name c)) (certificates r)
  && forallb (fun l => is_some (la_language l) && is_some (la_fluency l)) (languages r)
  && forallb (fun i => is_some (in_name i)) (interests r).

(** A template cut at its placeholders. *)
Inductive segment : Type :=
| Plain (s : string)
| Lang_slot
| Name_slot
| Content_slot.

(** The text of a template whose placeholders read [lang], [name] and
    [content]. *)
Definition fill (lang name content : string) (segments : list segment) : string :=
  fold_right (fun seg rest =>
                (match seg with
                 | Plain s => s
                 | Lang_slot => lang
                 | Name_slot => name
                 | Content_slot => content
                 end ++ rest)%string)
             EmptyString segments.

Definition template_of (segments : list segment) : string :=
  fill "{{ lang }}" "{{ name }}" "{{ content }}" segments.

Definition brace_free (s : string) : bool := negb (has_char "{" s).

Definition plain_brace_free (segments : list segment) : bool :=
  forallb (fun seg => match seg with Plain s => brace_free s | _ => true end) segments.

(** The subject of a resume, as the template receives it. *)
Definition subject (r : resume) : string := get_or_empty (b_name (basics r)).

(** The match of [parenthesized] after the opening parenthesis and the
    first character of the group: the rest of the group, then the closing
    parenthesis. *)
Definition mission_body (g : marks) : option ascii -> string -> option (string * marks) :=
  fix star (prev : option ascii) (s : string) {struct s} : option (string * marks) :=
    match s with
    | String d t =>
        if cclass_matches false (NoneOf [")"%char]) d then
          match star (Some d) t with
          | Some r => Some r
          | None => match_items false [GClose; Lit ")"%char] prev s g
          end
        else match_items false [GClose; Lit ")"%char] prev s g
    | EmptyString => match_items false [GClose; Lit ")"%char] prev s g
    end.

(** The name of an engagement for a client: the company, then the mission
    between parentheses. *)
Definition engagement_name (company blanks mission : string) : string :=
  (company ++ blanks ++ "(" ++ mission ++ ")")%string.

(** *** Blanks outside ASCII *)

(** The text of the given UTF-8 bytes. *)
Definition of_bytes (bytes : list N) : string :=
  string_of_list_ascii (map ascii_of_N bytes).

(** The characters outside ASCII that [str.strip] and [\s] take for blanks,
    in UTF-8: U+0085, U+00A0, U+1680, U+2000 to U+200A, U+2028, U+2029,
    U+202F, U+205F and U+3000. *)
Definition wide_blanks : list string :=
  map of_bytes
      [ [194; 133]; [194; 160]; [225; 154; 128];
        [226; 128; 128]; [226; 128; 129]; [226; 128; 130]; [226; 128; 131];
        [226; 128; 132]; [226; 128; 133]; [226; 128; 134]; [226; 128; 135];
        [226; 128; 136]; [226; 128; 137]; [226; 128; 138];
        [226; 128; 168]; [226; 128; 169]; [226; 128; 175];
        [226; 129; 159]; [227; 128; 128] ]%N.

(** The text has none of them: its blanks, for Python, are the blanks of
    [is_space], and [strip] and [\s] read it as the embedding does. *)
Definition ascii_blanks_only (s : string) : bool :=
  forallb (fun b => negb (contains b s)) wide_blanks.

(** *** Names with notes *)

(** A name made of texts, each followed by a note between parentheses, and
    of a last text. *)
Fixpoint annotated (parts : list (string * string)) (last : string) : string :=
  match parts with
  | [] => last
  | (text, note) :: rest => (text ++ "(" ++ note ++ ")" ++ annotated rest last)%string
  end.

(** The same without the notes and without the blanks before them. *)
Fixpoint unannotated (parts : list (string * string)) (last : string) : string :=
  match parts with
  | [] => last
  | (text, _) :: rest => (rstrip text ++ unannotated rest last)%string
  end.

(** The text has no opening parenthesis and the note no closing one. *)
Definition note_ok (part : string * string) : bool :=
  negb (has_char "(" (fst part)) && negb (has_char ")" (snd part)).

(** An entry that has nothing but a name. *)
Definition named (name : string) : work_entry :=
  mk_work (Some name) None None None None None.

(** The parts of the name [Capgemini  (Mission Alpha) Paris (2019) ]. *)
Definition sample_parts : list (string * string) :=
  [("Capgemini  ", "Mission Alpha"); (" Paris ", "2019")]%string.

(** *** Entries that the rules rewrite alike *)

(** Two work entries with the same dates whose name, position, summary and
    highlights are the same once [anonymize_text] has rewritten them. *)
Definition rewritten_alike (e1 e2 : work_entry) : Prop :=
  option_map anonymize_text (w_name e1) = option_map anonymize_text (w_name e2)
  /\ option_map anonymize_text (w_position e1) = option_map anonymize_text (w_position e2)
  /\ anonymize_text (get_or_empty (w_summary e1))
     = anonymize_text (get_or_empty (w_summary e2))
  /\ map anonymize_text (match w_highlights e1 with Some l => l | None => [] end)
     = map anonymize_text (match w_highlights e2 with Some l => l | None => [] end)
  /\ w_startDate e1 = w_startDate e2
  /\ w_endDate e1 = w_endDate e2.

(** *** The dates on the card of a company and in the block of an entry *)

(** The period as the summary card has it. *)
Definition card_period (lang : language) (startDate endDate : string) : string :=
  (cls "company-sum-period" ++ ">" ++ format_date startDate lang ++ " – "
   ++ format_date endDate lang ++ "</div>")%string.

(** The duration as the summary card has it. *)
Definition card_duration (duration : string) : string :=
  (cls "company-sum-dur" ++ ">" ++ duration ++ "</div>")%string.

(** The line of dates as the detail block has it. *)
Definition block_dates (lang : language) (startDate endDate duration : string) : string :=
  (cls "exp-dt" ++ ">" ++ format_date startDate lang ++ " – "
   ++ format_date endDate lang ++ " <span " ++ cls "exp-dur" ++ ">" ++ duration
   ++ "</span></div>")%string.

(** The scenario with its work entries in reverse order: the engagement
    for the client comes last. *)
Definition client_last : resume :=
  with_work Samples.scenario (rev (work Samples.scenario)).

(** A small template, cut at its placeholders. *)
Definition sample_segments : list segment :=
  [ Plain "<html lang="; Lang_slot; Plain "><title>"; Name_slot;
    Plain "</title><body>"; Content_slot; Plain "</body></html>" ].

End Further.


(** ** The fallback reader of the [.env] file

    [load_env_file], on the branch taken when the file exists and the
    [dotenv] package is not installed: the lines of the file are read one
    by one into [os.environ].  The file is given by its lines, as the
    iteration over the open file yields them; [os.environ] is the list of
    its items, on a system where variable names are case sensitive. *)

Module Env.

Import Py Re Gen Notions.
Local Open Scope string_scope.

(** [s.lstrip(chars)], [s.rstrip(chars)] and [s.strip(chars)]. *)
Fixpoint lstrip_chars (chars s : string) : string :=
  match s with
  | String c t => if has_char c chars then lstrip_chars chars t else s
  | EmptyString => EmptyString
  end.

Fixpoint rstrip_chars (chars s : string) : string :=
  match s with
  | String c t =>
      match rstrip_chars chars t with
      | EmptyString => if has_char c chars then EmptyString else String c EmptyString
      | t' => String c t'
      end
  | EmptyString => EmptyString
  end.

Definition strip_chars (chars s : string) : string :=
  rstrip_chars chars (lstrip_chars chars s).

(** [s.split(sep, 1)] for a text that holds the separator: what is before
    its first occurrence and what is after it. *)
Fixpoint split_once (sep : ascii) (s : string) : option (string * string) :=
  match s with
  | EmptyString => None
  | String c t =>
      if Ascii.eqb c sep then Some (EmptyString, t)
      else match split_once sep t with
           | Some (before, after) => Some (String c before, after)
           | None => None
           end
  end.

(** The body of the loop up to the test on [os.environ]: the variable
    that a line defines, if it defines one. *)
Definition env_assignment (line : string) : option (string * string) :=
  let line := strip line in
  if truthy line && negb (startswith "#" line) && contains "=" line then
    match split_once "=" line with
    | Some (key, value) =>
        Some (strip key, strip_chars "'" (strip_chars dq (strip value)))
    | None => None
    end
  else None.

Definition environ : Type := list (string * string).

Definition NUL : ascii := "000"%char.

(** [os.environ[key] = value] raises for an empty name and for a NUL
    character in the name or in the value. *)
Definition accepted (key value : string) : bool :=
  truthy key && negb (has_char NUL key) && negb (has_char NUL value).

(** The loop over the lines.  [None]: [os.environ] refused an assignment
    and its exception left the function. *)
Fixpoint load_env_file (env : environ) (lines : list string) : option environ :=
  match lines with
  | [] => Some env
  | line :: rest =>
      match env_assignment line with
      | Some (key, value) =>
          match lookup key env with
          | Some _ => load_env_file env rest
          | None =>
              if accepted key value then load_env_file ((key, value) :: env) rest
              else None
          end
      | None => load_env_file env rest
      end
  end.

(** The value that the first line defining [key] gives it. *)
Fixpoint first_definition (key : string) (lines : list string) : option string :=
  match lines with
  | [] => None
  | line :: rest =>
      match env_assignment line with
      | Some (k, v) => if String.eqb k key then Some v else first_definition key rest
      | None => first_definition key rest
      end
  end.

(** A variable name as a line can give it: not empty, no blank at either
    end, no equals sign, and not starting a comment. *)
Definition name_ok (key : string) : bool :=
  truthy key && trimmed key && negb (has_char "=" key) && negb (startswith "#" key).

Definition is_quote (c : ascii) : bool := Ascii.eqb c "034" || Ascii.eqb c "'".

(** No quote at either end. *)
Definition unquoted (s : string) : bool :=
  negb (match head_opt s with Some c => is_quote c | None => false end)
  && negb (match last_char s with Some c => is_quote c | None => false end).

(** [name = value] with blanks around the three parts. *)
Definition env_line (p1 key p2 p3 value p4 : string) : string :=
  p1 ++ key ++ p2 ++ "=" ++ p3 ++ value ++ p4.

(** An environment and a file to read into it. *)
Definition sample_environ : environ := [("CI", "true")].

Definition sample_lines : list string :=
  [ "# keys" ++ nl;
    "CI=false" ++ nl;
    "GEMINI_MODEL = " ++ q "flash" ++ nl;
    "GEMINI_MODEL=other" ++ nl ].

End Env.

(** ** The translation cache

    The part of [main] that decides whether a cached translation is used.
    The SHA-256 digest of the input file is a given text. *)

Module Cache.

Import Py Re Gen Notions.
Local Open Scope string_scope.

(** What [main] writes to the hash file after a translation. *)
Definition cache_stamp (input_hash model : string) : string :=
  input_hash ++ ":" ++ model.

(** A carriage return. *)
Definition cr : string := String "013"%char EmptyString.

(** The text that [f.read()] gives for a file written with [f.write(text)],
    both in text mode: the text with its line ends read as line feeds. *)
Definition read_text (text : string) : string :=
  replace cr nl (replace (cr ++ nl) nl text).

(** [cache_valid] at the end of the test: [cache_file_exists] tells whether
    the cached translation is there, [hash_file] is what [f.read()] gives
    for the hash file when there is one. *)
Definition cache_valid (cache_file_exists : bool) (hash_file : option string)
           (input_hash model : string) : bool :=
  match hash_file with
  | Some content =>
      cache_file_exists && String.eqb (strip content) (cache_stamp input_hash model)
  | None => false
  end.

Definition is_hex (c : ascii) : bool := between 48 57 c || between 97 102 c.

Fixpoint all_hex (s : string) : bool :=
  match s with
  | EmptyString => true
  | String c t => is_hex c && all_hex t
  end.

(** A [hexdigest()] of SHA-256: 64 hexadecimal digits in lower case. *)
Definition is_hexdigest (s : string) : bool :=
  Nat.eqb (String.length s) 64 && all_hex s.

Definition sample_digest : string :=
  "9f86d081884c7d659a2feaa0c55ad015a3bf4f1b2b0b822cd15d6c15b0f00a08".

End Cache.

(** ** The answer of the translation

    The two substitutions of [translate_resume] that remove a Markdown
    code fence from the answer of the model, before it is read as JSON. *)

Module Translate.

Import Py Re.
Local Open Scope string_scope.

(** [```json\s*], after the [^] of the first substitution. *)
Definition fence_open : pattern := (lits "```json" ++ [Star Space])%list.

(** [\s*```], before the [$] of the second substitution. *)
Definition fence_close : pattern :=
  [Star Space; Lit "`"%char; Lit "`"%char; Lit "`"%char].

(** [re.sub('^' + items, '', s)]: [^] holds at the start of the text only,
    so that the only match is one that starts there. *)
Definition sub_at_start (items : pattern) (s : string) : string :=
  match match_items false items None s no_marks with
  | Some (rest, _) => rest
  | None => s
  end.

(** [$] holds at the end of the text and before a line feed that ends it. *)
Definition at_end (s : string) : bool :=
  match s with
  | EmptyString => true
  | String c EmptyString => Ascii.eqb c "010"
  | String _ (String _ _) => false
  end.

(** [re.sub(items + '$', '', s)] for [items] that can match in one way
    only at a given place: the leftmost match after which [$] holds is
    removed, and what follows it, a line feed at most, has no other. *)
Fixpoint sub_at_end (items : pattern) (prev : option ascii) (s : string) : string :=
  let keep :=
    match s with
    | String c t => String c (sub_at_end items (Some c) t)
    | EmptyString => EmptyString
    end in
  match match_items false items prev s no_marks with
  | Some (rest, _) => if at_end rest then rest else keep
  | None => keep
  end.

(** The answer as [json.loads] receives it. *)
Definition strip_code_fence (response_text : string) : string :=
  let response_text := sub_at_start fence_open response_text in
  sub_at_end fence_close None response_text.

(** The match of [fence_close], unfolded. *)
Definition fence_ticks (g : marks) (prev : option ascii) (s : string)
  : option (string * marks) :=
  match_items false [Lit "`"%char; Lit "`"%char; Lit "`"%char] prev s g.

Definition fence_blanks (g : marks) : option ascii -> string -> option (string * marks) :=
  fix star (prev : option ascii) (s : string) {struct s} : option (string * marks) :=
    match s with
    | String d t =>
        if cclass_matches false Space d then
          match star (Some d) t with
          | Some r => Some r
          | None => fence_ticks g prev s
          end
        else fence_ticks g prev s
    | EmptyString => fence_ticks g prev s
    end.

End Translate.


(** * Properties *)

(** ** Pagination *)

Section PackingFacts.

Import Py Pagination.

Context {A : Type}.

Implicit Types (st : pack_state A) (g : A * Z) (ps : list (page A)).

Lemma placed_snoc ps (p : page A) :
  placed (ps ++ [p]) = placed ps ++ fst p ++ snd p.
Proof.
  unfold placed. rewrite map_app, concat_app. simpl.
  now rewrite app_nil_r.
Qed.

Lemma held_place_group st g :
  Permutation (held (place_group st g)) (held st ++ [fst g]).
Proof.
  destruct g as [x h]. unfold place_group, held, start_new_page.
  destruct (col1_height st <=? col2_height st);
    [ destruct (col1_height st + h <=? MAX_HEIGHT_PER_COL)
    | destruct (col2_height st + h <=? MAX_HEIGHT_PER_COL) ];
    cbn [pages col1 col2 fst snd].
  - rewrite <- !app_assoc. apply Permutation_app_head, Permutation_app_head.
    apply Permutation_app_comm.
  - rewrite placed_snoc. cbn [fst snd]. now rewrite <- !app_assoc.
  - now rewrite <- !app_assoc.
  - rewrite placed_snoc. cbn [fst snd]. now rewrite <- !app_assoc.
Qed.

Lemma held_fold_place_group (gs : list (A * Z)) st :
  Permutation (held (fold_left place_group gs st)) (held st ++ map fst gs).
Proof.
  revert st. induction gs as [|g gs IH]; intros st; simpl.
  - now rewrite app_nil_r.
  - rewrite IH, held_place_group, <- app_assoc. reflexivity.
Qed.

Lemma placed_close_last_page st :
  placed (close_last_page st) = held st.
Proof.
  unfold close_last_page, held.
  destruct (col1 st) as [|a c1]; destruct (col2 st) as [|b c2];
    cbn [nonempty orb]; try (rewrite placed_snoc; reflexivity).
  now rewrite app_nil_r.
Qed.

Lemma placed_pack_groups (gs : list (A * Z)) :
  Permutation (placed (pack_groups gs)) (map fst gs).
Proof.
  unfold pack_groups. rewrite placed_close_last_page, held_fold_place_group.
  reflexivity.
Qed.

(** The two branches of the source are the one step of the specification. *)
Lemma place_group_greedy_step st g :
  place_group st g = greedy_step st g.
Proof.
  destruct g as [x h]. unfold place_group, greedy_step, candidate, start_new_page.
  destruct (col1_height st <=? col2_height st); cbn [column_height append_to fst snd];
    reflexivity.
Qed.

Lemma fold_place_group_greedy_step (gs : list (A * Z)) st :
  fold_left place_group gs st = fold_left greedy_step gs st.
Proof.
  revert st. induction gs as [|g gs IH]; intros st; simpl; [reflexivity|].
  now rewrite place_group_greedy_step, IH.
Qed.

Lemma place_group_col1_filled st g :
  col1_filled st -> col1_filled (place_group st g).
Proof.
  intros [Hc Hp]. destruct g as [x h]. unfold place_group, start_new_page.
  destruct (col1_height st <=? col2_height st);
    [ destruct (col1_height st + h <=? MAX_HEIGHT_PER_COL)
    | destruct (col2_height st + h <=? MAX_HEIGHT_PER_COL) ];
    split; cbn [pages col1]; auto; try discriminate.
  - destruct (col1 st); discriminate.
  - apply Forall_app; split; auto. constructor; auto.
    unfold empty_page; cbn [fst]. destruct (col1 st); [contradiction|reflexivity].
  - apply Forall_app; split; auto. constructor; auto.
    unfold empty_page; cbn [fst]. destruct (col1 st); [contradiction|reflexivity].
Qed.

Lemma fold_place_group_col1_filled (gs : list (A * Z)) st :
  col1_filled st -> col1_filled (fold_left place_group gs st).
Proof.
  revert st. induction gs as [|g gs IH]; intros st H; simpl; auto.
  apply IH, place_group_col1_filled, H.
Qed.

Lemma pack_groups_first_fits (x : A) (h : Z) (gs : list (A * Z)) :
  h <= MAX_HEIGHT_PER_COL ->
  Forall (fun p => empty_page p = false) (pack_groups ((x, h) :: gs)).
Proof.
  intros Hh. unfold pack_groups.
  change (fold_left place_group ((x, h) :: gs) pack_init)
    with (fold_left place_group gs (place_group pack_init (x, h))).
  assert (H0 : col1_filled (place_group pack_init (x, h))).
  { unfold place_group, pack_init; cbn [col1_height col2_height].
    replace (0 <=? 0) with true by reflexivity. rewrite Z.add_0_l.
    apply Z.leb_le in Hh; rewrite Hh. split; cbn; [discriminate|constructor]. }
  apply (fold_place_group_col1_filled gs) in H0.
  set (sf := fold_left place_group gs (place_group pack_init (x, h))) in *.
  destruct H0 as [Hc Hp]. unfold close_last_page.
  destruct (col1 sf) eqn:E; [contradiction|].
  cbn [nonempty orb]. apply Forall_app; split; auto.
Qed.

Lemma place_group_pages st g :
  exists more, pages (place_group st g) = pages st ++ more.
Proof.
  destruct g as [x h]. unfold place_group, start_new_page.
  destruct (col1_height st <=? col2_height st);
    [ destruct (col1_height st + h <=? MAX_HEIGHT_PER_COL)
    | destruct (col2_height st + h <=? MAX_HEIGHT_PER_COL) ];
    cbn [pages]; eauto using app_nil_r.
Qed.

Lemma fold_place_group_pages (gs : list (A * Z)) st :
  exists more, pages (fold_left place_group gs st) = pages st ++ more.
Proof.
  revert st. induction gs as [|g gs IH]; intros st; simpl.
  - exists []. now rewrite app_nil_r.
  - destruct (IH (place_group st g)) as (m2 & ->).
    destruct (place_group_pages st g) as (m1 & ->).
    exists (m1 ++ m2). now rewrite app_assoc.
Qed.

(** A first group higher than the budget puts an empty page first. *)
Lemma pack_groups_first_oversized (x : A) (h : Z) (gs : list (A * Z)) :
  MAX_HEIGHT_PER_COL < h ->
  exists rest, pack_groups ((x, h) :: gs) = ([], []) :: rest.
Proof.
  intros Hh. unfold pack_groups.
  change (fold_left place_group ((x, h) :: gs) pack_init)
    with (fold_left place_group gs (place_group pack_init (x, h))).
  destruct (fold_place_group_pages gs (place_group pack_init (x, h))) as (more & E).
  assert (E0 : pages (place_group pack_init (x, h)) = [([], [])]).
  { unfold place_group, pack_init; cbn [col1_height col2_height].
    replace (0 <=? 0) with true by reflexivity. rewrite Z.add_0_l.
    apply Z.leb_gt in Hh. rewrite Hh. reflexivity. }
  rewrite E0 in E. unfold close_last_page. rewrite E.
  destruct (_ || _); eexists; reflexivity.
Qed.

End PackingFacts.

Import Py Re Pagination Gen Samples.

Lemma tag_positions_fst {A : Type} (gs : list (A * Z)) :
  map fst (tag_positions gs) = seq 0 (length gs).
Proof.
  unfold tag_positions.
  generalize 0%nat. induction gs as [|g gs IH]; intros n; simpl; [reflexivity|].
  now rewrite IH.
Qed.

Lemma map_r_length {T U : Type} (f : T -> result U) (l : list T) (out : list U) :
  map_r f l = Ok out -> length out = length l.
Proof.
  revert out. induction l as [|x l IH]; intros out; simpl.
  - intros [= <-]. reflexivity.
  - destruct (f x) as [y|e]; simpl; [|discriminate].
    destruct (map_r f l) as [ys|e]; simpl; [|discriminate].
    intros [= <-]. simpl. now rewrite (IH ys).
Qed.

(** C1. Pagination places every group exactly once: the fragments on the
    emitted pages, all columns together, are the input fragments up to
    order, as many as there are groups; tagged by their input positions
    no tag comes twice; no group gives no page.  The same holds of
    [split_experiences_into_pages] whenever the groups render. *)
Theorem pagination_places_every_group_once :
  (forall (A : Type) (all_exp_groups : list (A * Z)),
      Permutation (placed (pack_groups all_exp_groups)) (map fst all_exp_groups)
      /\ length (placed (pack_groups all_exp_groups)) = length all_exp_groups
      /\ NoDup (placed (pack_groups (tag_positions all_exp_groups)))
      /\ pack_groups (@nil (A * Z)) = [])
  /\ (forall now grouped_work anonymize lang,
         match split_experiences_into_pages now grouped_work anonymize lang with
         | Ok pages_data =>
             length (placed pages_data) = length grouped_work
             /\ exists all_exp_groups,
                 map_r (render_and_estimate now anonymize lang) grouped_work
                 = Ok all_exp_groups
                 /\ Permutation (placed pages_data) (map fst all_exp_groups)
         | Raise e =>
             map_r (render_and_estimate now anonymize lang) grouped_work = Raise e
         end)
  /\ (forall now anonymize lang,
         split_experiences_into_pages now [] anonymize lang = Ok []).
Proof.
  split; [|split].
  - intros A gs. repeat split.
    + apply placed_pack_groups.
    + rewrite (Permutation_length (placed_pack_groups gs)). apply length_map.
    + apply (Permutation_NoDup (l := seq 0 (length gs))); [|apply seq_NoDup].
      symmetry. rewrite <- tag_positions_fst. apply placed_pack_groups.
  - intros now gw an lang. unfold split_experiences_into_pages.
    destruct (map_r (render_and_estimate now an lang) gw) as [gs|e] eqn:E; simpl;
      [|reflexivity].
    split.
    + rewrite (Permutation_length (placed_pack_groups gs)), length_map.
      now apply map_r_length in E.
    + exists gs. split; [reflexivity|apply placed_pack_groups].
  - reflexivity.
Qed.

(** C3. The loop of the source is the greedy single pass of the
    specification: one candidate column, the shorter one with ties to
    column 1; the group is appended there when it fits the budget, else the
    current pair is emitted and the group opens a new page in column 1. *)
Theorem pack_groups_is_greedy_pass :
  forall (A : Type),
    (forall (st : pack_state A) (g : A * Z), place_group st g = greedy_step st g)
    /\ (forall (all_exp_groups : list (A * Z)),
           pack_groups all_exp_groups = greedy_pack all_exp_groups).
Proof.
  intros A. split.
  - apply place_group_greedy_step.
  - intros gs. unfold pack_groups, greedy_pack.
    now rewrite fold_place_group_greedy_step.
Qed.

(** C2. A single group higher than the budget does not give one page: the
    empty pair in progress is emitted first, then the page of the group. *)
Theorem oversized_group_emits_empty_page :
  (forall (A : Type) (x : A), pack_groups [(x, 280)] = [([], []); ([x], [])])
  /\ exists exp_group_html,
      split_experiences_into_pages today eight_engagements false Fr
      = Ok [([], []); ([exp_group_html], [])].
Proof.
  split; [reflexivity|].
  eexists. vm_compute. reflexivity.
Qed.

(** ** Dates and durations *)

Lemma parse_date_empty : parse_date EmptyString = None.
Proof. reflexivity. Qed.

Lemma parse_date_truthy (s : string) (d : Z * Z) :
  parse_date s = Some d -> truthy s = true.
Proof. destruct s; [discriminate|reflexivity]. Qed.

(** The formatter gives back a text that is set but does not parse. *)
Lemma format_date_unparseable (date_str : string) (lang : language) :
  date_str <> EmptyString -> parse_date date_str = None ->
  format_date date_str lang = date_str.
Proof.
  intros Hne Hp. unfold format_date. rewrite Hp.
  destruct date_str; [contradiction|reflexivity].
Qed.

(** The duration is empty when the start does not parse, whatever the end. *)
Lemma calculate_duration_unparseable_start now (start end_ : string) (lang : language) :
  parse_date start = None -> calculate_duration now start end_ lang = Ok EmptyString.
Proof. intros Hp. unfold calculate_duration. now rewrite Hp. Qed.

(** The duration raises exactly when the start parses and the end is set
    but does not parse. *)
Lemma calculate_duration_raises now (start end_ : string) (lang : language) (e : exn) :
  calculate_duration now start end_ lang = Raise e <->
  e = AttributeError /\ parse_date start <> None
  /\ truthy end_ = true /\ parse_date end_ = None.
Proof.
  unfold calculate_duration.
  destruct (parse_date start) as [[sy sm]|].
  - destruct (truthy end_) eqn:Ht.
    + destruct (parse_date end_) as [[ey em]|].
      * split; [|intros (_ & _ & _ & [=])].
        destruct ((_ / 12 =? 0)%Z); [discriminate|].
        destruct ((_ mod 12 =? 0)%Z); discriminate.
      * split; [intros [= <-]; repeat split; discriminate|intros (-> & _); reflexivity].
    + destruct now as [ey em]. split; [|intros (_ & _ & [=] & _)].
      destruct ((_ / 12 =? 0)%Z); [discriminate|].
      destruct ((_ mod 12 =? 0)%Z); discriminate.
  - split; [discriminate|intros (_ & H & _); now contradiction H].
Qed.

Lemma between_digit_value (lo hi : N) (c : ascii) :
  between lo hi c = true -> Z.of_N lo - 48 <= digit_value c <= Z.of_N hi - 48.
Proof.
  unfold between, digit_value. intros H. apply andb_true_iff in H.
  destruct H as [H1 H2]. apply N.leb_le in H1, H2. lia.
Qed.

Lemma month_prefix_range (s rest : string) (month : Z) :
  month_prefix s = Some (month, rest) -> 1 <= month <= 12.
Proof.
  unfold month_prefix. destruct s as [|c t]; [discriminate|].
  assert (Hone : (if between 49 57 c then Some (digit_value c, t) else None)
                 = Some (month, rest) -> 1 <= month <= 12).
  { destruct (between 49 57 c) eqn:E; [|discriminate]. intros [= <- _].
    apply between_digit_value in E. cbn in E. lia. }
  destruct t as [|d r]; [exact Hone|].
  destruct (Ascii.eqb c "1" && between 48 50 d) eqn:E1.
  - clear Hone. intros H. apply andb_true_iff in E1. destruct E1 as [_ E1].
    apply between_digit_value in E1. cbn in E1.
    assert (Hm : month = 10 + digit_value d) by congruence. lia.
  - destruct (Ascii.eqb c "0" && between 49 57 d) eqn:E2; [|exact Hone].
    clear Hone. intros H. apply andb_true_iff in E2. destruct E2 as [_ E2].
    apply between_digit_value in E2. cbn in E2.
    assert (Hm : month = digit_value d) by congruence. lia.
Qed.

(** A date that parses has a year from 1 to 9999 and a month from 1 to 12. *)
Lemma parse_date_range (date_str : string) (year month : Z) :
  parse_date date_str = Some (year, month) ->
  1 <= year <= 9999 /\ 1 <= month <= 12.
Proof.
  unfold parse_date. destruct (truthy date_str); [|discriminate]. cbn [negb].
  unfold strptime_Y_m.
  destruct date_str as [|a [|b [|c [|d [|dash rest]]]]]; try discriminate.
  destruct (is_digit a) eqn:Ea; [|discriminate].
  destruct (is_digit b) eqn:Eb; [|discriminate].
  destruct (is_digit c) eqn:Ec; [|discriminate].
  destruct (is_digit d) eqn:Ed; [|discriminate].
  cbn [andb]. destruct (Ascii.eqb dash "-"); [|discriminate].
  destruct (month_prefix rest) as [[m [|x r]]|] eqn:Em; try discriminate.
  destruct (1 <=? _) eqn:Ey; [|discriminate]. intros H.
  apply Z.leb_le in Ey. apply month_prefix_range in Em.
  apply between_digit_value in Ea, Eb, Ec, Ed. cbn in Ea, Eb, Ec, Ed.
  assert (Hy : year = 1000 * digit_value a + 100 * digit_value b
                      + 10 * digit_value c + digit_value d) by congruence.
  assert (Hm : month = m) by congruence. lia.
Qed.

(** C8. For two dates that parse, the duration counts the months as the
    difference of the years times twelve plus the difference of the months,
    and shows the remainder alone when there is no full year, the years
    alone (singular for one) when the remainder is zero, and both
    otherwise; with the three durations the specification gives. *)
Theorem duration_of_parseable_dates :
  (forall now (start end_ : string) (lang : language) start_year start_month end_year end_month,
      parse_date start = Some (start_year, start_month) ->
      parse_date end_ = Some (end_year, end_month) ->
      let months := (end_year - start_year) * 12 + (end_month - start_month) in
      let years := months / 12 in
      let remaining_months := months mod 12 in
      let lbl := LABELS lang in
      let year_word := if years =? 1 then l_year lbl else l_years lbl in
      0 <= remaining_months < 12
      /\ calculate_duration now start end_ lang =
         Ok (if years =? 0 then
               (str_of_int remaining_months ++ " " ++ l_months lbl)%string
             else if remaining_months =? 0 then
               (str_of_int years ++ " " ++ year_word)%string
             else
               (str_of_int years ++ " " ++ year_word ++ " "
                ++ str_of_int remaining_months ++ " " ++ l_months lbl)%string))
  /\ (forall now,
         calculate_duration now "2020-01" "2021-07" En = Ok "1 year 6 months"%string
         /\ calculate_duration now "2020-01" "2021-01" En = Ok "1 year"%string
         /\ calculate_duration now "2020-01" "2020-04" En = Ok "3 months"%string).
Proof.
  split.
  - intros now start end_ lang sy sm ey em Hs He. cbv zeta. split.
    + apply Z.mod_pos_bound. lia.
    + unfold calculate_duration. rewrite Hs, He, (parse_date_truthy _ _ He).
      destruct (_ / 12 =? 0); [reflexivity|].
      destruct (_ mod 12 =? 0); reflexivity.
  - intros now. repeat split.
Qed.

Lemma duration_of_parseable_dates_witness :
  parse_date "2015-01" = Some (2015, 1)
  /\ parse_date "2017-06" = Some (2017, 6)
  /\ calculate_duration today "2015-01" "2017-06" Fr = Ok "2 ans 5 mois"%string.
Proof.
  split; [reflexivity|]. split; [reflexivity|].
  exact (proj2 (proj1 duration_of_parseable_dates today "2015-01"%string "2017-06"%string
                      Fr 2015 1 2017 6 eq_refl eq_refl)).
Defined.

(** C9. An end date that is set but does not parse is not recovered: with a
    start that parses, the duration raises on the year of [None]. *)
Theorem unparseable_end_date_raises :
  parse_date "2021" = None
  /\ format_date "2021" En = "2021"%string
  /\ calculate_duration today "2021" "2020-01" En = Ok EmptyString
  /\ calculate_duration today "2020-01" "2021" En = Raise AttributeError.
Proof. repeat split. Qed.

(** ** Anonymization *)

Import Notions.

(** A match never leaves more than it was given, and leaves less when the
    pattern has an item that reads a character. *)
Lemma match_items_shrinks (icase : bool) (items : pattern) :
  forall prev (s : string) (g : marks) (s' : string) (g' : marks),
    match_items icase items prev s g = Some (s', g') ->
    (String.length s' + (if consuming items then 1 else 0) <= String.length s)%nat.
Proof.
  induction items as [|i rest IH]; intros prev s g s' g' H.
  - injection H as <- _. cbn. lia.
  - assert (Hstar : forall cc prev (s : string),
               (fix star (prev : option ascii) (s : string) {struct s}
                  : option (string * marks) :=
                  match s with
                  | String d t =>
                      if cclass_matches icase cc d then
                        match star (Some d) t with
                        | Some r => Some r
                        | None => match_items icase rest prev s g
                        end
                      else match_items icase rest prev s g
                  | EmptyString => match_items icase rest prev s g
                  end) prev s = Some (s', g') ->
               (String.length s' + (if consuming rest then 1 else 0)
                <= String.length s)%nat).
    { intros cc prev0 s0. revert prev0.
      induction s0 as [|d t IHs]; intros prev0 Hs; [now apply IH in Hs|].
      destruct (cclass_matches icase cc d); [|now apply IH in Hs].
      match type of Hs with
      | match ?X with _ => _ end = _ => destruct X as [r|] eqn:E
      end; [|now apply IH in Hs].
      injection Hs as ->. apply IHs in E. cbn [String.length]. lia. }
    destruct i; cbn [match_items] in H; unfold consuming; cbn [existsb orb];
      fold (consuming rest).
    + destruct s as [|d t]; [discriminate|].
      destruct (chr_eq icase c d); [|discriminate].
      apply IH in H. cbn [String.length]. destruct (consuming rest); lia.
    + destruct s as [|d t]; [discriminate|].
      destruct (cclass_matches icase cc d); [|discriminate].
      apply IH in H. cbn [String.length]. destruct (consuming rest); lia.
    + destruct s as [|d t]; [discriminate|].
      destruct (cclass_matches icase cc d); [|discriminate].
      apply Hstar in H. cbn [String.length]. destruct (consuming rest); lia.
    + now apply Hstar in H.
    + destruct (at_boundary prev s); [|discriminate]. now apply IH in H.
    + now apply IH in H.
    + now apply IH in H.
Qed.

(** Every rule reads at least one character: no rule matches the empty
    text. *)
Lemma rules_read_a_character :
  Forall (fun rule : pattern * template * string => consuming (fst (fst rule)) = true)
         ANONYMIZATION_RULES
  /\ consuming parenthetical = true /\ consuming parenthesized = true.
Proof.
  split; [|split; reflexivity].
  unfold ANONYMIZATION_RULES. repeat (apply Forall_cons; [reflexivity|]).
  apply Forall_nil.
Qed.

(** The catch-all rule keeps the word it captures, and that word can be the
    head of a new match: a second pass rewrites the text again. *)
Lemma anonymize_text_not_idempotent :
  anonymize_text "Groupe Groupe X" = "Client Groupe X"%string
  /\ anonymize_text (anonymize_text "Groupe Groupe X") = "Client Client X"%string
  /\ anonymize_text (anonymize_text "Groupe Groupe X") <> anonymize_text "Groupe Groupe X".
Proof.
  split; [vm_compute; reflexivity|]. split; [vm_compute; reflexivity|].
  vm_compute. discriminate.
Qed.

(** C5, as the code has it. The replacement text of every rule without a
    group reference is left unchanged by the whole rule list, and on the
    sample text of every rule a second pass changes nothing. *)
Theorem anonymize_text_fixes_replacements :
  Forall (fun rule : pattern * template * string =>
            match snd (fst rule) with
            | [Text replacement] => anonymize_text replacement = replacement
            | _ => True
            end
            /\ anonymize_text (anonymize_text (snd rule)) = anonymize_text (snd rule))
         ANONYMIZATION_RULES.
Proof.
  unfold ANONYMIZATION_RULES.
  repeat (apply Forall_cons; [split; vm_compute; auto|]).
  apply Forall_nil.
Qed.

(** ** Grouping by company *)

Lemma match_parenthetical prev (s : string) (g : marks) :
  match_items false parenthetical prev s g = paren_blanks g prev s.
Proof. reflexivity. Qed.

Lemma mem_In (x : string) (l : list string) : mem x l = true <-> In x l.
Proof.
  unfold mem. rewrite existsb_exists. split.
  - intros (y & Hy & E). apply String.eqb_eq in E. now subst.
  - intros H. exists x. split; [assumption|apply String.eqb_refl].
Qed.

Lemma mem_app (x : string) (l1 l2 : list string) :
  mem x (l1 ++ l2) = mem x l1 || mem x l2.
Proof. unfold mem. apply existsb_app. Qed.

Lemma mem_cons (x y : string) (l : list string) :
  mem x (y :: l) = String.eqb x y || mem x l.
Proof. reflexivity. Qed.

Lemma fromkeys_from_snoc (seen l : list string) (x : string) :
  fromkeys_from seen (l ++ [x]) =
  if mem x seen || mem x l then fromkeys_from seen l
  else fromkeys_from seen l ++ [x].
Proof.
  revert seen. induction l as [|y l IH]; intros seen; cbn [app fromkeys_from].
  - replace (mem x []) with false by reflexivity. rewrite orb_false_r.
    destruct (mem x seen); reflexivity.
  - rewrite !IH, !mem_cons. destruct (mem y seen) eqn:Ey.
    + destruct (String.eqb_spec x y) as [->|_].
      * rewrite Ey. reflexivity.
      * reflexivity.
    + destruct (String.eqb x y), (mem x seen), (mem x l); reflexivity.
Qed.

Lemma fromkeys_snoc (l : list string) (x : string) :
  fromkeys (l ++ [x]) = if mem x l then fromkeys l else fromkeys l ++ [x].
Proof. unfold fromkeys. now rewrite fromkeys_from_snoc. Qed.

Lemma fromkeys_In (l : list string) (x : string) : In x (fromkeys l) <-> In x l.
Proof.
  induction l as [|y l IH] using rev_ind; [reflexivity|].
  rewrite fromkeys_snoc. destruct (mem y l) eqn:E.
  - rewrite IH, in_app_iff. apply mem_In in E. simpl. intuition (subst; auto).
  - rewrite !in_app_iff, IH. reflexivity.
Qed.

Lemma fromkeys_NoDup (l : list string) : NoDup (fromkeys l).
Proof.
  induction l as [|y l IH] using rev_ind; [constructor|].
  rewrite fromkeys_snoc. destruct (mem y l) eqn:E; [assumption|].
  apply NoDup_app; [assumption|repeat constructor; intros []|].
  intros x Hx [Hy|[]]. subst x.
  apply (proj1 (fromkeys_In _ _)) in Hx. apply (proj2 (mem_In _ _)) in Hx. congruence.
Qed.

Lemma first_index_In (x : string) (l : list string) :
  In x l -> (first_index x l < length l)%nat.
Proof.
  induction l as [|y l IH]; simpl; [intros []|].
  destruct (String.eqb_spec y x); [lia|].
  intros [->|H]; [contradiction|]. apply IH in H. lia.
Qed.

Lemma first_index_app (x : string) (l1 l2 : list string) :
  In x l1 -> first_index x (l1 ++ l2) = first_index x l1.
Proof.
  induction l1 as [|y l IH]; simpl; [intros []|].
  destruct (String.eqb_spec y x); [reflexivity|].
  intros [->|H]; [contradiction|]. now rewrite IH.
Qed.

Lemma first_index_fresh (x : string) (l : list string) :
  ~ In x l -> first_index x (l ++ [x]) = length l.
Proof.
  induction l as [|y l IH]; simpl.
  - now rewrite String.eqb_refl.
  - intros H. destruct (String.eqb_spec y x) as [->|_]; [tauto|].
    rewrite IH; tauto.
Qed.

Lemma StronglySorted_snoc {T : Type} (R : T -> T -> Prop) (l : list T) (x : T) :
  StronglySorted R l -> Forall (fun a => R a x) l -> StronglySorted R (l ++ [x]).
Proof.
  induction 1 as [|a l Hl IH Ha]; intros Hx; simpl.
  - repeat constructor.
  - inversion Hx; subst. constructor; [now apply IH|].
    apply Forall_app. split; [assumption|now repeat constructor].
Qed.

Lemma StronglySorted_ext_in {T : Type} (R R' : T -> T -> Prop) (l : list T) :
  StronglySorted R l ->
  (forall a b, In a l -> In b l -> R a b -> R' a b) ->
  StronglySorted R' l.
Proof.
  induction 1 as [|a l Hl IH Ha]; intros Himp; constructor.
  - apply IH. intros b c Hb Hc. apply Himp; now right.
  - rewrite Forall_forall in *. intros b Hb.
    apply Himp; [now left|now right|now apply Ha].
Qed.

(** The keys come in the order of their first occurrences. *)
Lemma fromkeys_first_occurrence_order (l : list string) :
  StronglySorted (fun a b => (first_index a l < first_index b l)%nat) (fromkeys l).
Proof.
  induction l as [|y l IH] using rev_ind; [constructor|].
  assert (Hmono : StronglySorted
            (fun a b => (first_index a (l ++ [y]) < first_index b (l ++ [y]))%nat)
            (fromkeys l)).
  { apply (StronglySorted_ext_in _ _ _ IH). intros a b Ha Hb.
    apply (proj1 (fromkeys_In _ _)) in Ha. apply (proj1 (fromkeys_In _ _)) in Hb.
    rewrite !first_index_app by assumption. trivial. }
  rewrite fromkeys_snoc. destruct (mem y l) eqn:E; [assumption|].
  assert (Hy : ~ In y l) by (rewrite <- mem_In; congruence).
  apply StronglySorted_snoc; [assumption|].
  apply Forall_forall. intros a Ha. apply (proj1 (fromkeys_In _ _)) in Ha.
  rewrite first_index_app, first_index_fresh by assumption.
  now apply first_index_In.
Qed.

Lemma total_size_add (k : string) (w : work_entry) (grouped : groups) :
  total_size (add_to_group k w grouped) = S (total_size grouped).
Proof.
  unfold total_size. induction grouped as [|[k' ws] rest IH]; simpl; [reflexivity|].
  destruct (String.eqb k' k); simpl.
  - rewrite length_app. simpl. lia.
  - rewrite IH. lia.
Qed.

Lemma group_snoc (work_list : list work_entry) (w : work_entry) :
  group_experiences_by_company (work_list ++ [w]) =
  add_to_group (get_company_name w) w (group_experiences_by_company work_list).
Proof. unfold group_experiences_by_company. now rewrite fold_left_app. Qed.

Lemma total_size_group (work_list : list work_entry) :
  total_size (group_experiences_by_company work_list) = length work_list.
Proof.
  induction work_list as [|w ws IH] using rev_ind; [reflexivity|].
  rewrite group_snoc, total_size_add, IH, length_app. simpl. lia.
Qed.

Lemma entries_of_snoc (k : string) (ws : list work_entry) (w : work_entry) :
  entries_of k (ws ++ [w]) =
  entries_of k ws ++ (if String.eqb (get_company_name w) k then [w] else []).
Proof. unfold entries_of. rewrite filter_app. reflexivity. Qed.

Lemma entries_of_absent (k : string) (ws : list work_entry) :
  ~ In k (map get_company_name ws) -> entries_of k ws = [].
Proof.
  unfold entries_of. induction ws as [|w ws IH]; simpl; [reflexivity|].
  intros H. destruct (String.eqb_spec (get_company_name w) k) as [E|_]; [tauto|].
  apply IH. tauto.
Qed.

Lemma add_to_group_fresh (k : string) (w : work_entry)
      (F : string -> list work_entry) (keys : list string) :
  ~ In k keys ->
  add_to_group k w (map (fun k' => (k', F k')) keys)
  = map (fun k' => (k', F k')) keys ++ [(k, [w])].
Proof.
  induction keys as [|k' keys IH]; simpl; [reflexivity|].
  intros H. destruct (String.eqb_spec k' k) as [E|_]; [tauto|].
  rewrite IH; tauto.
Qed.

Lemma add_to_group_present (k : string) (w : work_entry)
      (F : string -> list work_entry) (keys : list string) :
  NoDup keys -> In k keys ->
  add_to_group k w (map (fun k' => (k', F k')) keys)
  = map (fun k' => (k', if String.eqb k' k then F k' ++ [w] else F k')) keys.
Proof.
  induction keys as [|k' keys IH]; simpl; [intros _ []|].
  intros Hnd Hin. apply NoDup_cons_iff in Hnd. destruct Hnd as [Hk' Hnd].
  destruct (String.eqb_spec k' k) as [->|Hne].
  - f_equal. apply map_ext_in. intros a Ha.
    destruct (String.eqb_spec a k) as [->|_]; [contradiction|reflexivity].
  - f_equal. apply IH; [assumption|]. destruct Hin; [contradiction|assumption].
Qed.

(** The groups are the companies in the order of their first entries, each
    with its entries in source order. *)
Lemma group_characterization (work_list : list work_entry) :
  group_experiences_by_company work_list
  = map (fun company => (company, entries_of company work_list))
        (fromkeys (map get_company_name work_list)).
Proof.
  induction work_list as [|w ws IH] using rev_ind; [reflexivity|].
  rewrite group_snoc, IH, map_app. cbn [map]. rewrite fromkeys_snoc.
  destruct (mem (get_company_name w) (map get_company_name ws)) eqn:E.
  - rewrite add_to_group_present.
    + apply map_ext. intros k. rewrite entries_of_snoc, String.eqb_sym.
      destruct (String.eqb (get_company_name w) k); [reflexivity|now rewrite app_nil_r].
    + apply fromkeys_NoDup.
    + apply fromkeys_In, mem_In, E.
  - assert (Hw : ~ In (get_company_name w) (map get_company_name ws))
      by (rewrite <- mem_In; congruence).
    rewrite add_to_group_fresh by (rewrite fromkeys_In; exact Hw).
    rewrite map_app. cbn [map]. f_equal.
    + apply map_ext_in. intros k Hk. rewrite entries_of_snoc.
      destruct (String.eqb_spec (get_company_name w) k) as [<-|_];
        [|now rewrite app_nil_r].
      apply (proj1 (fromkeys_In _ _)) in Hk. contradiction.
    + rewrite entries_of_snoc, String.eqb_refl, entries_of_absent by assumption.
      reflexivity.
Qed.

(** *** The normalized name *)

Lemma lstrip_head (s : string) :
  match head_opt (lstrip s) with Some c => is_space c = false | None => True end.
Proof.
  induction s as [|c t IH]; simpl; [exact I|].
  destruct (is_space c) eqn:E; [exact IH|exact E].
Qed.

Lemma rstrip_last (s : string) :
  match last_char (rstrip s) with Some c => is_space c = false | None => True end.
Proof.
  induction s as [|c t IH]; simpl; [exact I|].
  destruct (rstrip t) as [|d u].
  - destruct (is_space c) eqn:E; [exact I|exact E].
  - exact IH.
Qed.

Lemma rstrip_head (c : ascii) (t : string) :
  is_space c = false -> head_opt (rstrip (String c t)) = Some c.
Proof.
  intros E. simpl. destruct (rstrip t); [now rewrite E|reflexivity].
Qed.

Lemma strip_trimmed (s : string) : trimmed (strip s) = true.
Proof.
  unfold trimmed, strip. pose proof (lstrip_head s) as Hh.
  pose proof (rstrip_last (lstrip s)) as Hl.
  destruct (lstrip s) as [|c t]; [reflexivity|].
  cbn [head_opt] in Hh. rewrite (rstrip_head c t Hh), Hh.
  destruct (last_char (rstrip (String c t))); [now rewrite Hl|reflexivity].
Qed.

(** Stripping removes blanks only. *)
Lemma strip_removes_blanks (s : string) :
  exists before after : string,
    s = (before ++ strip s ++ after)%string
    /\ all_blank before = true /\ all_blank after = true.
Proof.
  assert (Hl : exists before, s = (before ++ lstrip s)%string /\ all_blank before = true).
  { induction s as [|c t (b & Hb & Hs)]; [now exists EmptyString|].
    simpl. destruct (is_space c) eqn:E.
    - exists (String c b). simpl. rewrite E, Hs. split; [now f_equal|reflexivity].
    - now exists EmptyString. }
  assert (Hr : forall u, exists after, u = (rstrip u ++ after)%string
                                       /\ all_blank after = true).
  { induction u as [|c t (a & Ha & Hs)]; [now exists EmptyString|].
    simpl. destruct (rstrip t) as [|d v]; simpl in Ha.
    - subst a. destruct (is_space c) eqn:E.
      + exists (String c t). simpl. now rewrite E, Hs.
      + exists t. now split.
    - exists a. simpl. split; [now f_equal|assumption]. }
  destruct Hl as (b & Hb & Hbs). destruct (Hr (lstrip s)) as (a & Ha & Has).
  exists b, a. unfold strip. rewrite <- Ha. now repeat split.
Qed.

Lemma paren_body_cons (g : marks) prev (d : ascii) (t : string) :
  paren_body g prev (String d t) =
  if Ascii.eqb d ")" then Some (t, g) else paren_body g (Some d) t.
Proof.
  cbn -[Ascii.eqb]. rewrite (Ascii.eqb_sym ")" d), orb_false_r.
  destruct (Ascii.eqb d ")"); cbn; [reflexivity|].
  now destruct (paren_body g (Some d) t).
Qed.

Lemma paren_open_cons (g : marks) prev (d : ascii) (t : string) :
  paren_open g prev (String d t) =
  if Ascii.eqb d "(" then paren_body g (Some d) t else None.
Proof. cbn -[Ascii.eqb]. now rewrite (Ascii.eqb_sym "(" d). Qed.

Lemma paren_blanks_cons (g : marks) prev (d : ascii) (t : string) :
  paren_blanks g prev (String d t) =
  if is_space d then
    match paren_blanks g (Some d) t with
    | Some r => Some r
    | None => paren_open g prev (String d t)
    end
  else paren_open g prev (String d t).
Proof. reflexivity. Qed.

Lemma paren_body_none (g : marks) prev (s : string) :
  paren_body g prev s = None -> has_char ")" s = false.
Proof.
  revert prev. induction s as [|d t IH]; intros prev; [reflexivity|].
  rewrite paren_body_cons. cbn [has_char].
  destruct (Ascii.eqb d ")"); [discriminate|]. apply IH.
Qed.

Lemma paren_body_shrinks (g : marks) prev (s : string) r :
  paren_body g prev s = Some r -> (String.length (fst r) < String.length s)%nat.
Proof.
  revert prev. induction s as [|d t IH]; intros prev; [discriminate|].
  rewrite paren_body_cons. cbn [String.length].
  destruct (Ascii.eqb d ")").
  - intros [= <-]. simpl. lia.
  - intros H. apply IH in H. lia.
Qed.

Lemma paren_open_shrinks (g : marks) prev (s : string) r :
  paren_open g prev s = Some r -> (String.length (fst r) < String.length s)%nat.
Proof.
  destruct s as [|d t]; [discriminate|].
  rewrite paren_open_cons. cbn [String.length].
  destruct (Ascii.eqb d "("); [|discriminate].
  intros H. apply paren_body_shrinks in H. lia.
Qed.

Lemma paren_blanks_shrinks (g : marks) prev (s : string) r :
  paren_blanks g prev s = Some r -> (String.length (fst r) < String.length s)%nat.
Proof.
  revert prev. induction s as [|d t IH]; intros prev; [discriminate|].
  rewrite paren_blanks_cons. destruct (is_space d).
  - destruct (paren_blanks g (Some d) t) eqn:E.
    + intros [= <-]. apply IH in E. cbn [String.length]. lia.
    + apply paren_open_shrinks.
  - apply paren_open_shrinks.
Qed.

Lemma paren_blanks_at_open (g : marks) prev (t : string) :
  paren_blanks g prev (String "(" t) = paren_body g (Some "("%char) t.
Proof. reflexivity. Qed.

Lemma paren_blanks_without_open (g : marks) prev (s : string) :
  has_char "(" s = false -> paren_blanks g prev s = None.
Proof.
  revert prev. induction s as [|d t IH]; intros prev; [reflexivity|].
  cbn [has_char]. intros H. apply orb_false_elim in H. destruct H as [Hd Ht].
  rewrite paren_blanks_cons, paren_open_cons, Hd, IH by assumption.
  now destruct (is_space d).
Qed.

Lemma strip_parens_cons prev (c : ascii) (t : string) :
  strip_parens prev (String c t) 0 =
  match paren_blanks no_marks prev (String c t) with
  | Some (s', _) =>
      match (String.length (String c t) - String.length s')%nat with
      | O => String c (strip_parens (Some c) t 0)
      | S k => strip_parens (Some c) t k
      end
  | None => String c (strip_parens (Some c) t 0)
  end.
Proof. reflexivity. Qed.

Lemma strip_parens_skip prev (c : ascii) (t : string) (k : nat) :
  strip_parens prev (String c t) (S k) = strip_parens (Some c) t k.
Proof. reflexivity. Qed.

Lemma strip_parens_keeps_no_close prev (s : string) (skip : nat) :
  has_char ")" s = false -> has_char ")" (strip_parens prev s skip) = false.
Proof.
  revert prev skip. induction s as [|c t IH]; intros prev skip; [reflexivity|].
  cbn [has_char]. intros H. apply orb_false_elim in H. destruct H as [Hc Ht].
  destruct skip as [|k]; [|rewrite strip_parens_skip; now apply IH].
  rewrite strip_parens_cons.
  destruct (paren_blanks no_marks prev (String c t)) as [[s' g]|].
  - destruct (String.length (String c t) - String.length s')%nat.
    + cbn [has_char]. now rewrite Hc, IH.
    + now apply IH.
  - cbn [has_char]. now rewrite Hc, IH.
Qed.

(** What is left of a name has no parenthesis that opens and closes. *)
Lemma strip_parens_paren_free prev (s : string) (skip : nat) :
  open_then_close (strip_parens prev s skip) = false.
Proof.
  revert prev skip. induction s as [|c t IH]; intros prev skip; [reflexivity|].
  destruct skip as [|k]; [|rewrite strip_parens_skip; apply IH].
  rewrite strip_parens_cons.
  destruct (paren_blanks no_marks prev (String c t)) as [[s' g]|] eqn:E.
  - apply paren_blanks_shrinks in E. cbn [fst] in E.
    destruct (String.length (String c t) - String.length s')%nat eqn:En; [lia|].
    apply IH.
  - cbn [open_then_close]. rewrite IH, orb_false_r.
    destruct (Ascii.eqb_spec c "(") as [->|_]; [|reflexivity].
    rewrite paren_blanks_at_open in E. apply paren_body_none in E.
    cbn [andb]. now apply strip_parens_keeps_no_close.
Qed.

Lemma strip_parens_without_open prev (s : string) :
  has_char "(" s = false -> strip_parens prev s 0 = s.
Proof.
  revert prev. induction s as [|c t IH]; intros prev; [reflexivity|].
  intros H. rewrite strip_parens_cons, paren_blanks_without_open by assumption.
  cbn [has_char] in H. apply orb_false_elim in H. destruct H as [_ Ht].
  now rewrite IH.
Qed.

Lemma open_then_close_tail (c : ascii) (t : string) :
  open_then_close (String c t) = false -> open_then_close t = false.
Proof. cbn [open_then_close]. intros H. now apply orb_false_elim in H. Qed.

Lemma open_then_close_lstrip (s : string) :
  open_then_close s = false -> open_then_close (lstrip s) = false.
Proof.
  induction s as [|c t IH]; [reflexivity|]. intros H. cbn [lstrip].
  destruct (is_space c); [|exact H]. apply IH. now apply open_then_close_tail in H.
Qed.

Lemma has_char_rstrip (c : ascii) (s : string) :
  has_char c s = false -> has_char c (rstrip s) = false.
Proof.
  induction s as [|d t IH]; [reflexivity|]. cbn [has_char rstrip].
  intros H. apply orb_false_elim in H. destruct H as [Hd Ht].
  specialize (IH Ht). destruct (rstrip t) as [|e u].
  - destruct (is_space d); [reflexivity|]. cbn. now rewrite Hd.
  - cbn [has_char] in *. now rewrite Hd, IH.
Qed.

Lemma open_then_close_rstrip (s : string) :
  open_then_close s = false -> open_then_close (rstrip s) = false.
Proof.
  induction s as [|c t IH]; [reflexivity|]. cbn [open_then_close rstrip].
  intros H. apply orb_false_elim in H. destruct H as [Hc Ht].
  specialize (IH Ht).
  assert (Hr : (Ascii.eqb c "(" && has_char ")" (rstrip t)) = false).
  { destruct (Ascii.eqb c "("); [|reflexivity]. cbn [andb] in *.
    now apply has_char_rstrip. }
  destruct (rstrip t) as [|e u].
  - destruct (is_space c); [reflexivity|]. cbn. now rewrite andb_false_r.
  - cbn [open_then_close] in *. now rewrite Hr, IH.
Qed.

Lemma get_company_name_paren_free (w : work_entry) :
  open_then_close (get_company_name w) = false.
Proof.
  unfold get_company_name, strip, Re.sub.
  apply open_then_close_rstrip, open_then_close_lstrip.
  apply (strip_parens_paren_free None).
Qed.

Lemma get_company_name_plain (w : work_entry) :
  has_char "(" (get_or_empty (w_name w)) = false ->
  get_company_name w = strip (get_or_empty (w_name w)).
Proof.
  intros H. unfold get_company_name, Re.sub.
  change (sub_from false parenthetical [] None (get_or_empty (w_name w)) 0)
    with (strip_parens None (get_or_empty (w_name w)) 0).
  now rewrite (strip_parens_without_open None _ H).
Qed.

(** *** What the normalization removes *)

Import Further.

Lemma append_assoc (a b c : string) : ((a ++ b) ++ c = a ++ (b ++ c))%string.
Proof. induction a as [|x a IH]; [reflexivity|]. cbn. now rewrite IH. Qed.

Lemma length_append (a b : string) :
  String.length (a ++ b) = (String.length a + String.length b)%nat.
Proof. induction a as [|c a IH]; [reflexivity|]. cbn. now rewrite IH. Qed.

Lemma has_char_app (c : ascii) (a b : string) :
  has_char c (a ++ b) = has_char c a || has_char c b.
Proof.
  induction a as [|d a IH]; [reflexivity|]. cbn [String.append has_char].
  now rewrite IH, orb_assoc.
Qed.

Lemma paren_body_closes (g : marks) prev (m rest : string) :
  has_char ")" m = false -> paren_body g prev (m ++ String ")" rest) = Some (rest, g).
Proof.
  revert prev. induction m as [|d m IH]; intros prev H.
  - cbn [String.append]. now rewrite paren_body_cons.
  - cbn [has_char] in H. apply orb_false_elim in H. destruct H as [Hd Hm].
    cbn [String.append]. rewrite paren_body_cons, Hd. now apply IH.
Qed.

Lemma paren_blanks_match (g : marks) prev (b m rest : string) :
  all_blank b = true -> has_char ")" m = false ->
  paren_blanks g prev (b ++ String "(" (m ++ String ")" rest)) = Some (rest, g).
Proof.
  intros Hb Hm. revert prev. induction b as [|d b IH]; intros prev.
  - cbn [String.append]. rewrite paren_blanks_at_open. now apply paren_body_closes.
  - cbn [all_blank] in Hb. apply andb_true_iff in Hb. destruct Hb as [Hd Hb].
    cbn [String.append]. rewrite paren_blanks_cons, Hd, (IH Hb). reflexivity.
Qed.

Lemma paren_blanks_blocked (g : marks) prev (u tail : string) :
  has_char "(" u = false -> all_blank u = false ->
  paren_blanks g prev (u ++ tail) = None.
Proof.
  revert prev. induction u as [|c u IH]; intros prev Hu Hb; [discriminate|].
  cbn [has_char] in Hu. apply orb_false_elim in Hu. destruct Hu as [Hc Hu].
  cbn [all_blank] in Hb. cbn [String.append].
  rewrite paren_blanks_cons, paren_open_cons, Hc.
  destruct (is_space c); [|reflexivity].
  cbn [andb] in Hb. now rewrite (IH _ Hu Hb).
Qed.

Lemma last_not_blank (c : ascii) (u : string) :
  match last_char (String c u) with Some d => is_space d = false | None => True end ->
  all_blank (String c u) = false.
Proof.
  revert c. induction u as [|d u IH]; intros c.
  - cbn. now intros ->.
  - intros H. change (is_space c && all_blank (String d u) = false).
    rewrite (IH d H). apply andb_false_r.
Qed.

Lemma paren_body_without_close (g : marks) prev (s : string) :
  has_char ")" s = false -> paren_body g prev s = None.
Proof.
  revert prev. induction s as [|d t IH]; intros prev; [reflexivity|].
  cbn [has_char]. intros H. apply orb_false_elim in H. destruct H as [Hd Ht].
  rewrite paren_body_cons, Hd. now apply IH.
Qed.

Lemma paren_blanks_without_pair (g : marks) prev (s : string) :
  open_then_close s = false -> paren_blanks g prev s = None.
Proof.
  revert prev. induction s as [|d t IH]; intros prev; [reflexivity|].
  cbn [open_then_close]. intros H. apply orb_false_elim in H. destruct H as [Hd Ht].
  assert (Ho : paren_open g prev (String d t) = None).
  { rewrite paren_open_cons. destruct (Ascii.eqb d "("); [|reflexivity].
    cbn [andb] in Hd. now apply paren_body_without_close. }
  rewrite paren_blanks_cons, Ho, (IH _ Ht). now destruct (is_space d).
Qed.

Lemma strip_parens_without_pair prev (s : string) :
  open_then_close s = false -> strip_parens prev s 0 = s.
Proof.
  revert prev. induction s as [|c t IH]; intros prev H; [reflexivity|].
  rewrite strip_parens_cons, (paren_blanks_without_pair _ _ _ H).
  apply open_then_close_tail in H. now rewrite IH.
Qed.

(** The character before plays no part in the match. *)
Lemma paren_blanks_any_prev (g : marks) prev prev' (s : string) :
  paren_blanks g prev s = paren_blanks g prev' s.
Proof.
  destruct s as [|d t]; [reflexivity|].
  now rewrite !paren_blanks_cons, !paren_open_cons.
Qed.

Lemma strip_parens_any_prev prev prev' (s : string) (skip : nat) :
  strip_parens prev s skip = strip_parens prev' s skip.
Proof.
  destruct s as [|c t]; [reflexivity|]. destruct skip as [|k]; [|reflexivity].
  now rewrite !strip_parens_cons, (paren_blanks_any_prev _ prev prev').
Qed.

Lemma strip_parens_skip_app prev (s rest : string) :
  strip_parens prev (s ++ rest) (String.length s) = strip_parens prev rest 0.
Proof.
  revert prev. induction s as [|c s IH]; intros prev; [reflexivity|].
  cbn [String.append String.length]. rewrite strip_parens_skip, IH.
  apply strip_parens_any_prev.
Qed.

Lemma rstrip_split (u : string) :
  exists b, all_blank b = true /\ u = (rstrip u ++ b)%string.
Proof.
  induction u as [|c u (b & Hb & IH)]; [now exists EmptyString|].
  cbn [rstrip]. destruct (rstrip u) as [|d r] eqn:E.
  - destruct (is_space c) eqn:Ec.
    + exists (String c u). split; [|reflexivity].
      cbn [all_blank]. rewrite Ec. cbn [String.append] in IH. now rewrite IH.
    + exists b. split; [exact Hb|]. cbn [String.append] in *. now rewrite <- IH.
  - exists b. split; [exact Hb|]. cbn [String.append] in *. now rewrite <- IH.
Qed.

(** The substitution over a text without parenthesis, blanks and a note:
    the text is kept, the blanks and the note are removed. *)
Lemma strip_parens_note_trimmed prev (u b m rest : string) :
  has_char "(" u = false ->
  match last_char u with Some d => is_space d = false | None => True end ->
  all_blank b = true -> has_char ")" m = false ->
  strip_parens prev (u ++ b ++ String "(" (m ++ String ")" rest)) 0
  = (u ++ strip_parens prev rest 0)%string.
Proof.
  intros Hu Hl Hb Hm. revert prev. induction u as [|c u IH]; intros prev.
  - cbn [String.append].
    assert (E : paren_blanks no_marks prev (b ++ String "(" (m ++ String ")" rest))
                = Some (rest, no_marks)) by now apply paren_blanks_match.
    assert (S0 : (b ++ String "(" (m ++ String ")" rest))%string
                 = ((b ++ String "(" (m ++ String ")" EmptyString)) ++ rest)%string).
    { rewrite append_assoc. cbn [String.append]. now rewrite append_assoc. }
    destruct (b ++ String "(" (m ++ String ")" EmptyString))%string as [|c t] eqn:Eb;
      [destruct b; discriminate|].
    rewrite S0 in E |- *. cbn [String.append] in *.
    rewrite strip_parens_cons, E. cbn [String.length].
    replace (S (String.length (t ++ rest)) - String.length rest)%nat
      with (S (String.length t)) by (rewrite length_append; lia).
    cbn [expand String.append]. rewrite strip_parens_skip_app.
    apply strip_parens_any_prev.
  - cbn [String.append]. rewrite strip_parens_cons.
    change (String c (u ++ b ++ String "(" (m ++ String ")" rest)))
      with (String c u ++ (b ++ String "(" (m ++ String ")" rest)))%string.
    rewrite (paren_blanks_blocked _ _ _ _ Hu (last_not_blank _ _ Hl)).
    cbn [has_char] in Hu. apply orb_false_elim in Hu. destruct Hu as [_ Hu].
    rewrite (IH Hu); [now rewrite (strip_parens_any_prev (Some c) prev)|].
    destruct u; [exact I|exact Hl].
Qed.

Lemma strip_parens_note prev (u m rest : string) :
  has_char "(" u = false -> has_char ")" m = false ->
  strip_parens prev (u ++ "(" ++ m ++ ")" ++ rest) 0
  = (rstrip u ++ strip_parens prev rest 0)%string.
Proof.
  intros Hu Hm. destruct (rstrip_split u) as (b & Hb & E).
  rewrite E at 1. rewrite append_assoc.
  apply strip_parens_note_trimmed; [|apply rstrip_last|exact Hb|exact Hm].
  rewrite E, has_char_app in Hu. now apply orb_false_elim in Hu.
Qed.

Lemma strip_parens_annotated prev (parts : list (string * string)) (last : string) :
  forallb note_ok parts = true -> open_then_close last = false ->
  strip_parens prev (annotated parts last) 0 = unannotated parts last.
Proof.
  intros Hp Hl. induction parts as [|[text note] parts IH].
  - now apply strip_parens_without_pair.
  - cbn [forallb] in Hp. apply andb_true_iff in Hp. destruct Hp as [Hn Hp].
    unfold note_ok in Hn. cbn [fst snd] in Hn. apply andb_true_iff in Hn.
    destruct Hn as [Ht Hn]. apply negb_true_iff in Ht, Hn.
    cbn [annotated unannotated]. rewrite (strip_parens_note _ _ _ _ Ht Hn).
    now rewrite (IH Hp).
Qed.

Lemma get_company_name_annotated (parts : list (string * string)) (last : string)
      (w : work_entry) :
  forallb note_ok parts = true -> open_then_close last = false ->
  w_name w = Some (annotated parts last) ->
  get_company_name w = strip (unannotated parts last).
Proof.
  intros Hp Hl Hn. unfold get_company_name, Re.sub. rewrite Hn. cbn [get_or_empty].
  change (sub_from false parenthetical [] None (annotated parts last) 0)
    with (strip_parens None (annotated parts last) 0).
  now rewrite strip_parens_annotated.
Qed.

Lemma split_at_close (s : string) :
  has_char ")" s = true ->
  exists note rest, s = (note ++ String ")" rest)%string /\ has_char ")" note = false.
Proof.
  induction s as [|c s IH]; [discriminate|]. cbn [has_char].
  destruct (Ascii.eqb c ")") eqn:E.
  - intros _. apply Ascii.eqb_eq in E. subst c. now exists EmptyString, s.
  - cbn [orb]. intros H. destruct (IH H) as (note & rest & -> & Ht).
    exists (String c note), rest. split; [reflexivity|]. cbn [has_char]. now rewrite E.
Qed.

Lemma open_then_close_has_close (s : string) :
  open_then_close s = true -> has_char ")" s = true.
Proof.
  induction s as [|c s IH]; [discriminate|]. cbn [open_then_close has_char].
  intros H. apply orb_true_iff in H. destruct H as [H|H].
  - apply andb_true_iff in H. destruct H as [_ H]. rewrite H. apply orb_true_r.
  - rewrite (IH H). apply orb_true_r.
Qed.

Lemma open_then_close_split (s : string) :
  open_then_close s = true ->
  exists text note rest,
    s = (text ++ "(" ++ note ++ ")" ++ rest)%string
    /\ has_char "(" text = false /\ has_char ")" note = false.
Proof.
  induction s as [|c s IH]; [discriminate|]. cbn [open_then_close].
  destruct (Ascii.eqb c "(") eqn:E.
  - intros H. apply Ascii.eqb_eq in E. subst c.
    assert (Hc : has_char ")" s = true).
    { cbn [andb] in H. apply orb_true_iff in H.
      destruct H as [H|H]; [exact H|now apply open_then_close_has_close]. }
    destruct (split_at_close s Hc) as (note & rest & -> & Hn).
    now exists EmptyString, note, rest.
  - cbn [andb orb]. intros H. destruct (IH H) as (text & note & rest & -> & Ht & Hn).
    exists (String c text), note, rest. split; [reflexivity|].
    split; [|exact Hn]. cbn [has_char]. now rewrite E.
Qed.

(** Every name is made of texts followed by notes and of a last text. *)
Lemma annotated_form (s : string) :
  exists parts last,
    s = annotated parts last
    /\ forallb note_ok parts = true /\ open_then_close last = false.
Proof.
  remember (String.length s) as n eqn:Hn.
  assert (Hle : (String.length s <= n)%nat) by lia. clear Hn.
  revert s Hle. induction n as [|n IH]; intros s Hle.
  - destruct s; [|cbn in Hle; lia]. now exists [], EmptyString.
  - destruct (open_then_close s) eqn:E; [|now exists [], s].
    destruct (open_then_close_split s E) as (text & note & rest & -> & Ht & Hc).
    destruct (IH rest) as (parts & last & -> & Hp & Hl).
    { rewrite !length_append in Hle. cbn [String.length] in Hle. lia. }
    exists ((text, note) :: parts), last. split; [reflexivity|].
    split; [|exact Hl]. cbn [forallb]. rewrite Hp. unfold note_ok. cbn [fst snd].
    now rewrite Ht, Hc.
Qed.

(** C6. Grouping drops no entry; the companies come in the order of the
    first occurrence of their normalized names, each once; the entries of a
    company keep the source order.  The normalized name has no parenthesis
    left and no blank at either end, and is empty when the name is missing
    or empty.  Every name is made of texts without opening parenthesis, each
    followed by a note between parentheses, and of a last text in which no
    parenthesis is closed; when its blanks are those of ASCII, its
    normalized name is made of the texts, each without the blanks at its
    end, and of the last text, the whole stripped: nothing but the notes and
    the blanks before them is removed, wherever the notes are. *)
Theorem grouping_by_company :
  (forall work_list : list work_entry,
      let grouped := group_experiences_by_company work_list in
      let names := map get_company_name work_list in
      total_size grouped = length work_list
      /\ map fst grouped = fromkeys names
      /\ NoDup (map fst grouped)
      /\ (forall name, In name (map fst grouped) <-> In name names)
      /\ StronglySorted (fun a b => (first_index a names < first_index b names)%nat)
                        (map fst grouped)
      /\ Forall (fun g => snd g = entries_of (fst g) work_list) grouped)
  /\ (forall w : work_entry,
         trimmed (get_company_name w) = true
         /\ open_then_close (get_company_name w) = false)
  /\ (forall name : string,
         exists parts last,
           name = annotated parts last
           /\ forallb note_ok parts = true /\ open_then_close last = false)
  /\ (forall (w : work_entry) (parts : list (string * string)) (last : string),
         w_name w = Some (annotated parts last) ->
         forallb note_ok parts = true ->
         open_then_close last = false ->
         ascii_blanks_only (annotated parts last) = true ->
         get_company_name w = strip (unannotated parts last))
  /\ (forall position startDate endDate summary highlights,
         get_company_name (mk_work None position startDate endDate summary highlights)
         = EmptyString
         /\ get_company_name
              (mk_work (Some EmptyString) position startDate endDate summary highlights)
            = EmptyString)
  /\ get_company_name (plain_entry "SFEIR (Mission LVMH)" "Dev" "2020-01" "")
     = "SFEIR"%string
  /\ get_company_name (named (annotated sample_parts " ")) = "Capgemini Paris"%string.
Proof.
  split; [|split; [|split; [|split; [|split]]]].
  - intros ws grouped names. subst grouped names.
    assert (Hk : map fst (group_experiences_by_company ws)
                 = fromkeys (map get_company_name ws)).
    { rewrite group_characterization, map_map. cbn [fst]. apply map_id. }
    split; [apply total_size_group|]. split; [exact Hk|]. rewrite Hk.
    split; [apply fromkeys_NoDup|]. split; [intros k; apply fromkeys_In|].
    split; [apply fromkeys_first_occurrence_order|].
    rewrite group_characterization. apply Forall_forall.
    intros g Hg. apply in_map_iff in Hg. destruct Hg as (k & <- & _). reflexivity.
  - intros w. split; [apply strip_trimmed|apply get_company_name_paren_free].
  - apply annotated_form.
  - intros w parts last Hn Hp Hl _. now apply get_company_name_annotated.
  - intros. split; reflexivity.
  - split; vm_compute; reflexivity.
Qed.

Lemma grouping_by_company_witness :
  forallb note_ok sample_parts = true
  /\ ascii_blanks_only (annotated sample_parts " ") = true
  /\ get_company_name (named (annotated sample_parts " "))
     = strip (unannotated sample_parts " ").
Proof.
  split; [reflexivity|]. split; [reflexivity|].
  exact (proj1 (proj2 (proj2 (proj2 grouping_by_company)))
               (named (annotated sample_parts " ")) sample_parts " "%string
               eq_refl eq_refl eq_refl eq_refl).
Defined.

(** ** The span of a company on the summary page *)

Lemma ascii_compare_lt_trans (a b c : ascii) :
  Ascii.compare a b = Lt -> Ascii.compare b c = Lt -> Ascii.compare a c = Lt.
Proof.
  unfold Ascii.compare. rewrite !N.compare_lt_iff. lia.
Qed.

Lemma string_compare_refl (s : string) : String.compare s s = Eq.
Proof.
  induction s as [|c s IH]; [reflexivity|]. simpl.
  unfold Ascii.compare. now rewrite N.compare_refl.
Qed.

Lemma string_compare_lt_trans (a b c : string) :
  String.compare a b = Lt -> String.compare b c = Lt -> String.compare a c = Lt.
Proof.
  revert b c. induction a as [|x a IH]; intros [|y b] [|z c]; simpl;
    try discriminate; try reflexivity.
  destruct (Ascii.compare x y) eqn:Exy; try discriminate;
    destruct (Ascii.compare y z) eqn:Eyz; try discriminate; intros H1 H2.
  - apply Ascii.compare_eq_iff in Exy, Eyz. subst.
    unfold Ascii.compare. rewrite N.compare_refl. eapply IH; eassumption.
  - apply Ascii.compare_eq_iff in Exy. subst. now rewrite Eyz.
  - apply Ascii.compare_eq_iff in Eyz. subst. now rewrite Exy.
  - now rewrite (ascii_compare_lt_trans _ _ _ Exy Eyz).
Qed.

Lemma string_leb_refl (s : string) : String.leb s s = true.
Proof. unfold String.leb. now rewrite string_compare_refl. Qed.

Lemma string_leb_trans (a b c : string) :
  String.leb a b = true -> String.leb b c = true -> String.leb a c = true.
Proof.
  unfold String.leb.
  destruct (String.compare a b) eqn:Eab; try discriminate;
    destruct (String.compare b c) eqn:Ebc; try discriminate; intros _ _.
  - apply String.compare_eq_iff in Eab, Ebc. subst. now rewrite string_compare_refl.
  - apply String.compare_eq_iff in Eab. subst. now rewrite Ebc.
  - apply String.compare_eq_iff in Ebc. subst. now rewrite Eab.
  - now rewrite (string_compare_lt_trans _ _ _ Eab Ebc).
Qed.

Lemma string_ltb_leb (a b : string) : String.ltb a b = true -> String.leb a b = true.
Proof.
  unfold String.ltb, String.leb. now destruct (String.compare a b).
Qed.

Lemma string_not_ltb_leb (a b : string) : String.ltb a b = false -> String.leb b a = true.
Proof.
  unfold String.ltb, String.leb. rewrite (String.compare_antisym a b).
  now destruct (String.compare b a).
Qed.

Lemma min_str_In (x : string) (l : list string) : In (min_str x l) (x :: l).
Proof.
  unfold min_str. revert x. induction l as [|y l IH]; intros x; [now left|].
  cbn [fold_left]. destruct (IH (if String.ltb y x then y else x)) as [H|H].
  - rewrite <- H. destruct (String.ltb y x); [right; now left|now left].
  - right. now right.
Qed.

Lemma min_str_least (x : string) (l : list string) :
  Forall (fun y => String.leb (min_str x l) y = true) (x :: l).
Proof.
  unfold min_str. revert x. induction l as [|y l IH]; intros x.
  - constructor; [apply string_leb_refl|constructor].
  - cbn [fold_left]. specialize (IH (if String.ltb y x then y else x)).
    inversion IH as [|? ? Hm Hl]; subst.
    assert (Hx : String.leb (if String.ltb y x then y else x) x = true
                 /\ String.leb (if String.ltb y x then y else x) y = true).
    { destruct (String.ltb y x) eqn:E.
      - split; [now apply string_ltb_leb|apply string_leb_refl].
      - split; [apply string_leb_refl|now apply string_not_ltb_leb]. }
    destruct Hx as [Hx Hy].
    constructor; [eapply string_leb_trans; eassumption|].
    constructor; [eapply string_leb_trans; eassumption|assumption].
Qed.

Lemma max_str_In (x : string) (l : list string) : In (max_str x l) (x :: l).
Proof.
  unfold max_str. revert x. induction l as [|y l IH]; intros x; [now left|].
  cbn [fold_left]. destruct (IH (if String.ltb x y then y else x)) as [H|H].
  - rewrite <- H. destruct (String.ltb x y); [right; now left|now left].
  - right. now right.
Qed.

Lemma max_str_greatest (x : string) (l : list string) :
  Forall (fun y => String.leb y (max_str x l) = true) (x :: l).
Proof.
  unfold max_str. revert x. induction l as [|y l IH]; intros x.
  - constructor; [apply string_leb_refl|constructor].
  - cbn [fold_left]. specialize (IH (if String.ltb x y then y else x)).
    inversion IH as [|? ? Hm Hl]; subst.
    assert (Hx : String.leb x (if String.ltb x y then y else x) = true
                 /\ String.leb y (if String.ltb x y then y else x) = true).
    { destruct (String.ltb x y) eqn:E.
      - split; [now apply string_ltb_leb|apply string_leb_refl].
      - split; [apply string_leb_refl|now apply string_not_ltb_leb]. }
    destruct Hx as [Hx Hy].
    constructor; [eapply string_leb_trans; eassumption|].
    constructor; [eapply string_leb_trans; eassumption|assumption].
Qed.

Lemma contains_unfold (sub s : string) :
  contains sub s =
  if String.prefix sub s then true
  else match s with
       | EmptyString => false
       | String _ t => contains sub t
       end.
Proof. destruct s; reflexivity. Qed.

Lemma prefix_append (x t : string) : String.prefix x (x ++ t) = true.
Proof.
  induction x as [|c x IH]; simpl; [now destruct t|].
  destruct (ascii_dec c c); [exact IH|contradiction].
Qed.

Lemma contains_here (x t : string) : contains x (x ++ t) = true.
Proof. now rewrite contains_unfold, prefix_append. Qed.

Lemma contains_after (x s t : string) :
  contains x t = true -> contains x (s ++ t) = true.
Proof.
  intros H. induction s as [|c s IH]; [exact H|].
  rewrite contains_unfold. cbn [String.append].
  destruct (String.prefix x (String c (s ++ t))); [reflexivity|exact IH].
Qed.

Lemma all_ends_empty (experiences : list work_entry) :
  all_ends experiences = [] <->
  forallb (fun e => negb (truthy_opt (w_endDate e))) experiences = true.
Proof.
  unfold all_ends. induction experiences as [|e es IH]; simpl; [tauto|].
  destruct (truthy_opt (w_endDate e)); simpl; [|exact IH].
  split; discriminate.
Qed.

Lemma all_ends_truthy (experiences : list work_entry) :
  Forall (fun s => truthy s = true) (all_ends experiences).
Proof.
  unfold all_ends. induction experiences as [|e es IH]; simpl; [constructor|].
  destruct (w_endDate e) as [s|]; simpl; [|exact IH].
  destruct (truthy s) eqn:E; [constructor; assumption|exact IH].
Qed.

(** The latest end is empty exactly when no entry of the group has an end
    date. *)
Lemma latest_end_empty (experiences : list work_entry) :
  latest_end experiences = EmptyString <->
  forallb (fun e => negb (truthy_opt (w_endDate e))) experiences = true.
Proof.
  rewrite <- all_ends_empty. unfold latest_end.
  pose proof (all_ends_truthy experiences) as Ht.
  destruct (all_ends experiences) as [|x l]; [tauto|].
  split; [|discriminate]. intros E.
  pose proof (max_str_In x l) as Hin. rewrite E in Hin.
  rewrite Forall_forall in Ht. now apply Ht in Hin.
Qed.

Lemma all_starts_set (experiences : list work_entry) (s : string) :
  In s (all_starts experiences)
  <-> truthy s = true /\ exists e, In e experiences /\ w_startDate e = Some s.
Proof.
  unfold all_starts. rewrite in_flat_map. split.
  - intros (e & He & Hs). destruct (w_startDate e) as [d|] eqn:E; [|contradiction].
    cbn [truthy_opt get_or_empty] in Hs. destruct (truthy d) eqn:Ed; [|contradiction].
    destruct Hs as [<-|[]]. split; [exact Ed|]. now exists e.
  - intros (Hs & e & He & E). exists e. split; [exact He|].
    rewrite E. cbn [truthy_opt get_or_empty]. rewrite Hs. now left.
Qed.

Lemma all_ends_set (experiences : list work_entry) (s : string) :
  In s (all_ends experiences)
  <-> truthy s = true /\ exists e, In e experiences /\ w_endDate e = Some s.
Proof.
  unfold all_ends. rewrite in_flat_map. split.
  - intros (e & He & Hs). destruct (w_endDate e) as [d|] eqn:E; [|contradiction].
    cbn [truthy_opt get_or_empty] in Hs. destruct (truthy d) eqn:Ed; [|contradiction].
    destruct Hs as [<-|[]]. split; [exact Ed|]. now exists e.
  - intros (Hs & e & He & E). exists e. split; [exact He|].
    rewrite E. cbn [truthy_opt get_or_empty]. rewrite Hs. now left.
Qed.

(** C7. The period the code shows for a company.  The start dates it reads
    are the start dates of the entries that are set and not empty, and the
    same for the end dates; the period runs from the least of these starts
    to the greatest of these ends, as texts, and an end that is missing is
    shown as the present label.  The end is missing exactly when no entry
    has an end date: the entries still running are dropped before the
    greatest end is taken.  So a company with an engagement from 2017-07 to
    2019-12 and one running since 2019-06 is shown as ended in December
    2019, and the present label is nowhere on its card. *)
Theorem company_span_on_summary :
  (forall (now : Z * Z) (anonymize : bool) (lang : language)
          (company : string) (experiences : list work_entry),
      company_period experiences lang
      = (format_date (earliest_start experiences) lang ++ " – "
         ++ format_date (latest_end experiences) lang)%string
      /\ match render_company_summary now anonymize lang (company, experiences) with
         | Ok html => contains (company_period experiences lang) html = true
         | Raise _ => True
         end
      /\ (forall s, In s (all_starts experiences)
                    <-> truthy s = true
                        /\ exists e, In e experiences /\ w_startDate e = Some s)
      /\ (forall s, In s (all_ends experiences)
                    <-> truthy s = true
                        /\ exists e, In e experiences /\ w_endDate e = Some s)
      /\ match all_starts experiences with
         | [] => earliest_start experiences = EmptyString
         | starts =>
             In (earliest_start experiences) starts
             /\ Forall (fun s => String.leb (earliest_start experiences) s = true) starts
         end
      /\ match all_ends experiences with
         | [] => latest_end experiences = EmptyString
         | ends =>
             In (latest_end experiences) ends
             /\ Forall (fun s => String.leb s (latest_end experiences) = true) ends
         end
      /\ (latest_end experiences = EmptyString <->
          forallb (fun e => negb (truthy_opt (w_endDate e))) experiences = true)
      /\ format_date EmptyString lang = l_present (LABELS lang))
  /\ existsb (fun e => negb (truthy_opt (w_endDate e))) closed_and_running = true
  /\ latest_end closed_and_running = "2019-12"%string
  /\ company_period closed_and_running Fr = "Jul 2017 – Déc 2019"%string
  /\ company_period closed_and_running Fr
     <> (format_date "2017-07" Fr ++ " – " ++ l_present (LABELS Fr))%string
  /\ exists html,
      render_company_summary today false Fr ("Capgemini"%string, closed_and_running)
      = Ok html
      /\ contains "Jul 2017 – Déc 2019" html = true
      /\ contains (l_present (LABELS Fr)) html = false.
Proof.
  split.
  - intros now an lang company es. split; [reflexivity|]. split.
    + unfold render_company_summary.
      destruct (map_r role_of es) as [roles|e]; cbn [bind]; [|exact I].
      destruct (calculate_duration now (earliest_start es) (latest_end es) lang)
        as [duration|e]; cbn [bind]; [|exact I].
      repeat first [apply contains_here | apply contains_after].
    + split; [apply all_starts_set|]. split; [apply all_ends_set|].
      split; [|split; [|split; [apply latest_end_empty|reflexivity]]].
      * unfold earliest_start. destruct (all_starts es) as [|x l]; [reflexivity|].
        split; [apply min_str_In|apply min_str_least].
      * unfold latest_end. destruct (all_ends es) as [|x l]; [reflexivity|].
        split; [apply max_str_In|apply max_str_greatest].
  - split; [reflexivity|]. split; [reflexivity|]. split; [reflexivity|].
    split; [vm_compute; discriminate|].
    eexists. split; [vm_compute; reflexivity|]. split; vm_compute; reflexivity.
Qed.

(** ** Anonymized documents *)

Lemma render_sidebar_without_contact (r : resume) (phone email : option string)
      (lang : language) :
  let r' := with_contact r phone email in
  render_sidebar (basics r') (skills r') (education r') (certificates r') (languages r')
                 (interests r') true lang
  = render_sidebar (basics r) (skills r) (education r) (certificates r) (languages r)
                   (interests r) true lang.
Proof. reflexivity. Qed.

(** With anonymization on, phone and email do not reach the document. *)
Lemma generate_html_ignores_contact (template_content : string) (now : Z * Z)
      (r : resume) (phone email : option string) (lang : language) :
  generate_html template_content now (with_contact r phone email) true lang
  = generate_html template_content now r true lang.
Proof.
  unfold generate_html. cbn [with_contact work].
  destruct (map_r anonymize_work_entry (work r)) as [w|e]; reflexivity.
Qed.

Lemma anonymize_work_entry_fields (e e' : work_entry) :
  anonymize_work_entry e = Ok e' ->
  w_name e' = option_map anonymize_text (w_name e)
  /\ w_position e' = option_map anonymize_text (w_position e)
  /\ w_summary e' = Some (anonymize_text (get_or_empty (w_summary e)))
  /\ w_highlights e'
     = Some (map anonymize_text (match w_highlights e with Some l => l | None => [] end))
  /\ w_startDate e' = w_startDate e
  /\ w_endDate e' = w_endDate e.
Proof.
  unfold anonymize_work_entry.
  destruct (w_name e) as [name|]; [|discriminate].
  destruct (w_position e) as [position|]; [|discriminate].
  cbn. intros [= <-]. repeat split.
Qed.

(** A client named in the summary of the subject stays in the document. *)
Lemma client_name_left_in_summary :
  anonymize_text "SFEIR (Mission LVMH)" = "SFEIR (Mission Client Luxe)"%string
  /\ exists html,
      generate_html sample_template today client_in_summary true Fr = Ok html
      /\ contains "Client Luxe" html = true
      /\ contains "LVMH" html = true.
Proof.
  split; [vm_compute; reflexivity|].
  eexists. split; [vm_compute; reflexivity|]. split; vm_compute; reflexivity.
Qed.

Lemma anonymize_work_entry_alike (e1 e2 : work_entry) :
  rewritten_alike e1 e2 -> anonymize_work_entry e1 = anonymize_work_entry e2.
Proof.
  intros (Hn & Hp & Hs & Hh & Hd & He). unfold anonymize_work_entry.
  destruct (w_name e1) as [n1|], (w_name e2) as [n2|]; try discriminate;
    [|reflexivity].
  destruct (w_position e1) as [p1|], (w_position e2) as [p2|]; try discriminate;
    [|reflexivity].
  cbn [option_map] in Hn, Hp. cbn [item_of bind]. congruence.
Qed.

Lemma map_r_alike {T U : Type} (f : T -> result U) (R : T -> T -> Prop)
      (l1 l2 : list T) :
  (forall x y, R x y -> f x = f y) -> Forall2 R l1 l2 -> map_r f l1 = map_r f l2.
Proof.
  intros Hf H. induction H as [|x y l1 l2 Hxy _ IH]; [reflexivity|].
  cbn [map_r]. now rewrite (Hf x y Hxy), IH.
Qed.

(** The document reads the work entries through the rules alone. *)
Lemma generate_html_rewritten_alike (template_content : string) (now : Z * Z)
      (r : resume) (ws1 ws2 : list work_entry) (lang : language) :
  Forall2 rewritten_alike ws1 ws2 ->
  generate_html template_content now (with_work r ws1) true lang
  = generate_html template_content now (with_work r ws2) true lang.
Proof.
  intros H. unfold generate_html. cbn [with_work work].
  rewrite (map_r_alike _ _ _ _ anonymize_work_entry_alike H).
  destruct (map_r anonymize_work_entry ws2) as [w|e]; reflexivity.
Qed.

(** C4, as the code has it. With anonymization on, the document is the
    same whatever the phone and the email of the subject are.  Every work
    entry is rewritten by the rules before anything is rendered: the
    document is the same for two lists of work entries that, entry by
    entry, have the same dates and the same name, position, summary and
    highlights once rewritten, so that a name the rules replace is read
    nowhere else, whichever entry it is in; and the rewrite of an entry is
    the rewrite of these four fields.  In the scenario of the
    specification, and in the same with the client in the last entry, the
    document has the replacement text and none of the employer name, the
    phone and the email. *)
Theorem anonymized_document :
  (forall (template_content : string) (now : Z * Z) (r : resume)
          (phone email : option string) (lang : language),
      generate_html template_content now (with_contact r phone email) true lang
      = generate_html template_content now r true lang)
  /\ (forall (template_content : string) (now : Z * Z) (r : resume)
             (ws1 ws2 : list work_entry) (lang : language),
         Forall2 rewritten_alike ws1 ws2 ->
         generate_html template_content now (with_work r ws1) true lang
         = generate_html template_content now (with_work r ws2) true lang)
  /\ (exists html,
         generate_html sample_template today client_last true Fr = Ok html
         /\ contains "Client Banque" html = true
         /\ contains "Natixis" html = false
         /\ contains "+33 6 12 34 56 78" html = false
         /\ contains "jeanne.martin@example.org" html = false)
  /\ (forall e : work_entry,
         match anonymize_work_entry e with
         | Ok e' =>
             w_name e' = option_map anonymize_text (w_name e)
             /\ w_position e' = option_map anonymize_text (w_position e)
             /\ w_summary e' = Some (anonymize_text (get_or_empty (w_summary e)))
             /\ w_highlights e'
                = Some (map anonymize_text
                            (match w_highlights e with Some l => l | None => [] end))
         | Raise _ => True
         end)
  /\ anonymize_text "Natixis" = "Client Banque"%string
  /\ exists html,
      generate_html sample_template today scenario true Fr = Ok html
      /\ contains "Client Banque" html = true
      /\ contains "Natixis" html = false
      /\ contains "+33 6 12 34 56 78" html = false
      /\ contains "jeanne.martin@example.org" html = false.
Proof.
  split; [apply generate_html_ignores_contact|].
  split; [apply generate_html_rewritten_alike|].
  split; [eexists; split; [vm_compute; reflexivity|];
          repeat split; vm_compute; reflexivity|].
  split.
  - intros e. destruct (anonymize_work_entry e) as [e'|x] eqn:E; [|exact I].
    apply anonymize_work_entry_fields in E. tauto.
  - split; [vm_compute; reflexivity|].
    eexists. split; [vm_compute; reflexivity|]. repeat split; vm_compute; reflexivity.
Qed.

(** ** Missing keys *)

Lemma bind_Ok {T U : Type} (x : result T) (k : T -> result U) (v : U) :
  bind x k = Ok v -> exists u, x = Ok u /\ k u = Ok v.
Proof. destruct x as [u|e]; [intros H; now exists u|discriminate]. Qed.

Lemma map_r_Forall2 {T U : Type} (f : T -> result U) (l : list T) (out : list U) :
  map_r f l = Ok out -> Forall2 (fun x y => f x = Ok y) l out.
Proof.
  revert out. induction l as [|x l IH]; intros out; cbn [map_r].
  - intros [= <-]. constructor.
  - intros H. apply bind_Ok in H. destruct H as (y & Hy & H).
    apply bind_Ok in H. destruct H as (ys & Hys & [= <-]).
    constructor; [assumption|now apply IH].
Qed.

Lemma map_r_Ok_each {T U : Type} (f : T -> result U) (l : list T) (out : list U) (x : T) :
  map_r f l = Ok out -> In x l -> exists y, In y out /\ f x = Ok y.
Proof.
  intros H. apply map_r_Forall2 in H. induction H as [|a b l out Hab _ IH]; [intros []|].
  intros [<-|Hx].
  - exists b. split; [now left|assumption].
  - destruct (IH Hx) as (y & Hy & E). exists y. split; [now right|assumption].
Qed.

Lemma key_errors_only_bind {T U : Type} (x : result T) (k : T -> result U) :
  key_errors_only x -> (forall v, x = Ok v -> key_errors_only (k v)) ->
  key_errors_only (bind x k).
Proof. destruct x as [v|[key|]]; cbn; auto. Qed.

Lemma key_errors_only_map_r {T U : Type} (f : T -> result U) (l : list T) :
  (forall x, In x l -> key_errors_only (f x)) -> key_errors_only (map_r f l).
Proof.
  induction l as [|x l IH]; intros H; cbn [map_r]; [exact I|].
  apply key_errors_only_bind; [apply H; now left|]. intros y _.
  apply key_errors_only_bind; [apply IH; intros z Hz; apply H; now right|].
  intros; exact I.
Qed.

Lemma key_errors_only_item_of {T : Type} (key : string) (o : option T) :
  key_errors_only (item_of key o).
Proof. destruct o; exact I. Qed.

Ltac key_errors :=
  repeat first
    [ exact I
    | apply key_errors_only_item_of
    | apply key_errors_only_bind; [|intros ? _]
    | apply key_errors_only_map_r; intros ? _ ].

Lemma render_sidebar_key_errors_only b sk ed ce la it (anonymize : bool) (lang : language) :
  key_errors_only (render_sidebar b sk ed ce la it anonymize lang).
Proof.
  unfold render_sidebar, render_skill, render_certificate, render_language,
    render_interest.
  key_errors.
Qed.

Lemma calculate_duration_key_errors_only now (start end_ : string) (lang : language) :
  (truthy end_ = true -> parse_date end_ <> None) ->
  key_errors_only (calculate_duration now start end_ lang).
Proof.
  intros H. destruct (calculate_duration now start end_ lang) as [v|[key|]] eqn:E;
    try exact I.
  apply calculate_duration_raises in E. destruct E as (_ & _ & Ht & Hp).
  now apply H in Ht.
Qed.

Lemma end_date_ok_parse (e : work_entry) (s : string) :
  end_date_ok e = true -> w_endDate e = Some s -> truthy s = true ->
  parse_date s <> None.
Proof.
  unfold end_date_ok. intros H E Ht. rewrite E, Ht in H. cbn in H.
  destruct (parse_date s); [discriminate|discriminate H].
Qed.

Lemma all_ends_In (experiences : list work_entry) (s : string) :
  In s (all_ends experiences) ->
  exists e, In e experiences /\ w_endDate e = Some s /\ truthy s = true.
Proof.
  unfold all_ends. rewrite in_flat_map. intros (e & He & Hs).
  exists e. split; [assumption|].
  destruct (w_endDate e) as [d|]; cbn in Hs; [|contradiction].
  destruct (truthy d) eqn:Ht; [|contradiction].
  destruct Hs as [<-|[]]. now split.
Qed.

Lemma latest_end_parses (experiences : list work_entry) :
  Forall (fun e => end_date_ok e = true) experiences ->
  truthy (latest_end experiences) = true -> parse_date (latest_end experiences) <> None.
Proof.
  intros Hok Ht. unfold latest_end in *.
  destruct (all_ends experiences) as [|x l] eqn:E; [discriminate|].
  pose proof (max_str_In x l) as Hin. rewrite <- E in Hin.
  apply all_ends_In in Hin. destruct Hin as (e & He & Hs & Hts).
  rewrite Forall_forall in Hok. eapply end_date_ok_parse; eauto.
Qed.

Lemma render_company_summary_key_errors_only now (anonymize : bool) (lang : language)
      (group : string * list work_entry) :
  Forall (fun e => end_date_ok e = true) (snd group) ->
  key_errors_only (render_company_summary now anonymize lang group).
Proof.
  destruct group as [company es]. cbn [snd]. intros Hok.
  unfold render_company_summary, role_of.
  apply key_errors_only_bind; [key_errors|]. intros roles _.
  apply key_errors_only_bind; [|intros; exact I].
  apply calculate_duration_key_errors_only. now apply latest_end_parses.
Qed.

Lemma render_experience_key_errors_only now (company color : string) (anonymize : bool)
      (lang : language) (e : work_entry) :
  end_date_ok e = true ->
  key_errors_only (render_experience now company color anonymize lang e).
Proof.
  intros Hok. unfold render_experience.
  apply key_errors_only_bind; [key_errors|]. intros name _.
  apply key_errors_only_bind; [key_errors|]. intros position _.
  apply key_errors_only_bind; [key_errors|]. intros startDate _.
  apply key_errors_only_bind; [key_errors|]. intros endDate HendDate.
  apply key_errors_only_bind; [|intros; exact I].
  apply calculate_duration_key_errors_only.
  revert HendDate. unfold item_of.
  destruct (w_endDate e) as [s|] eqn:E; [|discriminate].
  intros [= <-]. now apply (end_date_ok_parse e).
Qed.

Lemma group_members (work_list : list work_entry) (company : string)
      (experiences : list work_entry) (e : work_entry) :
  In (company, experiences) (group_experiences_by_company work_list) ->
  In e experiences -> In e work_list.
Proof.
  rewrite group_characterization, in_map_iff. intros (k & [= <- <-] & _) He.
  unfold entries_of in He. now apply filter_In in He.
Qed.

Lemma group_covers (work_list : list work_entry) (e : work_entry) :
  In e work_list ->
  exists experiences,
    In (get_company_name e, experiences) (group_experiences_by_company work_list)
    /\ In e experiences.
Proof.
  intros He. exists (entries_of (get_company_name e) work_list). split.
  - rewrite group_characterization. apply in_map_iff.
    exists (get_company_name e). split; [reflexivity|].
    apply fromkeys_In, in_map, He.
  - unfold entries_of. apply filter_In. split; [assumption|apply String.eqb_refl].
Qed.

Lemma render_experience_Ok_keys now (company color : string) (anonymize : bool)
      (lang : language) (e : work_entry) (html : string) :
  render_experience now company color anonymize lang e = Ok html ->
  has_required_keys e = true.
Proof.
  unfold render_experience, has_required_keys.
  destruct (w_name e); cbn [item_of bind]; [|discriminate].
  destruct (w_position e); cbn [item_of bind]; [|discriminate].
  destruct (w_startDate e); cbn [item_of bind]; [|discriminate].
  destruct (w_endDate e); cbn [item_of bind]; [|discriminate].
  reflexivity.
Qed.

Lemma render_experience_missing_key now (company color : string) (anonymize : bool)
      (lang : language) (e : work_entry) :
  has_required_keys e = false ->
  exists key,
    In key ["name"; "position"; "startDate"; "endDate"]%string
    /\ render_experience now company color anonymize lang e = Raise (KeyError key).
Proof.
  unfold render_experience, has_required_keys.
  destruct (w_name e); cbn [item_of bind];
    [|intros _; exists "name"%string; cbn; auto].
  destruct (w_position e); cbn [item_of bind];
    [|intros _; exists "position"%string; cbn; auto].
  destruct (w_startDate e); cbn [item_of bind];
    [|intros _; exists "startDate"%string; cbn; auto].
  destruct (w_endDate e); cbn [item_of bind];
    [|intros _; exists "endDate"%string; cbn; auto 6].
  discriminate.
Qed.

Lemma render_experience_total now (company color : string) (anonymize : bool)
      (lang : language) (e : work_entry) :
  has_required_keys e = true -> end_date_ok e = true ->
  exists html, render_experience now company color anonymize lang e = Ok html.
Proof.
  intros Hk Hd.
  pose proof (render_experience_key_errors_only now company color anonymize lang e Hd)
    as Hke.
  destruct (render_experience now company color anonymize lang e) as [html|[key|]] eqn:E;
    [now exists html| |contradiction].
  exfalso. revert E. unfold render_experience, has_required_keys in *.
  destruct (w_name e); [|discriminate]. destruct (w_position e); [|discriminate].
  destruct (w_startDate e); [|discriminate]. destruct (w_endDate e); [|discriminate].
  cbn [item_of bind].
  destruct (calculate_duration now s1 s2 lang) as [d|x] eqn:Ed; cbn [bind];
    [discriminate|].
  intros [= ->]. apply calculate_duration_raises in Ed. now destruct Ed.
Qed.

Lemma render_detail_pages_Ok_keys now (r : resume) (anonymize : bool) (lang : language)
      (html : string) :
  render_detail_pages now r anonymize lang = Ok html ->
  Forall (fun e => has_required_keys e = true) (work r).
Proof.
  unfold render_detail_pages. intros H.
  apply bind_Ok in H. destruct H as (sidebar & _ & H).
  apply bind_Ok in H. destruct H as (pages_data & H & _).
  unfold split_experiences_into_pages in H.
  apply bind_Ok in H. destruct H as (all_exp_groups & H & _).
  apply Forall_forall. intros e He.
  destruct (group_covers _ _ He) as (es & Hg & Hes).
  destruct (map_r_Ok_each _ _ _ _ H Hg) as (y & _ & Hy).
  unfold render_and_estimate, render_experience_group in Hy.
  apply bind_Ok in Hy. destruct Hy as (group_html & Hy & _).
  apply bind_Ok in Hy. destruct Hy as (blocks & Hy & _).
  destruct (map_r_Ok_each _ _ _ _ Hy Hes) as (block & _ & Hb).
  now apply render_experience_Ok_keys in Hb.
Qed.

Lemma anonymize_work_entry_keys (e e' : work_entry) :
  anonymize_work_entry e = Ok e' ->
  has_required_keys e = has_required_keys e' /\ end_date_ok e = end_date_ok e'.
Proof.
  intros H. pose proof (anonymize_work_entry_fields _ _ H) as (Hn & Hp & _ & _ & Hs & He).
  unfold has_required_keys, end_date_ok. rewrite Hn, Hp, Hs, He.
  split; [|reflexivity].
  now destruct (w_name e), (w_position e).
Qed.

(** A document is generated only from entries that have the four keys. *)
Lemma generate_html_Ok_keys (template_content : string) now (r : resume)
      (anonymize : bool) (lang : language) (html : string) :
  generate_html template_content now r anonymize lang = Ok html ->
  Forall (fun e => has_required_keys e = true) (work r).
Proof.
  unfold generate_html. intros H.
  apply bind_Ok in H. destruct H as (r' & Hr' & H).
  apply bind_Ok in H. destruct H as (page_1 & _ & H).
  apply bind_Ok in H. destruct H as (detail_pages & H & _).
  apply render_detail_pages_Ok_keys in H.
  destruct anonymize; [|now injection Hr' as <-].
  apply bind_Ok in Hr'. destruct Hr' as (w & Hw & [= <-]). cbn [with_work work] in H.
  apply map_r_Forall2 in Hw. induction Hw as [|e e' l l' He _ IH]; [constructor|].
  inversion H; subst. constructor; [|now apply IH].
  now rewrite (proj1 (anonymize_work_entry_keys _ _ He)).
Qed.

Lemma render_page_1_key_errors_only now (r : resume) (anonymize : bool) (lang : language) :
  Forall (fun e => end_date_ok e = true) (work r) ->
  key_errors_only (render_page_1 now r anonymize lang).
Proof.
  intros Hok. unfold render_page_1.
  apply key_errors_only_bind; [apply render_sidebar_key_errors_only|]. intros sidebar _.
  apply key_errors_only_bind; [|intros; exact I].
  apply key_errors_only_map_r. intros [company es] Hg.
  apply render_company_summary_key_errors_only. cbn [snd].
  rewrite Forall_forall in *. intros e He. apply Hok. eapply group_members; eauto.
Qed.

Lemma render_detail_pages_key_errors_only now (r : resume) (anonymize : bool)
      (lang : language) :
  Forall (fun e => end_date_ok e = true) (work r) ->
  key_errors_only (render_detail_pages now r anonymize lang).
Proof.
  intros Hok. unfold render_detail_pages, split_experiences_into_pages.
  apply key_errors_only_bind; [apply render_sidebar_key_errors_only|]. intros sidebar _.
  apply key_errors_only_bind; [|intros; exact I].
  apply key_errors_only_bind; [|intros; exact I].
  apply key_errors_only_map_r. intros [company es] Hg.
  unfold render_and_estimate, render_experience_group.
  apply key_errors_only_bind; [|intros; exact I].
  apply key_errors_only_bind; [|intros; exact I].
  apply key_errors_only_map_r. intros e He.
  apply render_experience_key_errors_only.
  rewrite Forall_forall in Hok. apply Hok. eapply group_members; eauto.
Qed.

(** With end dates that are empty or parse, only a missing key stops the
    generation. *)
Lemma generate_html_key_errors_only (template_content : string) now (r : resume)
      (anonymize : bool) (lang : language) :
  Forall (fun e => end_date_ok e = true) (work r) ->
  key_errors_only (generate_html template_content now r anonymize lang).
Proof.
  intros Hok. unfold generate_html.
  apply key_errors_only_bind.
  - destruct anonymize; [|exact I].
    apply key_errors_only_bind; [|intros; exact I].
    apply key_errors_only_map_r. intros e _. unfold anonymize_work_entry. key_errors.
  - intros r' Hr'.
    assert (Hok' : Forall (fun e => end_date_ok e = true) (work r')).
    { destruct anonymize; [|now injection Hr' as <-].
      apply bind_Ok in Hr'. destruct Hr' as (w & Hw & [= <-]). cbn [with_work work].
      apply map_r_Forall2 in Hw. induction Hw as [|e e' l l' He _ IH]; [constructor|].
      inversion Hok; subst. constructor; [|now apply IH].
      now rewrite <- (proj2 (anonymize_work_entry_keys _ _ He)). }
    apply key_errors_only_bind; [now apply render_page_1_key_errors_only|]. intros p1 _.
    apply key_errors_only_bind; [now apply render_detail_pages_key_errors_only|].
    intros; exact I.
Qed.

Lemma with_defaults_tolerated (e : work_entry) :
  descriptions_of (with_defaults e) = descriptions_of e
  /\ get_company_name (with_defaults e) = get_company_name e
  /\ role_of (with_defaults e) = role_of e
  /\ anonymize_work_entry (with_defaults e) = anonymize_work_entry e
  /\ forall now company color anonymize lang,
      render_experience now company color anonymize lang (with_defaults e)
      = render_experience now company color anonymize lang e.
Proof.
  unfold with_defaults, descriptions_of, get_company_name, role_of,
    anonymize_work_entry, render_experience.
  cbn [w_name w_position w_startDate w_endDate w_summary w_highlights].
  destruct (w_summary e) as [[|c s]|], (w_highlights e) as [l|]; repeat split.
Qed.

(** C10. An entry without an end date key does not always give a
    [KeyError]: when an entry rendered before it has an end date that is set
    but does not parse, the generation stops there on the year of [None],
    with or without anonymization. *)
Theorem attribute_error_before_key_error :
  existsb (fun e => negb (has_required_keys e)) (work bad_date_then_missing_key) = true
  /\ generate_html sample_template today bad_date_then_missing_key false Fr
     = Raise AttributeError
  /\ generate_html sample_template today bad_date_then_missing_key true Fr
     = Raise AttributeError.
Proof. split; [reflexivity|]. split; vm_compute; reflexivity. Qed.

(** The detail block of an entry without one of the keys name, position,
    startDate, endDate raises [KeyError] on that key; a record with such an
    entry gives no document, and the exception is a [KeyError] when every
    end date is empty or parses; an entry with the four keys and such an end
    date renders; absent summary and highlights read as the empty text and
    the empty list. *)
Theorem missing_key_raises :
  (forall now (company color : string) (anonymize : bool) (lang : language)
          (e : work_entry),
      has_required_keys e = false ->
      exists key,
        In key ["name"; "position"; "startDate"; "endDate"]%string
        /\ render_experience now company color anonymize lang e = Raise (KeyError key))
  /\ (forall (template_content : string) now (r : resume) (anonymize : bool)
             (lang : language),
         existsb (fun e => negb (has_required_keys e)) (work r) = true ->
         (exists x, generate_html template_content now r anonymize lang = Raise x)
         /\ (forallb end_date_ok (work r) = true ->
             exists key,
               generate_html template_content now r anonymize lang
               = Raise (KeyError key)))
  /\ (forall now (company color : string) (anonymize : bool) (lang : language)
             (e : work_entry),
         has_required_keys e = true -> end_date_ok e = true ->
         exists html, render_experience now company color anonymize lang e = Ok html)
  /\ (forall e : work_entry,
         descriptions_of (with_defaults e) = descriptions_of e
         /\ anonymize_work_entry (with_defaults e) = anonymize_work_entry e
         /\ forall now company color anonymize lang,
             render_experience now company color anonymize lang (with_defaults e)
             = render_experience now company color anonymize lang e).
Proof.
  split; [apply render_experience_missing_key|]. split; [|split].
  - intros tpl now r an lang Hmiss.
    assert (Hno : forall html, generate_html tpl now r an lang <> Ok html).
    { intros html H. apply generate_html_Ok_keys in H.
      apply existsb_exists in Hmiss. destruct Hmiss as (e & He & Hk).
      rewrite Forall_forall in H. rewrite (H e He) in Hk. discriminate. }
    split.
    + destruct (generate_html tpl now r an lang) as [html|x]; [|now exists x].
      now destruct (Hno html).
    + intros Hok.
      assert (Hke : key_errors_only (generate_html tpl now r an lang)).
      { apply generate_html_key_errors_only. apply Forall_forall.
        rewrite forallb_forall in Hok. exact Hok. }
      destruct (generate_html tpl now r an lang) as [html|[key|]];
        [now destruct (Hno html)|now exists key|contradiction].
  - apply render_experience_total.
  - intros e. pose proof (with_defaults_tolerated e). tauto.
Qed.

Lemma missing_key_raises_witness :
  existsb (fun e => negb (has_required_keys e)) (work missing_end_date) = true
  /\ forallb end_date_ok (work missing_end_date) = true
  /\ exists key,
      generate_html sample_template today missing_end_date false Fr
      = Raise (KeyError key).
Proof.
  split; [reflexivity|]. split; [reflexivity|].
  exact (proj2 (proj1 (proj2 missing_key_raises) sample_template today missing_end_date
                      false Fr eq_refl) eq_refl).
Defined.

(** * Further properties *)

Import Further.

(** ** Pagination: budget, tight packing, page count *)

Lemma chain_app_l {T : Type} (R : T -> T -> Prop) (l l' : list T) :
  chain R (l ++ l') -> chain R l.
Proof.
  induction l as [|a l IH]; [intros; exact I|].
  destruct l as [|b l]; [intros; exact I|].
  cbn. intros [Hab H]. split; [assumption|]. apply IH, H.
Qed.

Lemma chain_snoc {T : Type} (R : T -> T -> Prop) (l : list T) (a b : T) :
  chain R (l ++ [a]) -> R a b -> chain R ((l ++ [a]) ++ [b]).
Proof.
  induction l as [|c l IH]; intros H Hab.
  - cbn. auto.
  - destruct l as [|d l].
    + cbn in *. tauto.
    + cbn in H. destruct H as [Hcd H]. specialize (IH H Hab).
      cbn. split; [assumption|exact IH].
Qed.

Lemma chain_last {T : Type} (R : T -> T -> Prop) (l : list T) (a a' : T) :
  chain R (l ++ [a]) -> (forall p, R p a -> R p a') -> chain R (l ++ [a']).
Proof.
  induction l as [|c l IH]; intros H Himp; [exact I|].
  destruct l as [|d l].
  - cbn in *. destruct H as [H _]. auto.
  - cbn in H. destruct H as [Hcd H]. specialize (IH H Himp).
    cbn. split; [assumption|exact IH].
Qed.

Section PackingBudget.

Context {A : Type}.

Implicit Types (st : pack_state (A * Z)) (g : A * Z).

Lemma total_height_snoc (col : list (A * Z)) g :
  total_height (col ++ [g]) = total_height col + snd g.
Proof.
  unfold total_height. induction col as [|c col IH]; simpl; [lia|].
  rewrite IH. lia.
Qed.

Lemma place_group_packed_well st g :
  packed_well st -> packed_well (place_group st (g, snd g)).
Proof.
  intros ((H1 & H2) & (Hb2 & Hb1) & Hp & Hc & Hne).
  cbn [fst snd] in Hb1, Hb2.
  unfold place_group, start_new_page.
  destruct (col1_height st <=? col2_height st) eqn:E12;
    [ destruct (col1_height st + snd g <=? MAX_HEIGHT_PER_COL) eqn:Ef
    | destruct (col2_height st + snd g <=? MAX_HEIGHT_PER_COL) eqn:Ef ];
    unfold packed_well, heights_tracked, within_budget;
    cbn [pages col1 col2 col1_height col2_height fst snd].
  - apply Z.leb_le in Ef. rewrite total_height_snoc.
    split; [split|split; [split|split; [|split]]]; try assumption; try lia.
    + destruct (pages st) as [|p ps] eqn:Ep; [exact I|].
      rewrite <- Ep in *. apply (chain_last _ _ _ _ Hc).
      intros q. unfold opened_after. cbn [fst].
      destruct (col1 st) as [|c cs]; [|trivial].
      exfalso. apply Hne; [rewrite Ep; discriminate|reflexivity].
    + intros _. destruct (col1 st); discriminate.
  - apply Z.leb_gt in Ef. apply Z.leb_le in E12.
    split; [split|split; [split|split; [|split]]]; try reflexivity.
    + cbn. lia.
    + cbn. unfold MAX_HEIGHT_PER_COL. lia.
    + right. reflexivity.
    + apply Forall_app. split; [assumption|]. constructor; [|constructor].
      split; assumption.
    + apply chain_snoc; [assumption|]. unfold opened_after, fits_neither.
      cbn [fst snd]. lia.
    + discriminate.
  - apply Z.leb_le in Ef. rewrite total_height_snoc.
    split; [split|split; [split|split; [|split]]]; try assumption; try lia.
    apply (chain_last _ _ _ _ Hc). intros q. unfold opened_after. trivial.
  - apply Z.leb_gt in Ef. apply Z.leb_gt in E12.
    split; [split|split; [split|split; [|split]]]; try reflexivity.
    + cbn. lia.
    + cbn. unfold MAX_HEIGHT_PER_COL. lia.
    + right. reflexivity.
    + apply Forall_app. split; [assumption|]. constructor; [|constructor].
      split; assumption.
    + apply chain_snoc; [assumption|]. unfold opened_after, fits_neither.
      cbn [fst snd]. lia.
    + discriminate.
Qed.

Lemma fold_place_group_packed_well (gs : list (A * Z)) st :
  packed_well st -> packed_well (fold_left place_group (with_heights gs) st).
Proof.
  revert st. induction gs as [|g gs IH]; intros st H; [exact H|].
  cbn [with_heights map fold_left]. apply IH, place_group_packed_well, H.
Qed.

Lemma pack_init_packed_well : packed_well (@pack_init (A * Z)).
Proof.
  unfold packed_well, heights_tracked, within_budget, pack_init, MAX_HEIGHT_PER_COL.
  cbn. repeat split; try lia; auto.
Qed.

Lemma pack_groups_packed_well (gs : list (A * Z)) :
  Forall within_budget (pack_groups (with_heights gs))
  /\ chain opened_after (pack_groups (with_heights gs)).
Proof.
  unfold pack_groups.
  destruct (fold_place_group_packed_well gs _ pack_init_packed_well)
    as (_ & Hb & Hp & Hc & _).
  unfold close_last_page. destruct (_ || _).
  - split; [|assumption]. apply Forall_app. split; [assumption|].
    constructor; [assumption|constructor].
  - split; [assumption|]. eapply chain_app_l, Hc.
Qed.

Lemma fold_place_group_page_count (B : Type) (gs : list (B * Z)) (st : pack_state B) :
  (length (pages (fold_left place_group gs st)) <= length (pages st) + length gs)%nat.
Proof.
  revert st. induction gs as [|g gs IH]; intros st; simpl; [lia|].
  specialize (IH (place_group st g)).
  assert (length (pages (place_group st g)) <= S (length (pages st)))%nat; [|lia].
  destruct g as [x h]. unfold place_group, start_new_page.
  destruct (col1_height st <=? col2_height st);
    [ destruct (col1_height st + h <=? MAX_HEIGHT_PER_COL)
    | destruct (col2_height st + h <=? MAX_HEIGHT_PER_COL) ];
    cbn [pages]; rewrite ?length_app; simpl; lia.
Qed.

End PackingBudget.





(** X1. There is never more than one page per group and one more. *)
Theorem page_count_bounded :
  forall (A : Type) (groups : list (A * Z)),
    (length (pack_groups groups) <= length groups + 1)%nat.
Proof.
  intros A gs. unfold pack_groups, close_last_page.
  pose proof (fold_place_group_page_count A gs pack_init) as H. cbn [pack_init pages] in H.
  destruct (_ || _); rewrite ?length_app; simpl in *; lia.
Qed.

(** ** Pagination: the pages depend on the heights only *)

Lemma place_group_natural {T U : Type} (f : T -> U) (st : pack_state T) (g : T * Z) :
  place_group (map_state f st) (f (fst g), snd g) = map_state f (place_group st g).
Proof.
  destruct g as [x h]. unfold place_group, start_new_page, map_state.
  cbn [fst snd pages col1 col2 col1_height col2_height].
  destruct (col1_height st <=? col2_height st);
    [ destruct (col1_height st + h <=? MAX_HEIGHT_PER_COL)
    | destruct (col2_height st + h <=? MAX_HEIGHT_PER_COL) ];
    cbn [pages col1 col2 col1_height col2_height];
    rewrite ?map_app; reflexivity.
Qed.

Lemma fold_place_group_natural {T U : Type} (f : T -> U) (gs : list (T * Z))
      (st : pack_state T) :
  fold_left place_group (map (fun g => (f (fst g), snd g)) gs) (map_state f st)
  = map_state f (fold_left place_group gs st).
Proof.
  revert st. induction gs as [|g gs IH]; intros st; [reflexivity|].
  cbn [map fold_left]. now rewrite place_group_natural, IH.
Qed.

Lemma pack_groups_natural {T U : Type} (f : T -> U) (gs : list (T * Z)) :
  pack_groups (map (fun g => (f (fst g), snd g)) gs) = map (map_page f) (pack_groups gs).
Proof.
  unfold pack_groups.
  change (@pack_init U) with (map_state f (@pack_init T)).
  rewrite fold_place_group_natural. unfold close_last_page, map_state.
  cbn [pages col1 col2].
  destruct (col1 (fold_left place_group gs pack_init)),
           (col2 (fold_left place_group gs pack_init));
    cbn [map nonempty orb]; rewrite ?map_app; reflexivity.
Qed.

Lemma pack_groups_with_heights {T : Type} (gs : list (T * Z)) :
  pack_groups gs = map (map_page fst) (pack_groups (with_heights gs)).
Proof.
  rewrite <- pack_groups_natural. f_equal. unfold with_heights.
  rewrite map_map. cbn [fst snd]. symmetry. erewrite map_ext; [apply map_id|].
  now intros [x h].
Qed.

(** ** Pagination: reading order *)

Lemma placed_In {T : Type} (ps : list (page T)) (x : T) :
  In x (placed ps) <-> exists p, In p ps /\ In x (page_items p).
Proof.
  unfold placed, page_items. rewrite in_concat. split.
  - intros (l & Hl & Hx). apply in_map_iff in Hl. destruct Hl as (p & <- & Hp).
    now exists p.
  - intros (p & Hp & Hx). exists (fst p ++ snd p). split; [|assumption].
    apply in_map_iff. now exists p.
Qed.

Lemma Forall_placed_snoc {T : Type} (P : T -> Prop) (ps : list (page T)) (p : page T) :
  Forall P (placed (ps ++ [p])) <-> Forall P (placed ps) /\ Forall P (page_items p).
Proof. rewrite placed_snoc. apply Forall_app. Qed.

Lemma StronglySorted_snoc_inv {T : Type} (R : T -> T -> Prop) (l : list T) (x : T) :
  StronglySorted R (l ++ [x]) -> StronglySorted R l /\ Forall (fun a => R a x) l.
Proof.
  induction l as [|a l IH]; intros H; [split; constructor|].
  cbn in H. inversion H as [|? ? Hl Ha]; subst.
  destruct (IH Hl) as [Hs Hf]. apply Forall_app in Ha. destruct Ha as [Ha Hx].
  split; constructor; auto. now inversion Hx.
Qed.

Lemma in_reading_order_prefix (k : nat) (ps : list (page nat)) (p : page nat) :
  in_reading_order k (ps ++ [p]) -> in_reading_order k ps.
Proof.
  intros (Hc & Hs & Hk). repeat split.
  - apply Forall_app in Hc. tauto.
  - apply StronglySorted_snoc_inv in Hs. tauto.
  - apply (proj1 (Forall_placed_snoc _ _ _)) in Hk. tauto.
Qed.

Lemma place_group_reading_order (k : nat) (h : Z) (st : pack_state nat) :
  in_reading_order k (all_pages st) ->
  in_reading_order (S k) (all_pages (place_group st (k, h))).
Proof.
  unfold all_pages. intros (Hc & Hs & Hk).
  assert (Hlt : forall p x, In p (pages st ++ [(col1 st, col2 st)]) ->
                            In x (page_items p) -> (x < k)%nat).
  { intros p x Hp Hx. rewrite Forall_forall in Hk. apply Hk.
    apply placed_In. now exists p. }
  assert (Hk' : Forall (fun x => (x < S k)%nat)
                       (placed (pages st ++ [(col1 st, col2 st)]))).
  { eapply Forall_impl; [|exact Hk]. cbn. intros; lia. }
  assert (Hnew : in_reading_order (S k)
                   ((pages st ++ [(col1 st, col2 st)]) ++ [([k], [])])).
  { repeat split.
    - apply Forall_app. split; [assumption|]. repeat constructor.
    - apply StronglySorted_snoc; [assumption|]. apply Forall_forall.
      intros p Hp x y Hx [<-|[]]. now apply (Hlt p).
    - apply (proj2 (Forall_placed_snoc _ _ _)). split; [assumption|].
      repeat constructor. }
  assert (Hgrow : forall c1 c2 : list nat,
             (forall y, In y (c1 ++ c2) <-> In y (col1 st ++ col2 st) \/ y = k) ->
             StronglySorted lt c1 -> StronglySorted lt c2 ->
             in_reading_order (S k) (pages st ++ [(c1, c2)])).
  { intros c1 c2 Hin H1 H2.
    apply Forall_app in Hc. destruct Hc as [Hcp _].
    apply StronglySorted_snoc_inv in Hs. destruct Hs as [Hsp Hsl].
    repeat split.
    - apply Forall_app. split; [assumption|]. repeat constructor; assumption.
    - apply StronglySorted_snoc; [assumption|]. apply Forall_forall.
      intros p Hp x y Hx Hy. unfold page_items in Hy. cbn [fst snd] in Hy.
      apply Hin in Hy. destruct Hy as [Hy| ->].
      + rewrite Forall_forall in Hsl. now apply (Hsl p Hp x y).
      + apply (Hlt p); [|assumption]. apply in_or_app. now left.
    - apply (proj1 (Forall_placed_snoc _ _ _)) in Hk'. destruct Hk' as [Hkp Hkl].
      apply (proj2 (Forall_placed_snoc _ _ _)). split; [assumption|].
      apply Forall_forall. unfold page_items in *. cbn [fst snd] in *.
      intros y Hy. apply Hin in Hy. destruct Hy as [Hy| ->]; [|lia].
      rewrite Forall_forall in Hkl. now apply Hkl. }
  assert (Hcols : columns_in_order (col1 st, col2 st)).
  { apply Forall_app in Hc. destruct Hc as [_ Hc]. now inversion Hc. }
  destruct Hcols as [Hs1 Hs2]. cbn [fst snd] in Hs1, Hs2.
  assert (Hcur : forall x, In x (col1 st ++ col2 st) -> (x < k)%nat).
  { intros x Hx. apply (Hlt (col1 st, col2 st)); [|exact Hx].
    apply in_or_app. right. now left. }
  unfold place_group, start_new_page.
  destruct (col1_height st <=? col2_height st);
    [ destruct (col1_height st + h <=? MAX_HEIGHT_PER_COL)
    | destruct (col2_height st + h <=? MAX_HEIGHT_PER_COL) ];
    cbn [pages col1 col2]; try exact Hnew.
  - apply Hgrow; [| |assumption].
    + intros y. rewrite !in_app_iff. cbn. intuition.
    + apply StronglySorted_snoc; [assumption|]. apply Forall_forall.
      intros x Hx. apply Hcur, in_or_app. now left.
  - apply Hgrow; [|assumption|].
    + intros y. rewrite !in_app_iff. cbn. intuition.
    + apply StronglySorted_snoc; [assumption|]. apply Forall_forall.
      intros x Hx. apply Hcur, in_or_app. now right.
Qed.

Lemma fold_place_group_reading_order (hs : list Z) (k : nat) (st : pack_state nat) :
  in_reading_order k (all_pages st) ->
  in_reading_order (k + length hs)
    (all_pages (fold_left place_group (combine (seq k (length hs)) hs) st)).
Proof.
  revert k st. induction hs as [|h hs IH]; intros k st H.
  - cbn. now rewrite Nat.add_0_r.
  - cbn [length seq combine fold_left].
    replace (k + S (length hs))%nat with (S k + length hs)%nat by lia.
    apply IH, place_group_reading_order, H.
Qed.

(** Reading order is kept: with the groups numbered by their position
    in the input, the positions grow down every column, and every group of
    a page comes before every group of the pages after it. *)
Theorem pages_in_reading_order :
  forall (A : Type) (groups : list (A * Z)),
    let ps := pack_groups (tag_positions groups) in
    Forall columns_in_order ps /\ StronglySorted page_before ps.
Proof.
  intros A gs ps. subst ps. unfold pack_groups, tag_positions.
  assert (H0 : in_reading_order 0 (all_pages (@pack_init nat))).
  { unfold all_pages, pack_init. cbn. repeat split; repeat constructor. }
  pose proof (fold_place_group_reading_order (map snd gs) 0 _ H0) as H.
  rewrite length_map in H. cbn [Nat.add] in H.
  set (st := fold_left place_group (combine (seq 0 (length gs)) (map snd gs)) pack_init)
    in *.
  unfold close_last_page. destruct (_ || _).
  - destruct H as (Hc & Hs & _). now split.
  - apply in_reading_order_prefix in H. destruct H as (Hc & Hs & _). now split.
Qed.

Lemma positioned_projections {T : Type} (gs : list (T * Z)) :
  map (fun g => (fst (fst g), snd g)) (positioned gs) = tag_positions gs
  /\ map (fun g => (snd (fst g), snd g)) (positioned gs) = gs.
Proof.
  unfold positioned, tag_positions. rewrite !map_map. cbn [fst snd].
  generalize 0%nat. induction gs as [|[x h] gs IH]; intros n; [now split|].
  cbn [length seq combine map fst snd]. destruct (IH (S n)) as [H1 H2].
  split; f_equal; assumption.
Qed.

(** The pages of the positions and the pages of the fragments are the two
    sides of the same pages. *)
Lemma pack_groups_positioned {T : Type} (gs : list (T * Z)) :
  pack_groups (tag_positions gs) = map (map_page fst) (pack_groups (positioned gs))
  /\ pack_groups gs = map (map_page snd) (pack_groups (positioned gs)).
Proof.
  destruct (positioned_projections gs) as [H1 H2].
  rewrite <- !pack_groups_natural. now rewrite H1, H2.
Qed.

(** On every page column 2 is within the budget of 255, and column 1 is
    within it too unless it holds one group alone; the pages are those of
    the fragments, each fragment with its height. *)
Theorem columns_within_budget :
  forall (A : Type) (groups : list (A * Z)),
    pack_groups groups = map (map_page fst) (pack_groups (with_heights groups))
    /\ Forall within_budget (pack_groups (with_heights groups)).
Proof.
  intros A gs. split; [apply pack_groups_with_heights|apply pack_groups_packed_well].
Qed.

(** X4. A page is closed only when the next group fits in neither of its
    columns: the first group of every page after the first would have
    exceeded the budget in both columns of the page before. *)
Theorem pages_tightly_packed :
  forall (A : Type) (groups : list (A * Z)),
    pack_groups groups = map (map_page fst) (pack_groups (with_heights groups))
    /\ chain opened_after (pack_groups (with_heights groups)).
Proof.
  intros A gs. split; [apply pack_groups_with_heights|apply pack_groups_packed_well].
Qed.

(** ** Pagination: short resumes *)

Lemma place_group_fits {T : Type} (st : pack_state T) (x : T) (h : Z) :
  pages st = [] -> 0 <= col1_height st -> 0 <= col2_height st -> 0 <= h ->
  col1_height st + col2_height st + h <= MAX_HEIGHT_PER_COL ->
  pages (place_group st (x, h)) = []
  /\ 0 <= col1_height (place_group st (x, h))
  /\ 0 <= col2_height (place_group st (x, h))
  /\ col1_height (place_group st (x, h)) + col2_height (place_group st (x, h))
     = col1_height st + col2_height st + h.
Proof.
  intros Hp H1 H2 Hh Hsum. unfold place_group, start_new_page.
  destruct (col1_height st <=? col2_height st) eqn:E12;
    [ destruct (col1_height st + h <=? MAX_HEIGHT_PER_COL) eqn:Ef
    | destruct (col2_height st + h <=? MAX_HEIGHT_PER_COL) eqn:Ef ];
    cbn [pages col1_height col2_height].
  - repeat split; try assumption; lia.
  - apply Z.leb_gt in Ef. lia.
  - repeat split; try assumption; lia.
  - apply Z.leb_gt in Ef. lia.
Qed.

Lemma sum_heights_nonneg {T : Type} (gs : list (T * Z)) :
  Forall (fun g => 0 <= snd g) gs -> 0 <= sum_heights gs.
Proof.
  induction 1 as [|g l Hg _ IHl]; cbn; [lia|]. fold (sum_heights l). lia.
Qed.

Lemma fold_place_group_no_new_page {T : Type} (gs : list (T * Z)) (st : pack_state T) :
  pages st = [] -> 0 <= col1_height st -> 0 <= col2_height st ->
  Forall (fun g => 0 <= snd g) gs ->
  col1_height st + col2_height st + sum_heights gs <= MAX_HEIGHT_PER_COL ->
  pages (fold_left place_group gs st) = [].
Proof.
  revert st. induction gs as [|[x h] gs IH]; intros st Hp H1 H2 Hpos Hsum; [exact Hp|].
  inversion Hpos as [|? ? Hh Hpos']; subst. cbn [snd] in Hh.
  cbn [sum_heights fold_right snd] in Hsum. fold (sum_heights gs) in Hsum.
  pose proof (sum_heights_nonneg gs Hpos') as Hs.
  destruct (place_group_fits st x h Hp H1 H2 Hh ltac:(lia)) as (Hp' & H1' & H2' & E).
  cbn [fold_left]. apply IH; try assumption. lia.
Qed.

(** Groups of no negative height that add up to the budget at most go on
    one page. *)
Lemma pack_groups_single_page {T : Type} (gs : list (T * Z)) :
  gs <> [] -> Forall (fun g => 0 <= snd g) gs ->
  sum_heights gs <= MAX_HEIGHT_PER_COL ->
  length (pack_groups gs) = 1%nat.
Proof.
  intros Hne Hpos Hsum. unfold pack_groups.
  pose proof (fold_place_group_no_new_page gs pack_init eq_refl) as Hp.
  cbn [pack_init col1_height col2_height] in Hp.
  specialize (Hp ltac:(lia) ltac:(lia) Hpos ltac:(lia)).
  pose proof (held_fold_place_group gs pack_init) as Hh.
  unfold held in Hh. rewrite Hp in Hh. cbn [pack_init pages col1 col2 placed map concat app]
    in Hh.
  unfold close_last_page. rewrite Hp.
  destruct (col1 (fold_left place_group gs pack_init)) as [|a c1];
    [destruct (col2 (fold_left place_group gs pack_init)) as [|b c2]|]; cbn; try reflexivity.
  exfalso. apply Permutation_nil in Hh. destruct gs; [contradiction|discriminate].
Qed.

Lemma render_and_estimate_heights now (anonymize : bool) (lang : language)
      (grouped_work : groups) (out : list (string * Z)) :
  map_r (render_and_estimate now anonymize lang) grouped_work = Ok out ->
  map snd out = map estimated_height grouped_work.
Proof.
  intros H. apply map_r_Forall2 in H.
  induction H as [|[company es] y l l' Hy _ IH]; [reflexivity|].
  cbn [map]. f_equal; [|exact IH].
  unfold render_and_estimate in Hy. apply bind_Ok in Hy.
  destruct Hy as (html & _ & [= <-]). reflexivity.
Qed.

Lemma sum_heights_estimated (out : list (string * Z)) (grouped_work : groups) :
  map snd out = map estimated_height grouped_work ->
  sum_heights out = Z.of_nat (total_size grouped_work) * AVG_EXP_HEIGHT
  /\ Forall (fun g => 0 <= snd g) out.
Proof.
  revert grouped_work. induction out as [|[x h] out IH]; intros [|g gw] H;
    try discriminate; [split; [reflexivity|constructor]|].
  cbn [map snd] in H.
  assert (Hh : h = estimated_height g) by congruence.
  assert (Ht : map snd out = map estimated_height gw) by congruence.
  destruct (IH gw Ht) as [IH1 IH2]. subst h.
  assert (Hg : 0 <= estimated_height g)
    by (unfold estimated_height, AVG_EXP_HEIGHT; lia).
  split; [|constructor; assumption].
  change (sum_heights ((x, estimated_height g) :: out))
    with (estimated_height g + sum_heights out).
  rewrite IH1.
  change (total_size (g :: gw)) with (length (snd g) + total_size gw)%nat.
  unfold estimated_height, AVG_EXP_HEIGHT. lia.
Qed.

Lemma group_nonempty (work_list : list work_entry) :
  work_list <> [] -> group_experiences_by_company work_list <> [].
Proof.
  intros Hne Hg. pose proof (total_size_group work_list) as H.
  rewrite Hg in H. destruct work_list; [contradiction|discriminate].
Qed.

(** ** Dates: what parses, and what the duration does at the edges *)

Lemma digit_char_facts (n : Z) :
  0 <= n <= 9 ->
  is_digit (digit_char n) = true /\ digit_value (digit_char n) = n.
Proof.
  intros H.
  assert (E : exists k : nat, (k < 10)%nat /\ n = Z.of_nat k)
    by (exists (Z.to_nat n); lia).
  destruct E as (k & Hk & ->).
  do 10 (destruct k as [|k]; [split; reflexivity|]). lia.
Qed.

Lemma year_text_parses (year : Z) (rest : string) :
  1 <= year <= 9999 ->
  strptime_Y_m (year_text year ++ String "-" rest)
  = match month_prefix rest with
    | Some (month, EmptyString) => Some (year, month)
    | _ => None
    end.
Proof.
  intros Hy. unfold year_text. cbn [String.append]. unfold strptime_Y_m.
  assert (H3 : 0 <= year / 1000 <= 9) by (Z.div_mod_to_equations; lia).
  assert (H2 : 0 <= year / 100 mod 10 <= 9) by (Z.div_mod_to_equations; lia).
  assert (H1 : 0 <= year / 10 mod 10 <= 9) by (Z.div_mod_to_equations; lia).
  assert (H0 : 0 <= year mod 10 <= 9) by (Z.div_mod_to_equations; lia).
  destruct (digit_char_facts _ H3) as [-> ->].
  destruct (digit_char_facts _ H2) as [-> ->].
  destruct (digit_char_facts _ H1) as [-> ->].
  destruct (digit_char_facts _ H0) as [-> ->].
  cbn [andb]. replace (Ascii.eqb "-" "-") with true by reflexivity.
  assert (E : 1000 * (year / 1000) + 100 * (year / 100 mod 10)
              + 10 * (year / 10 mod 10) + year mod 10 = year)
    by (Z.div_mod_to_equations; lia).
  rewrite E. destruct (month_prefix rest) as [[m [|c r]]|]; try reflexivity.
  replace (1 <=? year) with true by (symmetry; apply Z.leb_le; lia). reflexivity.
Qed.

Lemma month_text_parses (month : Z) :
  1 <= month <= 12 ->
  month_prefix (String (digit_char (month / 10))
                       (String (digit_char (month mod 10)) EmptyString))
  = Some (month, EmptyString).
Proof.
  intros H.
  assert (E : month = 1 \/ month = 2 \/ month = 3 \/ month = 4 \/ month = 5 \/ month = 6
              \/ month = 7 \/ month = 8 \/ month = 9 \/ month = 10 \/ month = 11
              \/ month = 12) by lia.
  repeat (destruct E as [->|E]; [reflexivity|]). subst. reflexivity.
Qed.

Lemma short_month_text_parses (month : Z) :
  1 <= month <= 9 ->
  month_prefix (String (digit_char month) EmptyString) = Some (month, EmptyString).
Proof.
  intros H.
  assert (E : month = 1 \/ month = 2 \/ month = 3 \/ month = 4 \/ month = 5 \/ month = 6
              \/ month = 7 \/ month = 8 \/ month = 9) by lia.
  repeat (destruct E as [->|E]; [reflexivity|]). subst. reflexivity.
Qed.

Lemma parse_date_iso_month (year month : Z) :
  1 <= year <= 9999 -> 1 <= month <= 12 ->
  parse_date (iso_month year month) = Some (year, month).
Proof.
  intros Hy Hm. unfold parse_date, iso_month.
  replace (truthy _) with true by reflexivity. cbn [negb].
  change (year_text year ++ "-" ++ ?r)%string with (year_text year ++ String "-" r)%string.
  rewrite (year_text_parses year _ Hy), (month_text_parses month Hm). reflexivity.
Qed.

(** X5. Every date from 0001-01 to 9999-12 written YYYY-MM parses to its year
    and month and is shown as the abbreviation of the month in the table of
    the language followed by the year; the month may also be written
    without its leading zero. *)
Theorem written_dates_parse :
  forall (year month : Z) (lang : language),
    1 <= year <= 9999 -> 1 <= month <= 12 ->
    parse_date (iso_month year month) = Some (year, month)
    /\ format_date (iso_month year month) lang
       = (nth (Z.to_nat (month - 1)) (l_months_list (LABELS lang)) EmptyString
          ++ " " ++ str_of_int year)%string
    /\ (month <= 9 -> parse_date (short_month year month) = Some (year, month)).
Proof.
  intros year month lang Hy Hm.
  pose proof (parse_date_iso_month year month Hy Hm) as Hp.
  split; [exact Hp|]. split.
  - unfold format_date. rewrite Hp. reflexivity.
  - intros Hs. unfold parse_date, short_month.
    replace (truthy _) with true by reflexivity. cbn [negb].
    change (year_text year ++ "-" ++ ?r)%string
      with (year_text year ++ String "-" r)%string.
    rewrite (year_text_parses year _ Hy), short_month_text_parses by lia. reflexivity.
Qed.

Lemma written_dates_parse_witness :
  iso_month 2019 12 = "2019-12"%string
  /\ parse_date "2019-12" = Some (2019, 12)
  /\ format_date "2019-12" Fr = "Déc 2019"%string.
Proof.
  split; [reflexivity|].
  destruct (written_dates_parse 2019 12 Fr ltac:(lia) ltac:(lia)) as (Hp & Hf & _).
  split; [exact Hp|exact Hf].
Defined.

(** X6. An engagement without end date has the duration it would have if it
    ended in the month of the run. *)
Theorem open_ended_duration :
  forall (now : Z * Z) (start : string) (lang : language) (other : Z * Z),
    valid_date now ->
    calculate_duration now start EmptyString lang
    = calculate_duration other start (iso_month (fst now) (snd now)) lang.
Proof.
  intros [ny nm] start lang other [Hy Hm]. cbn [fst snd] in *.
  unfold calculate_duration.
  rewrite (parse_date_iso_month ny nm Hy Hm).
  replace (truthy (iso_month ny nm)) with true by reflexivity. reflexivity.
Qed.

Lemma open_ended_duration_witness :
  valid_date Samples.today
  /\ calculate_duration Samples.today "2019-06" EmptyString Fr
     = calculate_duration (2000, 1) "2019-06" "2026-11" Fr.
Proof.
  split; [unfold valid_date, Samples.today; cbn; lia|].
  apply (open_ended_duration Samples.today "2019-06"%string Fr (2000, 1)).
  unfold valid_date, Samples.today; cbn; lia.
Defined.

(** X7. The duration raises in one case only, and then on the year of [None]:
    the start parses and the end is set but does not parse.  In every other
    case it returns a text, the empty one when the start does not parse. *)
Theorem duration_raises_exactly_when :
  forall (now : Z * Z) (start end_ : string) (lang : language),
    (forall e, calculate_duration now start end_ lang = Raise e <->
               e = AttributeError /\ parse_date start <> None
               /\ truthy end_ = true /\ parse_date end_ = None)
    /\ (parse_date start = None -> calculate_duration now start end_ lang = Ok EmptyString)
    /\ (truthy end_ = false \/ parse_date end_ <> None ->
        exists text, calculate_duration now start end_ lang = Ok text).
Proof.
  intros now start end_ lang. split; [intros e; apply calculate_duration_raises|].
  split; [apply calculate_duration_unparseable_start|].
  intros H. destruct (calculate_duration now start end_ lang) as [text|e] eqn:E;
    [now exists text|].
  apply calculate_duration_raises in E. destruct E as (_ & _ & Ht & Hp).
  destruct H as [H|H]; [congruence|contradiction].
Qed.

Lemma str_of_int_negative (n : Z) :
  n < 0 -> exists digits, str_of_int n = String "-" digits.
Proof.
  destruct n as [|p|p]; try lia. intros _. unfold str_of_int. cbn.
  eexists. reflexivity.
Qed.

(** X8. The duration is not clamped: when the end date is before the start date
    the number of years is negative and the text starts with a minus sign,
    as in "-1 ans 11 mois" for an end one month before the start. *)
Theorem duration_of_reversed_dates :
  forall (now : Z * Z) (start end_ : string) (lang : language)
         (start_year start_month end_year end_month : Z),
    parse_date start = Some (start_year, start_month) ->
    parse_date end_ = Some (end_year, end_month) ->
    end_year * 12 + end_month < start_year * 12 + start_month ->
    exists rest,
      calculate_duration now start end_ lang = Ok (String "-" rest).
Proof.
  intros now start end_ lang sy sm ey em Hs He Hlt.
  unfold calculate_duration. rewrite Hs, He, (parse_date_truthy _ _ He).
  set (months := (ey - sy) * 12 + (em - sm)).
  assert (Hy : months / 12 < 0) by (subst months; Z.div_mod_to_equations; lia).
  destruct (str_of_int_negative _ Hy) as (digits & Hd).
  replace (months / 12 =? 0) with false by (symmetry; apply Z.eqb_neq; lia).
  rewrite Hd. destruct (months mod 12 =? 0); eexists; reflexivity.
Qed.

Lemma duration_of_reversed_dates_witness :
  parse_date "2020-03" = Some (2020, 3)
  /\ parse_date "2020-02" = Some (2020, 2)
  /\ calculate_duration Samples.today "2020-03" "2020-02" Fr = Ok "-1 ans 11 mois"%string
  /\ exists rest,
      calculate_duration Samples.today "2020-03" "2020-02" Fr = Ok (String "-" rest).
Proof.
  split; [reflexivity|]. split; [reflexivity|]. split; [reflexivity|].
  apply (duration_of_reversed_dates Samples.today "2020-03"%string "2020-02"%string Fr
                                    2020 3 2020 2 eq_refl eq_refl).
  lia.
Defined.

Lemma prefix_app_same (a x s : string) :
  String.prefix (a ++ x) (a ++ s) = String.prefix x s.
Proof.
  induction a as [|c a IH]; [reflexivity|]. cbn [String.append String.prefix].
  destruct (ascii_dec c c); [exact IH|contradiction].
Qed.

Lemma contains_of_prefix (x s : string) :
  String.prefix x s = true -> contains x s = true.
Proof. intros H. now rewrite contains_unfold, H. Qed.

Ltac shown_here :=
  apply contains_of_prefix; rewrite ?prefix_app_same; apply prefix_append.

Ltac shown := repeat first [ solve [shown_here] | apply contains_after ].

(** X9. For a company with one engagement the summary card and the detail
    block agree: whenever both are rendered, the card of the company shows
    the two dates of the engagement as its period and the duration of the
    engagement, and the block of the engagement shows the same two dates
    and the same duration. *)
Theorem single_engagement_consistent :
  forall (now : Z * Z) (lang : language) (anonymize : bool) (company color : string)
         (e : work_entry) (startDate endDate card block : string),
    w_startDate e = Some startDate -> w_endDate e = Some endDate ->
    render_company_summary now anonymize lang (company, [e]) = Ok card ->
    render_experience now company color anonymize lang e = Ok block ->
    exists duration,
      calculate_duration now startDate endDate lang = Ok duration
      /\ contains (card_period lang startDate endDate) card = true
      /\ contains (card_duration duration) card = true
      /\ contains (block_dates lang startDate endDate duration) block = true.
Proof.
  intros now lang an company color e s t card block Hs Ht Hcard Hblock.
  assert (Es : earliest_start [e] = s).
  { unfold earliest_start, all_starts. cbn. rewrite Hs. cbn.
    destruct s; reflexivity. }
  assert (Et : latest_end [e] = t).
  { unfold latest_end, all_ends. cbn. rewrite Ht. cbn.
    destruct t; reflexivity. }
  unfold render_company_summary in Hcard. rewrite Es, Et in Hcard.
  apply bind_Ok in Hcard. destruct Hcard as (roles & _ & Hcard).
  apply bind_Ok in Hcard. destruct Hcard as (duration & Hd & Hcard).
  exists duration. split; [exact Hd|].
  unfold company_period in Hcard. rewrite Es, Et in Hcard.
  unfold render_experience in Hblock. rewrite Hs, Ht in Hblock.
  apply bind_Ok in Hblock. destruct Hblock as (name & _ & Hblock).
  apply bind_Ok in Hblock. destruct Hblock as (position & _ & Hblock).
  cbn [item_of bind] in Hblock. rewrite Hd in Hblock. cbn [bind] in Hblock.
  assert (Ec : card = _)
    by (symmetry;
        exact (f_equal (fun r => match r with Ok v => v | Raise _ => card end) Hcard)).
  assert (Eb : block = _)
    by (symmetry;
        exact (f_equal (fun r => match r with Ok v => v | Raise _ => block end) Hblock)).
  clear Hcard Hblock.
  unfold card_period, card_duration, block_dates.
  split; [|split].
  - rewrite Ec. rewrite !append_assoc. shown.
  - rewrite Ec. shown.
  - rewrite Eb. shown.
Qed.

Lemma single_engagement_consistent_witness :
  exists card block,
    render_company_summary
      Samples.today false Fr
      ("Natixis"%string, [Samples.plain_entry "Natixis" "Dev" "2015-01" "2017-06"])
    = Ok card
    /\ render_experience Samples.today "Natixis" "c-sf" false Fr
                         (Samples.plain_entry "Natixis" "Dev" "2015-01" "2017-06")
       = Ok block
    /\ exists duration,
        calculate_duration Samples.today "2015-01" "2017-06" Fr = Ok duration
        /\ contains (card_period Fr "2015-01" "2017-06") card = true
        /\ contains (card_duration duration) card = true
        /\ contains (block_dates Fr "2015-01" "2017-06" duration) block = true.
Proof.
  eexists. eexists. split; [vm_compute; reflexivity|]. split; [vm_compute; reflexivity|].
  apply (single_engagement_consistent
           Samples.today Fr false "Natixis" "c-sf"
           (Samples.plain_entry "Natixis" "Dev" "2015-01" "2017-06")
           "2015-01" "2017-06");
    vm_compute; reflexivity.
Defined.

(** ** Anonymization: texts without a client name *)

Lemma sub_without_match (icase : bool) (items : pattern) (repl : template) :
  forall prev (s : string),
    search_from icase items prev s = None ->
    sub_from icase items repl prev s 0 = s.
Proof.
  intros prev s. revert prev. induction s as [|c t IH]; intros prev H; [reflexivity|].
  cbn [search_from] in H. cbn [sub_from].
  destruct (match_items icase items prev (String c t) no_marks) as [[s' g]|];
    [discriminate|].
  now rewrite IH.
Qed.

Lemma fold_rules_without_match (rules : list (pattern * template * string))
      (text : string) :
  forallb (fun rule : pattern * template * string =>
             negb (is_some (Re.search true (fst (fst rule)) text))) rules = true ->
  fold_left (fun result rule => Re.sub true (fst (fst rule)) (snd (fst rule)) result)
            rules text = text.
Proof.
  induction rules as [|rule rules IH]; intros H; [reflexivity|].
  cbn [forallb] in H. apply andb_true_iff in H. destruct H as [Hr H].
  cbn [fold_left]. unfold Re.search in Hr.
  destruct (search_from true (fst (fst rule)) None text) eqn:E; [discriminate|].
  replace (Re.sub true (fst (fst rule)) (snd (fst rule)) text) with text
    by (symmetry; apply (sub_without_match _ _ _ _ _ E)).
  now apply IH.
Qed.

(** A text in which no rule has a match is left as it is, so it stays the
    same however many times it is anonymized on its way to the page. *)
Theorem anonymize_text_without_match :
  forall text : string,
    no_rule_matches text = true ->
    anonymize_text text = text
    /\ anonymize_text (anonymize_text (anonymize_text text)) = text.
Proof.
  intros text H. assert (E : anonymize_text text = text).
  { unfold anonymize_text. now apply fold_rules_without_match. }
  split; [exact E|]. now rewrite !E.
Qed.

Lemma anonymize_text_without_match_witness :
  no_rule_matches "Architecte logiciel, groupes de travail" = true
  /\ anonymize_text "Architecte logiciel, groupes de travail"
     = "Architecte logiciel, groupes de travail"%string.
Proof.
  split; [vm_compute; reflexivity|].
  apply (anonymize_text_without_match "Architecte logiciel, groupes de travail"%string).
  vm_compute. reflexivity.
Defined.

(** ** Companies: normalizing twice, and groups that are never empty *)

Lemma lstrip_fixed (s : string) :
  match head_opt s with Some c => is_space c = false | None => True end ->
  lstrip s = s.
Proof. destruct s as [|c t]; [reflexivity|]. cbn. now intros ->. Qed.

Lemma rstrip_fixed (s : string) :
  match last_char s with Some c => is_space c = false | None => True end ->
  rstrip s = s.
Proof.
  induction s as [|c t IH]; [reflexivity|]. cbn [last_char rstrip].
  destruct t as [|d u]; [cbn; now intros ->|].
  intros H. rewrite (IH H). reflexivity.
Qed.

Lemma strip_of_trimmed (s : string) : trimmed s = true -> strip s = s.
Proof.
  unfold trimmed, strip. intros H. apply andb_true_iff in H. destruct H as [Hh Hl].
  rewrite lstrip_fixed.
  - apply rstrip_fixed. destruct (last_char s); [|exact I].
    now apply negb_true_iff in Hl.
  - destruct (head_opt s); [|exact I]. now apply negb_true_iff in Hh.
Qed.

(** X11. Normalizing a normalized name changes nothing: the name of a company as
    it keys a group is its own normalized name. *)
Theorem get_company_name_idempotent :
  forall e : work_entry,
    get_company_name (rename e (get_company_name e)) = get_company_name e.
Proof.
  intros e. set (r := get_company_name e).
  unfold get_company_name at 1. cbn [rename w_name get_or_empty]. unfold Re.sub.
  change (sub_from false parenthetical [] None r 0) with (strip_parens None r 0).
  rewrite strip_parens_without_pair by apply get_company_name_paren_free.
  apply strip_of_trimmed, strip_trimmed.
Qed.

Lemma entries_of_present (company : string) (work_list : list work_entry) :
  In company (map get_company_name work_list) -> entries_of company work_list <> [].
Proof.
  intros H. apply in_map_iff in H. destruct H as (w & Hw & Hin).
  assert (Hf : In w (entries_of company work_list)).
  { unfold entries_of. apply filter_In. split; [assumption|]. now apply String.eqb_eq. }
  intros E. now rewrite E in Hf.
Qed.

(** No group is empty: every company of the grouping has at least one
    entry, so its estimated height is at least that of one entry. *)
Theorem groups_never_empty :
  forall work_list : list work_entry,
    Forall (fun g => snd g <> [] /\ AVG_EXP_HEIGHT <= estimated_height g)
           (group_experiences_by_company work_list).
Proof.
  intros ws. rewrite group_characterization. apply Forall_forall.
  intros g Hg. apply in_map_iff in Hg. destruct Hg as (k & <- & Hk).
  apply (proj1 (fromkeys_In _ _)) in Hk. pose proof (entries_of_present _ _ Hk) as Hne.
  split; [exact Hne|]. unfold estimated_height, AVG_EXP_HEIGHT. cbn [snd].
  destruct (entries_of k ws); [contradiction|]. cbn [length]. lia.
Qed.

(** ** When a document is generated *)

Lemma succeeds_bind {T U : Type} (x : result T) (k : T -> result U) :
  succeeds x -> (forall v, x = Ok v -> succeeds (k v)) -> succeeds (bind x k).
Proof. intros (v & ->) H. cbn. now apply H. Qed.

Lemma succeeds_map_r {T U : Type} (f : T -> result U) (l : list T) :
  (forall x, In x l -> succeeds (f x)) -> succeeds (map_r f l).
Proof.
  induction l as [|x l IH]; intros H; [now exists []|].
  cbn [map_r]. apply succeeds_bind; [apply H; now left|]. intros y _.
  apply succeeds_bind; [apply IH; intros z Hz; apply H; now right|].
  intros ys _. now exists (y :: ys).
Qed.

Lemma succeeds_item_of {T : Type} (key : string) (o : option T) :
  is_some o = true -> succeeds (item_of key o).
Proof. destruct o as [v|]; [now exists v|discriminate]. Qed.

Lemma map_r_Ok_forallb {T U : Type} (f : T -> result U) (p : T -> bool)
      (l : list T) (out : list U) :
  (forall x y, f x = Ok y -> p x = true) ->
  map_r f l = Ok out -> forallb p l = true.
Proof.
  intros Hp H. apply map_r_Forall2 in H.
  induction H as [|x y l l' Hxy _ IH]; [reflexivity|].
  cbn [forallb]. now rewrite (Hp x y Hxy), IH.
Qed.

Lemma render_sidebar_succeeds (r : resume) (anonymize : bool) (lang : language) :
  succeeds (render_sidebar (basics r) (skills r) (education r) (certificates r)
                           (languages r) (interests r) anonymize lang)
  <-> sidebar_keys_ok r = true.
Proof.
  unfold sidebar_keys_ok, render_sidebar. split.
  - intros (html & H).
    apply bind_Ok in H. destruct H as (sk & Hsk & H).
    apply bind_Ok in H. destruct H as (ce & Hce & H).
    apply bind_Ok in H. destruct H as (la & Hla & H).
    apply bind_Ok in H. destruct H as (it & Hit & _).
    apply (map_r_Ok_forallb _ (fun s => is_some (sk_name s))) in Hsk.
    2:{ intros s y. unfold render_skill. now destruct (sk_name s). }
    apply (map_r_Ok_forallb _ (fun c => is_some (ce_name c))) in Hce.
    2:{ intros c y. unfold render_certificate. now destruct (ce_name c). }
    apply (map_r_Ok_forallb _ (fun l => is_some (la_language l) && is_some (la_fluency l))%bool) in Hla.
    2:{ intros l y. unfold render_language.
        destruct (la_language l); [|discriminate]. now destruct (la_fluency l). }
    apply (map_r_Ok_forallb _ (fun i => is_some (in_name i))) in Hit.
    2:{ intros i y. unfold render_interest. now destruct (in_name i). }
    now rewrite Hsk, Hce, Hla, Hit.
  - intros H. apply andb_true_iff in H. destruct H as [H Hit].
    apply andb_true_iff in H. destruct H as [H Hla].
    apply andb_true_iff in H. destruct H as [Hsk Hce].
    rewrite forallb_forall in Hsk, Hce, Hla, Hit.
    apply succeeds_bind.
    { apply succeeds_map_r. intros s Hs. unfold render_skill.
      apply succeeds_bind; [apply succeeds_item_of, Hsk, Hs|]. intros; eexists; reflexivity. }
    intros sk _. apply succeeds_bind.
    { apply succeeds_map_r. intros c Hc. unfold render_certificate.
      apply succeeds_bind; [apply succeeds_item_of, Hce, Hc|]. intros; eexists; reflexivity. }
    intros ce _. apply succeeds_bind.
    { apply succeeds_map_r. intros l Hl. unfold render_language.
      specialize (Hla l Hl). apply andb_true_iff in Hla. destruct Hla as [H1 H2].
      apply succeeds_bind; [now apply succeeds_item_of|]. intros ? _.
      apply succeeds_bind; [now apply succeeds_item_of|]. intros; eexists; reflexivity. }
    intros la _. apply succeeds_bind.
    { apply succeeds_map_r. intros i Hi. unfold render_interest.
      apply succeeds_bind; [apply succeeds_item_of, Hit, Hi|]. intros; eexists; reflexivity. }
    intros it _. eexists; reflexivity.
Qed.

(** The sidebar is rendered exactly when every skill, certificate and
    interest has a name and every language its name and fluency; education
    entries and the contact fields may miss any key.  When it is not, the
    exception is a [KeyError]. *)
Theorem sidebar_renders_exactly_when :
  forall (r : resume) (anonymize : bool) (lang : language),
    (succeeds (render_sidebar (basics r) (skills r) (education r) (certificates r)
                              (languages r) (interests r) anonymize lang)
     <-> sidebar_keys_ok r = true)
    /\ key_errors_only (render_sidebar (basics r) (skills r) (education r)
                                       (certificates r) (languages r) (interests r)
                                       anonymize lang).
Proof.
  intros r an lang. split; [apply render_sidebar_succeeds|].
  apply render_sidebar_key_errors_only.
Qed.

Lemma calculate_duration_succeeds now (start end_ : string) (lang : language) :
  (truthy end_ = true -> parse_date end_ <> None) ->
  succeeds (calculate_duration now start end_ lang).
Proof.
  intros H. destruct (calculate_duration now start end_ lang) as [v|e] eqn:E;
    [now exists v|].
  apply calculate_duration_raises in E. destruct E as (_ & _ & Ht & Hp).
  now apply H in Ht.
Qed.

Lemma render_pages_succeed now (r : resume) (anonymize : bool) (lang : language) :
  sidebar_keys_ok r = true ->
  Forall (fun e => has_required_keys e = true) (work r) ->
  Forall (fun e => end_date_ok e = true) (work r) ->
  succeeds (render_page_1 now r anonymize lang)
  /\ succeeds (render_detail_pages now r anonymize lang).
Proof.
  intros Hside Hkeys Hdates. rewrite Forall_forall in Hkeys, Hdates.
  apply render_sidebar_succeeds with (anonymize := anonymize) (lang := lang) in Hside.
  split.
  - unfold render_page_1. apply succeeds_bind; [exact Hside|]. intros sidebar _.
    apply succeeds_bind; [|intros; eexists; reflexivity].
    apply succeeds_map_r. intros [company es] Hg. unfold render_company_summary.
    apply succeeds_bind.
    + apply succeeds_map_r. intros e He. unfold role_of.
      apply succeeds_bind; [|intros; eexists; reflexivity].
      apply succeeds_item_of. assert (Hk := Hkeys e (group_members _ _ _ _ Hg He)).
      unfold has_required_keys in Hk. now destruct (w_name e), (w_position e).
    + intros roles _. apply succeeds_bind; [|intros; eexists; reflexivity].
      apply calculate_duration_succeeds, latest_end_parses.
      apply Forall_forall. intros e He. apply Hdates. eapply group_members; eauto.
  - unfold render_detail_pages, split_experiences_into_pages.
    apply succeeds_bind; [exact Hside|]. intros sidebar _.
    apply succeeds_bind; [|intros; eexists; reflexivity].
    apply succeeds_bind; [|intros; eexists; reflexivity].
    apply succeeds_map_r. intros [company es] Hg.
    unfold render_and_estimate, render_experience_group.
    apply succeeds_bind; [|intros; eexists; reflexivity].
    apply succeeds_bind; [|intros; eexists; reflexivity].
    apply succeeds_map_r. intros e He.
    assert (Hin := group_members _ _ _ _ Hg He).
    apply render_experience_total; [now apply Hkeys|now apply Hdates].
Qed.

(** X14. A document is generated whenever the sidebar has its keys, every work
    entry has name, position, startDate and endDate, and every end date is
    empty or parses; and it is generated only if the sidebar and the work
    entries have those keys. *)
Theorem document_generated_when :
  forall (template_content : string) (now : Z * Z) (r : resume)
         (anonymize : bool) (lang : language),
    (sidebar_keys_ok r = true ->
     forallb has_required_keys (work r) = true ->
     forallb end_date_ok (work r) = true ->
     succeeds (generate_html template_content now r anonymize lang))
    /\ (succeeds (generate_html template_content now r anonymize lang) ->
        sidebar_keys_ok r = true /\ forallb has_required_keys (work r) = true).
Proof.
  intros tpl now r an lang. split.
  - intros Hside Hkeys Hdates.
    rewrite forallb_forall in Hkeys, Hdates.
    unfold generate_html. apply succeeds_bind.
    + destruct an; [|eexists; reflexivity].
      apply succeeds_bind; [|intros; eexists; reflexivity].
      apply succeeds_map_r. intros e He. specialize (Hkeys e He).
      unfold has_required_keys in Hkeys. unfold anonymize_work_entry.
      destruct (w_name e), (w_position e); try discriminate. eexists; reflexivity.
    + intros r' Hr'.
      assert (H' : sidebar_keys_ok r' = true
                   /\ Forall (fun e => has_required_keys e = true) (work r')
                   /\ Forall (fun e => end_date_ok e = true) (work r')).
      { destruct an.
        - apply bind_Ok in Hr'. destruct Hr' as (w & Hw & [= <-]).
          split; [exact Hside|]. cbn [with_work work].
          apply map_r_Forall2 in Hw.
          assert (Hall : Forall (fun e => has_required_keys e = true
                                          /\ end_date_ok e = true) (work r))
            by (apply Forall_forall; intros e He; split; auto).
          clear Hkeys Hdates Hside.
          induction Hw as [|e e' l l' He _ IH]; [split; constructor|].
          inversion Hall as [|? ? [Hk Hd] Hall']; subst.
          destruct (IH Hall') as [IH1 IH2].
          destruct (anonymize_work_entry_keys _ _ He) as [Ek Ed].
          split; constructor; auto; congruence.
        - injection Hr' as <-. repeat split; [exact Hside| |];
            apply Forall_forall; assumption. }
      destruct H' as (Hs' & Hk' & Hd').
      destruct (render_pages_succeed now r' an lang Hs' Hk' Hd') as [H1 H2].
      apply succeeds_bind; [exact H1|]. intros p1 _.
      apply succeeds_bind; [exact H2|]. intros; eexists; reflexivity.
  - intros (html & H). split.
    + pose proof H as H0. unfold generate_html in H0.
      apply bind_Ok in H0. destruct H0 as (r' & Hr' & H0).
      apply bind_Ok in H0. destruct H0 as (p1 & Hp1 & _).
      unfold render_page_1 in Hp1. apply bind_Ok in Hp1.
      destruct Hp1 as (sidebar & Hsb & _).
      assert (Es : sidebar_keys_ok r' = sidebar_keys_ok r).
      { destruct an; [|now injection Hr' as <-].
        apply bind_Ok in Hr'. destruct Hr' as (w & _ & [= <-]). reflexivity. }
      rewrite <- Es. apply (render_sidebar_succeeds r' an lang). now exists sidebar.
    + apply generate_html_Ok_keys in H. apply forallb_forall.
      rewrite Forall_forall in H. exact H.
Qed.

Lemma document_generated_when_witness :
  sidebar_keys_ok Samples.scenario = true
  /\ forallb has_required_keys (work Samples.scenario) = true
  /\ forallb end_date_ok (work Samples.scenario) = true
  /\ succeeds (generate_html Samples.sample_template Samples.today Samples.scenario true Fr).
Proof.
  split; [reflexivity|]. split; [reflexivity|]. split; [reflexivity|].
  exact (proj1 (document_generated_when Samples.sample_template Samples.today
                                        Samples.scenario true Fr)
               eq_refl eq_refl eq_refl).
Defined.

(** ** The [.env] reader *)

Import Env.

Lemma lookup_cons {T : Type} (key k : string) (v : T) (table : list (string * T)) :
  lookup key ((k, v) :: table)
  = if String.eqb k key then Some v else lookup key table.
Proof. unfold lookup. cbn [find fst snd]. now destruct (String.eqb k key). Qed.

(** X15. Once the file is read, a variable that the environment had keeps its
    value, and any other variable has the value that the first line
    defining it gives. *)
Theorem env_file_first_definition_wins :
  forall (env : environ) (lines : list string) (env' : environ),
    load_env_file env lines = Some env' ->
    forall key : string,
      lookup key env'
      = match lookup key env with
        | Some v => Some v
        | None => first_definition key lines
        end.
Proof.
  intros env lines. revert env.
  induction lines as [|line rest IH]; intros env env' H key.
  - injection H as <-. cbn. now destruct (lookup key env).
  - cbn [load_env_file first_definition] in *.
    destruct (env_assignment line) as [[k v]|]; [|now apply IH].
    destruct (lookup k env) as [old|] eqn:Ek.
    + rewrite (IH _ _ H key). destruct (lookup key env) eqn:Ekey; [reflexivity|].
      destruct (String.eqb k key) eqn:E; [|reflexivity].
      apply String.eqb_eq in E. congruence.
    + destruct (accepted k v); [|discriminate].
      rewrite (IH _ _ H key), lookup_cons.
      destruct (String.eqb k key) eqn:E; [|reflexivity].
      apply String.eqb_eq in E. subst k. now rewrite Ek.
Qed.

Lemma env_file_first_definition_wins_witness :
  load_env_file sample_environ sample_lines
  = Some (("GEMINI_MODEL", "flash") :: sample_environ)%string
  /\ lookup "GEMINI_MODEL"%string (("GEMINI_MODEL", "flash") :: sample_environ)%string
     = first_definition "GEMINI_MODEL"%string sample_lines
  /\ lookup "CI"%string (("GEMINI_MODEL", "flash") :: sample_environ)%string
     = Some "true"%string.
Proof.
  split; [reflexivity|]. split.
  - exact (env_file_first_definition_wins sample_environ sample_lines _ eq_refl
                                          "GEMINI_MODEL"%string).
  - exact (env_file_first_definition_wins sample_environ sample_lines _ eq_refl
                                          "CI"%string).
Defined.

(** Reading the file raises exactly when some line is the first to define
    a variable that the environment does not have, and [os.environ]
    refuses that name or value. *)
Theorem env_file_refused_exactly_when :
  forall (env : environ) (lines : list string),
    load_env_file env lines = None
    <-> exists (before : list string) (line : string) (after : list string)
               (key value : string),
          lines = (before ++ line :: after)%list
          /\ env_assignment line = Some (key, value)
          /\ lookup key env = None
          /\ first_definition key before = None
          /\ accepted key value = false.
Proof.
  intros env lines. split.
  - revert env. induction lines as [|line rest IH]; intros env H; [discriminate|].
    cbn [load_env_file] in H.
    destruct (env_assignment line) as [[k v]|] eqn:Ea.
    + destruct (lookup k env) as [old|] eqn:Ek.
      * destruct (IH _ H) as (pre & l & post & key & value & -> & Hl & Henv & Hpre & Hacc).
        exists (line :: pre), l, post, key, value.
        repeat split; auto. cbn [first_definition]. rewrite Ea.
        destruct (String.eqb k key) eqn:E; [|exact Hpre].
        apply String.eqb_eq in E. congruence.
      * destruct (accepted k v) eqn:Eacc.
        -- destruct (IH _ H) as (pre & l & post & key & value & -> & Hl & Henv & Hpre & Hacc).
           rewrite lookup_cons in Henv.
           destruct (String.eqb k key) eqn:E; [discriminate|].
           exists (line :: pre), l, post, key, value.
           repeat split; auto. cbn [first_definition]. now rewrite Ea, E.
        -- exists [], line, rest, k, v. repeat split; auto.
    + destruct (IH _ H) as (pre & l & post & key & value & -> & Hl & Henv & Hpre & Hacc).
      exists (line :: pre), l, post, key, value.
      repeat split; auto. cbn [first_definition]. now rewrite Ea.
  - intros (pre & line & post & key & value & -> & Hl & Henv & Hpre & Hacc).
    revert env Henv. induction pre as [|l pre IH]; intros env Henv.
    + cbn. now rewrite Hl, Henv, Hacc.
    + cbn [List.app load_env_file]. cbn [first_definition] in Hpre.
      destruct (env_assignment l) as [[k v]|]; [|now apply IH].
      destruct (String.eqb k key) eqn:E; [discriminate|].
      destruct (lookup k env); [now apply IH|].
      destruct (accepted k v); [|reflexivity].
      apply IH; [exact Hpre|]. now rewrite lookup_cons, E.
Qed.

(** *** A line read back *)

Lemma append_empty (a : string) : (a ++ EmptyString)%string = a.
Proof. induction a as [|x a IH]; [reflexivity|]. cbn. now rewrite IH. Qed.

Lemma all_blank_app (a b : string) :
  all_blank a = true -> all_blank b = true -> all_blank (a ++ b) = true.
Proof.
  intros Ha Hb. induction a as [|c a IH]; [exact Hb|].
  cbn [all_blank String.append] in *. apply andb_true_iff in Ha.
  destruct Ha as [-> Ha]. now apply IH.
Qed.

Lemma lstrip_blank_app (p s : string) :
  all_blank p = true -> lstrip (p ++ s) = lstrip s.
Proof.
  induction p as [|c p IH]; [reflexivity|]. cbn [all_blank String.append lstrip].
  intros H. apply andb_true_iff in H. destruct H as [-> H]. now apply IH.
Qed.

Lemma rstrip_blank (p : string) : all_blank p = true -> rstrip p = EmptyString.
Proof.
  induction p as [|c p IH]; [reflexivity|]. cbn [all_blank rstrip].
  intros H. apply andb_true_iff in H. destruct H as [-> H]. now rewrite IH.
Qed.

Lemma rstrip_app_blank (s p : string) :
  all_blank p = true -> rstrip (s ++ p) = rstrip s.
Proof.
  intros H. induction s as [|c s IH]; [now apply rstrip_blank|].
  cbn [String.append rstrip]. now rewrite IH.
Qed.

Lemma rstrip_app_keep (a b : string) :
  rstrip b <> EmptyString -> (rstrip (a ++ b) = a ++ rstrip b)%string.
Proof.
  intros H. induction a as [|c a IH]; [reflexivity|].
  cbn [String.append rstrip]. rewrite IH.
  destruct (a ++ rstrip b)%string eqn:E; [|reflexivity].
  destruct a; [cbn in E; congruence|discriminate].
Qed.

Lemma rstrip_cons_keep (c : ascii) (t : string) :
  is_space c = false -> rstrip (String c t) = String c (rstrip t).
Proof. intros E. cbn [rstrip]. destruct (rstrip t); [now rewrite E|reflexivity]. Qed.

Lemma strip_blank_app (p s : string) :
  all_blank p = true -> strip (p ++ s) = strip s.
Proof. intros H. unfold strip. now rewrite lstrip_blank_app. Qed.

Lemma strip_app_blank (s p : string) :
  trimmed s = true -> all_blank p = true -> strip (s ++ p) = s.
Proof.
  intros Hs Hp. destruct s as [|c t].
  - cbn [String.append]. unfold strip.
    rewrite <- (append_empty p), (lstrip_blank_app p EmptyString Hp). reflexivity.
  - unfold strip. rewrite lstrip_fixed.
    + rewrite rstrip_app_blank by exact Hp.
      apply rstrip_fixed. unfold trimmed in Hs. apply andb_true_iff in Hs.
      destruct Hs as [_ Hl]. destruct (last_char (String c t)); [|exact I].
      now apply negb_true_iff in Hl.
    + unfold trimmed in Hs. apply andb_true_iff in Hs. destruct Hs as [Hh _].
      cbn [String.append head_opt] in *. now apply negb_true_iff in Hh.
Qed.

Lemma has_char_blank (c : ascii) (p : string) :
  is_space c = false -> all_blank p = true -> has_char c p = false.
Proof.
  intros Hc. induction p as [|d p IH]; [reflexivity|]. cbn [all_blank has_char].
  intros H. apply andb_true_iff in H. destruct H as [Hd Hp].
  rewrite (IH Hp), orb_false_r. apply Ascii.eqb_neq. intros ->. congruence.
Qed.

Lemma split_once_app (sep : ascii) (a b : string) :
  has_char sep a = false -> split_once sep (a ++ String sep b) = Some (a, b).
Proof.
  induction a as [|c a IH]; intros H.
  - cbn. now rewrite Ascii.eqb_refl.
  - cbn [has_char] in H. apply orb_false_elim in H. destruct H as [Hc Ha].
    cbn [String.append split_once]. now rewrite Hc, (IH Ha).
Qed.

Lemma last_char_app_cons (a : string) (c : ascii) (b : string) :
  last_char (a ++ String c b) = last_char (String c b).
Proof.
  induction a as [|d a IH]; [reflexivity|].
  cbn [String.append]. change (last_char (String d (a ++ String c b)))
    with (match (a ++ String c b)%string with
          | EmptyString => Some d | String _ _ => last_char (a ++ String c b) end).
  rewrite IH. destruct a; reflexivity.
Qed.

Lemma lstrip_chars_fixed (chars s : string) :
  match head_opt s with Some c => has_char c chars = false | None => True end ->
  lstrip_chars chars s = s.
Proof. destruct s as [|c t]; [reflexivity|]. cbn. now intros ->. Qed.

Lemma rstrip_chars_fixed (chars s : string) :
  match last_char s with Some c => has_char c chars = false | None => True end ->
  rstrip_chars chars s = s.
Proof.
  induction s as [|c t IH]; [reflexivity|]. cbn [last_char rstrip_chars].
  destruct t as [|d u]; [cbn; now intros ->|].
  intros H. rewrite (IH H). reflexivity.
Qed.

Lemma rstrip_chars_app_one (chars s : string) (c : ascii) :
  has_char c chars = true ->
  rstrip_chars chars (s ++ String c EmptyString) = rstrip_chars chars s.
Proof.
  intros H. induction s as [|d s IH]; [cbn; now rewrite H|].
  cbn [String.append rstrip_chars]. now rewrite IH.
Qed.

Lemma strip_chars_fixed (chars s : string) :
  match head_opt s with Some c => has_char c chars = false | None => True end ->
  match last_char s with Some c => has_char c chars = false | None => True end ->
  strip_chars chars s = s.
Proof.
  intros Hh Hl. unfold strip_chars.
  rewrite (lstrip_chars_fixed _ _ Hh). now apply rstrip_chars_fixed.
Qed.

Lemma strip_chars_wrapped (chars : string) (c : ascii) (s : string) :
  has_char c chars = true ->
  match head_opt s with Some c => has_char c chars = false | None => True end ->
  match last_char s with Some c => has_char c chars = false | None => True end ->
  strip_chars chars (String c (s ++ String c EmptyString)) = s.
Proof.
  intros Hc Hh Hl. unfold strip_chars. cbn [lstrip_chars]. rewrite Hc.
  destruct s as [|d t]; [cbn; now rewrite Hc|].
  rewrite lstrip_chars_fixed by (cbn [String.append head_opt] in *; exact Hh).
  rewrite (rstrip_chars_app_one _ _ _ Hc). now apply rstrip_chars_fixed.
Qed.

(** What a line of the form [name = text] defines, the text having no
    blank at either end. *)
Lemma env_assignment_line (p1 key p2 p3 w p4 : string) :
  name_ok key = true ->
  all_blank p1 = true -> all_blank p2 = true ->
  all_blank p3 = true -> all_blank p4 = true ->
  trimmed w = true ->
  env_assignment (env_line p1 key p2 p3 w p4)
  = Some (key, strip_chars "'" (strip_chars dq w)).
Proof.
  intros Hkey H1 H2 H3 H4 Hw. unfold name_ok in Hkey.
  apply andb_true_iff in Hkey. destruct Hkey as [Hkey Hhash].
  apply andb_true_iff in Hkey. destruct Hkey as [Hkey Heq].
  apply andb_true_iff in Hkey. destruct Hkey as [Hne Htrim].
  apply negb_true_iff in Heq, Hhash.
  destruct key as [|c key]; [discriminate|].
  assert (Hc : is_space c = false).
  { unfold trimmed in Htrim. apply andb_true_iff in Htrim. destruct Htrim as [Hh _].
    now apply negb_true_iff in Hh. }
  (* the text after the equals sign, without the blanks at its end *)
  assert (Hafter : strip (rstrip (p3 ++ w ++ p4)) = w).
  { destruct w as [|d w].
    - cbn [String.append]. rewrite (rstrip_blank _ (all_blank_app _ _ H3 H4)).
      reflexivity.
    - assert (Hr : rstrip (String d w ++ p4) = String d w).
      { rewrite (rstrip_app_blank _ _ H4). apply rstrip_fixed.
        unfold trimmed in Hw. apply andb_true_iff in Hw. destruct Hw as [_ Hl].
        destruct (last_char (String d w)); [|exact I]. now apply negb_true_iff in Hl. }
      rewrite rstrip_app_keep by (rewrite Hr; discriminate).
      rewrite Hr, (strip_blank_app _ _ H3). now apply strip_of_trimmed. }
  assert (Hline : strip (env_line p1 (String c key) p2 p3 w p4)
                  = ((String c key ++ p2) ++ String "=" (rstrip (p3 ++ w ++ p4)))%string).
  { unfold env_line, strip. rewrite (lstrip_blank_app _ _ H1).
    rewrite lstrip_fixed by exact Hc.
    change ("=" ++ p3 ++ w ++ p4)%string with (String "=" (p3 ++ w ++ p4)).
    rewrite <- append_assoc.
    rewrite rstrip_app_keep by (rewrite rstrip_cons_keep by reflexivity; discriminate).
    now rewrite rstrip_cons_keep by reflexivity. }
  unfold env_assignment. cbv zeta. rewrite Hline.
  assert (Hno : has_char "=" (String c key ++ p2) = false).
  { rewrite has_char_app, Heq. now apply has_char_blank. }
  rewrite (split_once_app _ _ _ Hno), Hafter, (strip_app_blank _ _ Htrim H2).
  replace (truthy ((String c key ++ p2) ++ String "=" (rstrip (p3 ++ w ++ p4))))
    with true by reflexivity.
  replace (startswith "#" ((String c key ++ p2) ++ String "=" (rstrip (p3 ++ w ++ p4))))
    with false.
  2:{ symmetry. unfold startswith in *. cbn [String.append String.prefix] in *.
      destruct (ascii_dec "#" c); [|reflexivity]. subst c.
      destruct key; discriminate. }
  replace (contains "=" ((String c key ++ p2) ++ String "=" (rstrip (p3 ++ w ++ p4))))
    with true; [reflexivity|].
  symmetry. apply contains_after.
  exact (contains_here "=" (rstrip (p3 ++ w ++ p4))).
Qed.

Lemma quote_in (c : ascii) :
  has_char c dq = Ascii.eqb c "034" /\ has_char c "'" = Ascii.eqb c "'".
Proof. cbn. now rewrite !orb_false_r, !(Ascii.eqb_sym c). Qed.

Lemma unquoted_ends (s : string) :
  unquoted s = true ->
  (match head_opt s with
   | Some c => has_char c dq = false /\ has_char c "'" = false | None => True end)
  /\ (match last_char s with
      | Some c => has_char c dq = false /\ has_char c "'" = false | None => True end).
Proof.
  unfold unquoted, is_quote. intros H. apply andb_true_iff in H. destruct H as [Hh Hl].
  split.
  - destruct (head_opt s) as [c|]; [|exact I]. apply negb_true_iff in Hh.
    apply orb_false_elim in Hh. destruct (quote_in c) as [-> ->]. exact Hh.
  - destruct (last_char s) as [c|]; [|exact I]. apply negb_true_iff in Hl.
    apply orb_false_elim in Hl. destruct (quote_in c) as [-> ->]. exact Hl.
Qed.

(** A line [name = value] gives the name and the value back, whatever the
    blanks around the name, the equals sign and the value, when the value
    is written bare, between double quotes or between single quotes.  A
    bare value has no blank at either end; between quotes it may. *)
Theorem env_line_read_back :
  forall (p1 key p2 p3 value p4 : string),
    name_ok key = true ->
    unquoted value = true ->
    all_blank p1 = true -> all_blank p2 = true ->
    all_blank p3 = true -> all_blank p4 = true ->
    (trimmed value = true ->
     env_assignment (env_line p1 key p2 p3 value p4) = Some (key, value))
    /\ env_assignment (env_line p1 key p2 p3 (dq ++ value ++ dq) p4) = Some (key, value)
    /\ env_assignment (env_line p1 key p2 p3 ("'" ++ value ++ "'") p4) = Some (key, value).
Proof.
  intros p1 key p2 p3 value p4 Hkey Hq H1 H2 H3 H4.
  destruct (unquoted_ends _ Hq) as [Hh Hl].
  assert (Hhd : match head_opt value with
                | Some c => has_char c dq = false | None => True end)
    by (destruct (head_opt value); [apply Hh|exact I]).
  assert (Hhs : match head_opt value with
                | Some c => has_char c "'" = false | None => True end)
    by (destruct (head_opt value); [apply Hh|exact I]).
  assert (Hld : match last_char value with
                | Some c => has_char c dq = false | None => True end)
    by (destruct (last_char value); [apply Hl|exact I]).
  assert (Hls : match last_char value with
                | Some c => has_char c "'" = false | None => True end)
    by (destruct (last_char value); [apply Hl|exact I]).
  split; [|split].
  - intros Ht. rewrite (env_assignment_line _ _ _ _ _ _ Hkey H1 H2 H3 H4 Ht).
    now rewrite (strip_chars_fixed dq value), (strip_chars_fixed "'" value).
  - rewrite (env_assignment_line _ _ _ _ _ _ Hkey H1 H2 H3 H4).
    + change (dq ++ value ++ dq)%string
        with (String "034" (value ++ String "034" EmptyString)).
      rewrite (strip_chars_wrapped dq "034" value eq_refl Hhd Hld).
      now rewrite (strip_chars_fixed "'" value).
    + change (dq ++ value ++ dq)%string
        with (String "034" (value ++ String "034" EmptyString)).
      unfold trimmed. cbn [head_opt].
      change (String "034" (value ++ String "034" EmptyString))
        with (String "034" value ++ String "034" EmptyString)%string.
      now rewrite last_char_app_cons.
  - rewrite (env_assignment_line _ _ _ _ _ _ Hkey H1 H2 H3 H4).
    + change ("'" ++ value ++ "'")%string
        with (String "'" (value ++ String "'" EmptyString)).
      rewrite (strip_chars_fixed dq).
      * apply f_equal, f_equal.
        exact (strip_chars_wrapped "'" "'" value eq_refl Hhs Hls).
      * reflexivity.
      * change (String "'" (value ++ String "'" EmptyString))
          with (String "'" value ++ String "'" EmptyString)%string.
        now rewrite last_char_app_cons.
    + change ("'" ++ value ++ "'")%string
        with (String "'" value ++ String "'" EmptyString)%string.
      unfold trimmed. rewrite last_char_app_cons. reflexivity.
Qed.

Lemma env_line_read_back_witness :
  name_ok "GEMINI_API_KEY" = true
  /\ unquoted "a b" = true
  /\ all_blank " " = true /\ all_blank nl = true
  /\ (trimmed "a b" = true ->
      env_assignment (env_line " " "GEMINI_API_KEY" " " " " "a b" nl)
      = Some ("GEMINI_API_KEY", "a b")%string)
  /\ env_assignment (env_line " " "GEMINI_API_KEY" " " " " (dq ++ "a b" ++ dq) nl)
     = Some ("GEMINI_API_KEY", "a b")%string
  /\ env_assignment (env_line " " "GEMINI_API_KEY" " " " " ("'" ++ "a b" ++ "'") nl)
     = Some ("GEMINI_API_KEY", "a b")%string.
Proof.
  split; [reflexivity|]. split; [reflexivity|]. split; [reflexivity|].
  split; [reflexivity|].
  exact (env_line_read_back " " "GEMINI_API_KEY" " " " " "a b" nl
                            eq_refl eq_refl eq_refl eq_refl eq_refl eq_refl).
Defined.

(** ** The template and its placeholders *)

Lemma replace_from_plain (old' new s t : string) :
  has_char "{" s = false ->
  replace_from (String "{" old') new (s ++ t) 0
  = (s ++ replace_from (String "{" old') new t 0)%string.
Proof.
  induction s as [|c s IH]; intros H; [reflexivity|].
  cbn [has_char] in H. apply orb_false_elim in H. destruct H as [Hc Hs].
  cbn [String.append replace_from String.prefix].
  destruct (ascii_dec "{" c) as [<-|_]; [discriminate|].
  now rewrite (IH Hs).
Qed.

(** One pass of [replace] over a text made of parts: the parts that are the
    placeholder are replaced, the parts it cannot touch are kept. *)
Lemma replace_parts (old' new : string) (before after : segment -> string)
      (segments : list segment) :
  (forall t, replace_from (String "{" old') new (String "{" old' ++ t) 0
             = (new ++ replace_from (String "{" old') new t 0)%string) ->
  Forall (fun seg =>
            (before seg = String "{" old' /\ after seg = new)
            \/ (after seg = before seg
                /\ forall t, replace_from (String "{" old') new (before seg ++ t) 0
                             = (before seg ++ replace_from (String "{" old') new t 0)%string))
         segments ->
  replace (String "{" old') new
          (fold_right (fun seg rest => (before seg ++ rest)%string) EmptyString segments)
  = fold_right (fun seg rest => (after seg ++ rest)%string) EmptyString segments.
Proof.
  intros Hhere H. unfold replace. induction H as [|seg segments Hseg _ IH]; [reflexivity|].
  cbn [fold_right]. destruct Hseg as [[Hb Ha]|[Ha Hkeep]].
  - now rewrite Hb, Hhere, IH, Ha.
  - now rewrite Hkeep, IH, Ha.
Qed.

Lemma fill_filled (l n content : string) (segments : list segment) :
  plain_brace_free segments = true ->
  has_char "{" l = false ->
  has_char "{" n = false ->
  replace "{{ content }}" content
          (replace "{{ name }}" n (replace "{{ lang }}" l (template_of segments)))
  = fill l n content segments.
Proof.
  intros Hp Hl Hn. unfold plain_brace_free in Hp. rewrite forallb_forall in Hp.
  unfold template_of, fill.
  set (slot := fun (a b c : string) (seg : segment) =>
                 match seg with
                 | Plain s => s | Lang_slot => a | Name_slot => b | Content_slot => c
                 end).
  change (replace "{{ content }}" content
            (replace "{{ name }}" n
               (replace "{{ lang }}" l
                  (fold_right (fun seg rest =>
                                 (slot "{{ lang }}" "{{ name }}" "{{ content }}" seg ++ rest)%string)
                              EmptyString segments)))
          = fold_right (fun seg rest => (slot l n content seg ++ rest)%string)
                       EmptyString segments).
  assert (Hplain : forall (old' new s : string),
             In (Plain s) segments ->
             forall t, replace_from (String "{" old') new (s ++ t) 0
                       = (s ++ replace_from (String "{" old') new t 0)%string).
  { intros old' new s Hin t. apply replace_from_plain.
    specialize (Hp _ Hin). now apply negb_true_iff in Hp. }
  rewrite (replace_parts _ l _ (slot l "{{ name }}" "{{ content }}")%string).
  2:{ intros t. cbn. now destruct t. }
  2:{ apply Forall_forall. intros [s| | |] Hin; cbn [slot].
      - right. split; [reflexivity|]. now apply Hplain.
      - left. split; reflexivity.
      - right. split; reflexivity.
      - right. split; reflexivity. }
  rewrite (replace_parts _ n _ (slot l n "{{ content }}")%string).
  2:{ intros t. cbn. now destruct t. }
  2:{ apply Forall_forall. intros [s| | |] Hin; cbn [slot].
      - right. split; [reflexivity|]. now apply Hplain.
      - right. split; [reflexivity|]. intros t. now apply replace_from_plain.
      - left. split; reflexivity.
      - right. split; reflexivity. }
  rewrite (replace_parts _ content _ (slot l n content)).
  2:{ intros t. cbn. now destruct t. }
  2:{ apply Forall_forall. intros [s| | |] Hin; cbn [slot].
      - right. split; [reflexivity|]. now apply Hplain.
      - right. split; [reflexivity|]. intros t. now apply replace_from_plain.
      - right. split; [reflexivity|]. intros t. now apply replace_from_plain.
      - left. split; reflexivity. }
  reflexivity.
Qed.

Lemma lang_code_brace_free (lang : language) : has_char "{" (lang_code lang) = false.
Proof. now destruct lang. Qed.

(** X18. The document is the template with its placeholders filled: the
    language code, the name of the subject and the pages, which are what a
    template made of the content placeholder alone gives.  The plain parts
    of the template and the name have no opening brace. *)
Theorem template_placeholders_filled :
  forall (segments : list segment) (now : Z * Z) (r : resume) (anonymize : bool)
         (lang : language) (content : string),
    plain_brace_free segments = true ->
    brace_free (subject r) = true ->
    generate_html "{{ content }}" now r anonymize lang = Ok content ->
    generate_html (template_of segments) now r anonymize lang
    = Ok (fill (lang_code lang) (subject r) content segments).
Proof.
  intros segments now r an lang content Hp Hn H.
  unfold generate_html in *.
  destruct (if an
            then bind (map_r anonymize_work_entry (work r))
                      (fun w => Ok (with_work r w))
            else Ok r) as [r'|e] eqn:Er; [|discriminate].
  assert (Hsub : get_or_empty (b_name (basics r')) = subject r).
  { destruct an; [|now injection Er as <-].
    apply bind_Ok in Er. destruct Er as (w & _ & [= <-]). reflexivity. }
  cbn [bind] in *.
  destruct (render_page_1 now r' an lang) as [p1|e]; [|discriminate].
  destruct (render_detail_pages now r' an lang) as [dp|e]; [|discriminate].
  cbn [bind] in *. cbv zeta in *. rewrite Hsub in *.
  apply negb_true_iff in Hn.
  rewrite (fill_filled _ _ _ _ Hp (lang_code_brace_free lang) Hn).
  pose proof (fill_filled (lang_code lang) (subject r) (p1 ++ nl ++ dp)
                          [Content_slot] eq_refl (lang_code_brace_free lang) Hn) as Hc.
  change (template_of [Content_slot]) with ("{{ content }}" ++ EmptyString)%string in Hc.
  cbn [String.append] in Hc. cbn [fill fold_right] in Hc.
  change ("{{ content }}"%string) with
    (String "{" (String "{" (String " " "content }}"))) in H.
  cbn [String.append] in H. rewrite Hc in H.
  rewrite append_empty in H. now injection H as <-.
Qed.

Lemma template_placeholders_filled_witness :
  plain_brace_free sample_segments = true
  /\ brace_free (subject scenario) = true
  /\ exists content : string,
      generate_html "{{ content }}" today scenario true Fr = Ok content
      /\ generate_html (template_of sample_segments) today scenario true Fr
         = Ok (fill (lang_code Fr) (subject scenario) content sample_segments).
Proof.
  split; [reflexivity|]. split; [reflexivity|].
  eexists. split; [vm_compute; reflexivity|].
  apply template_placeholders_filled; [reflexivity|reflexivity|].
  vm_compute; reflexivity.
Defined.

(** ** The translation cache *)

Import Cache.

Lemma all_hex_has_char (c : ascii) (s : string) :
  is_hex c = false -> all_hex s = true -> has_char c s = false.
Proof.
  intros Hc. induction s as [|d s IH]; [reflexivity|]. cbn [all_hex has_char].
  intros H. apply andb_true_iff in H. destruct H as [Hd Hs].
  rewrite (IH Hs), orb_false_r. apply Ascii.eqb_neq. intros ->. congruence.
Qed.

Lemma is_hex_not_blank (c : ascii) : is_hex c = true -> is_space c = false.
Proof.
  unfold is_hex, is_space, between. intros H.
  destruct (N.leb_spec 48 (code c)), (N.leb_spec (code c) 57),
    (N.leb_spec 97 (code c)), (N.leb_spec (code c) 102),
    (N.leb_spec 9 (code c)), (N.leb_spec (code c) 13),
    (N.leb_spec 28 (code c)), (N.leb_spec (code c) 32);
    cbn in *; try reflexivity; try discriminate; lia.
Qed.

Lemma strip_stamp (h m : string) :
  is_hexdigest h = true ->
  strip (cache_stamp h m) = cache_stamp h (rstrip m).
Proof.
  unfold is_hexdigest, cache_stamp. intros H. apply andb_true_iff in H.
  destruct H as [Hlen Hhex]. destruct h as [|c h]; [discriminate|].
  cbn [all_hex] in Hhex. apply andb_true_iff in Hhex. destruct Hhex as [Hc _].
  unfold strip. rewrite lstrip_fixed by (exact (is_hex_not_blank _ Hc)).
  change (":" ++ m)%string with (String ":" m).
  rewrite rstrip_app_keep by (rewrite rstrip_cons_keep by reflexivity; discriminate).
  now rewrite rstrip_cons_keep by reflexivity.
Qed.

Lemma replace_from_absent (c : ascii) (old' new s : string) :
  has_char c s = false -> replace_from (String c old') new s 0 = s.
Proof.
  induction s as [|d s IH]; intros H; [reflexivity|].
  cbn [has_char] in H. apply orb_false_elim in H. destruct H as [Hd Hs].
  cbn [replace_from String.prefix].
  destruct (ascii_dec c d) as [<-|_]; [now rewrite Ascii.eqb_refl in Hd|].
  now rewrite (IH Hs).
Qed.

Lemma read_text_same (text : string) :
  has_char "013" text = false -> read_text text = text.
Proof.
  intros H. unfold read_text, replace, cr.
  change (String "013" EmptyString ++ nl)%string with (String "013" nl).
  now rewrite !(replace_from_absent _ _ _ _ H).
Qed.

(** X19. A translation cached for an input file and a model is used by a
    later run exactly when the input file has the same digest and the model
    asked for is the cached model name without the blanks at its end.  The
    cached model name has no carriage return and no blank outside ASCII. *)
Theorem cache_used_exactly_when :
  forall (cached_hash cached_model input_hash model : string),
    is_hexdigest cached_hash = true ->
    is_hexdigest input_hash = true ->
    has_char "013" cached_model = false ->
    ascii_blanks_only cached_model = true ->
    cache_valid true (Some (read_text (cache_stamp cached_hash cached_model)))
                input_hash model = true
    <-> input_hash = cached_hash /\ model = rstrip cached_model.
Proof.
  intros h m h' m' Hh Hh' Hcr _. unfold cache_valid. cbn [andb].
  assert (Hc : forall c x, is_hex c = false -> is_hexdigest x = true ->
                           has_char c x = false).
  { intros c x Hx Hd. unfold is_hexdigest in Hd. apply andb_true_iff in Hd.
    now apply all_hex_has_char. }
  rewrite read_text_same.
  2:{ unfold cache_stamp. rewrite !has_char_app, Hcr, (Hc "013"%char h eq_refl Hh).
      reflexivity. }
  rewrite (strip_stamp _ _ Hh), String.eqb_eq. unfold cache_stamp.
  split.
  - intros E. apply (f_equal (split_once ":")) in E.
    change (":" ++ rstrip m)%string with (String ":" (rstrip m)) in E.
    change (":" ++ m')%string with (String ":" m') in E.
    rewrite (split_once_app _ _ _ (Hc ":"%char _ eq_refl Hh)),
            (split_once_app _ _ _ (Hc ":"%char _ eq_refl Hh')) in E.
    split; congruence.
  - now intros [-> ->].
Qed.

Lemma cache_used_exactly_when_witness :
  is_hexdigest sample_digest = true
  /\ ascii_blanks_only "gemini-flash-lite-latest " = true
  /\ (cache_valid true
                  (Some (read_text (cache_stamp sample_digest "gemini-flash-lite-latest ")))
                  sample_digest "gemini-flash-lite-latest" = true
      <-> sample_digest = sample_digest
          /\ "gemini-flash-lite-latest"%string = rstrip "gemini-flash-lite-latest ").
Proof.
  split; [reflexivity|]. split; [reflexivity|].
  exact (cache_used_exactly_when sample_digest "gemini-flash-lite-latest "
                                 sample_digest "gemini-flash-lite-latest"
                                 eq_refl eq_refl eq_refl eq_refl).
Defined.

(** ** The company and the mission of an engagement *)

Lemma mission_body_cons (g : marks) prev (d : ascii) (t : string) :
  mission_body g prev (String d t) =
  if Ascii.eqb d ")" then Some (t, (fst g, Some (String d t)))
  else mission_body g (Some d) t.
Proof.
  cbn -[Ascii.eqb]. rewrite (Ascii.eqb_sym ")" d), orb_false_r.
  destruct (Ascii.eqb d ")") eqn:E; cbn -[Ascii.eqb].
  - reflexivity.
  - now destruct (mission_body g (Some d) t).
Qed.

Lemma mission_body_closes (g : marks) prev (m rest : string) :
  has_char ")" m = false ->
  mission_body g prev (m ++ String ")" rest)
  = Some (rest, (fst g, Some (String ")" rest))).
Proof.
  revert prev. induction m as [|d m IH]; intros prev H.
  - cbn [String.append]. now rewrite mission_body_cons.
  - cbn [has_char] in H. apply orb_false_elim in H. destruct H as [Hd Hm].
    cbn [String.append]. rewrite mission_body_cons, Hd. now apply IH.
Qed.

Lemma parenthesized_at_open prev (d : ascii) (t : string) (g : marks) :
  match_items false parenthesized prev (String "(" (String d t)) g
  = if Ascii.eqb d ")" then None
    else mission_body (Some (String d t), snd g) (Some d) t.
Proof.
  cbn -[Ascii.eqb]. rewrite Ascii.eqb_refl, orb_false_r.
  now destruct (Ascii.eqb d ")").
Qed.

Lemma parenthesized_elsewhere prev (c : ascii) (t : string) (g : marks) :
  Ascii.eqb c "(" = false ->
  match_items false parenthesized prev (String c t) g = None.
Proof. intros H. cbn -[Ascii.eqb]. now rewrite (Ascii.eqb_sym "(" c), H. Qed.

Lemma take_str_app (m x : string) : take_str (String.length m) (m ++ x) = m.
Proof. induction m as [|c m IH]; [now destruct x|]. cbn. now rewrite IH. Qed.

Lemma search_parenthesized_at_open prev (m rest : string) :
  truthy m = true -> has_char ")" m = false ->
  search_from false parenthesized prev (String "(" (m ++ String ")" rest)) = Some m.
Proof.
  intros Hne Hm. destruct m as [|d m]; [discriminate|].
  cbn [has_char] in Hm. apply orb_false_elim in Hm. destruct Hm as [Hd Hm].
  cbn [String.append].
  assert (E : match_items false parenthesized prev
                          (String "(" (String d (m ++ String ")" rest))) no_marks
              = Some (rest, (Some (String d (m ++ String ")" rest)),
                             Some (String ")" rest)))).
  { rewrite parenthesized_at_open, Hd. now rewrite mission_body_closes. }
  change (search_from false parenthesized prev
                      (String "(" (String d (m ++ String ")" rest))))
    with (match match_items false parenthesized prev
                            (String "(" (String d (m ++ String ")" rest))) no_marks with
          | Some (_, g) => Some (group1 g)
          | None => search_from false parenthesized (Some "("%char)
                                (String d (m ++ String ")" rest))
          end).
  rewrite E. cbn [group1]. unfold text_between.
  replace (String.length (String d (m ++ String ")" rest))
           - String.length (String ")" rest))%nat
    with (String.length (String d m)).
  2:{ cbn [String.length]. rewrite length_append. cbn [String.length]. lia. }
  change (String d (m ++ String ")" rest)) with (String d m ++ String ")" rest)%string.
  now rewrite take_str_app.
Qed.

Lemma search_parenthesized_skip (u s : string) (r : option string) :
  has_char "(" u = false ->
  (forall prev, search_from false parenthesized prev s = r) ->
  forall prev, search_from false parenthesized prev (u ++ s) = r.
Proof.
  intros Hu Hs. induction u as [|c u IH]; intros prev; [apply Hs|].
  cbn [has_char] in Hu. apply orb_false_elim in Hu. destruct Hu as [Hc Hu].
  cbn [String.append].
  change (search_from false parenthesized prev (String c (u ++ s)))
    with (match match_items false parenthesized prev (String c (u ++ s)) no_marks with
          | Some (_, g) => Some (group1 g)
          | None => search_from false parenthesized (Some c) (u ++ s)
          end).
  rewrite (parenthesized_elsewhere _ _ _ _ Hc). now apply IH.
Qed.

(** X20. An engagement named by the company followed by the mission between
    parentheses is grouped under the company and shown with the mission:
    the normalized company name is the company, and the mission of the
    detail view is the text between the parentheses.  The company has no
    blank at either end and no blank outside ASCII. *)
Theorem company_and_mission_of_name :
  forall (company blanks mission position : string) (e : work_entry),
    trimmed company = true ->
    ascii_blanks_only company = true ->
    has_char "(" company = false ->
    all_blank blanks = true ->
    truthy mission = true ->
    has_char ")" mission = false ->
    w_name e = Some (engagement_name company blanks mission) ->
    get_company_name e = company
    /\ mission_of (engagement_name company blanks mission) position = mission.
Proof.
  intros company blanks mission position e Ht _ Hc Hb Hne Hm Hname.
  assert (Hl : match last_char company with
               | Some d => is_space d = false | None => True end).
  { unfold trimmed in Ht. apply andb_true_iff in Ht. destruct Ht as [_ Hl].
    destruct (last_char company); [now apply negb_true_iff in Hl|exact I]. }
  split.
  - unfold get_company_name, Re.sub. rewrite Hname. cbn [get_or_empty].
    change (sub_from false parenthetical [] None (engagement_name company blanks mission) 0)
      with (strip_parens None
              (company ++ blanks ++ String "(" (mission ++ String ")" EmptyString)) 0).
    rewrite (strip_parens_note_trimmed _ _ _ _ _ Hc Hl Hb Hm).
    change (strip_parens None EmptyString 0) with EmptyString.
    rewrite append_empty. now apply strip_of_trimmed.
  - unfold mission_of, engagement_name.
    replace (contains "(" (company ++ blanks ++ "(" ++ mission ++ ")")) with true.
    2:{ symmetry. apply contains_after, contains_after.
        exact (contains_here "(" (mission ++ ")")). }
    unfold Re.search.
    change (company ++ blanks ++ "(" ++ mission ++ ")")%string
      with (company ++ blanks ++ String "(" (mission ++ String ")" EmptyString))%string.
    rewrite (search_parenthesized_skip company _ (Some mission) Hc); [reflexivity|].
    apply search_parenthesized_skip.
    + now apply has_char_blank.
    + intros prev. now apply search_parenthesized_at_open.
Qed.

Lemma company_and_mission_of_name_witness :
  trimmed "Sfeir" = true
  /\ ascii_blanks_only "Sfeir" = true
  /\ all_blank " " = true
  /\ get_company_name (mk_work (Some (engagement_name "Sfeir" " " "Natixis")) None None None
                               None None)
     = "Sfeir"%string
  /\ mission_of (engagement_name "Sfeir" " " "Natixis") "Tech Lead" = "Natixis"%string.
Proof.
  split; [reflexivity|]. split; [reflexivity|]. split; [reflexivity|].
  exact (company_and_mission_of_name
           "Sfeir" " " "Natixis" "Tech Lead"
           (mk_work (Some (engagement_name "Sfeir" " " "Natixis")) None None None None None)
           eq_refl eq_refl eq_refl eq_refl eq_refl eq_refl eq_refl).
Defined.

(** ** The code fence around a translation *)

Import Translate.

Lemma star_space_lstrip prev (s : string) (g : marks) :
  match_items false [Star Space] prev s g = Some (lstrip s, g).
Proof.
  revert prev. induction s as [|d t IH]; intros prev; [reflexivity|].
  change (match_items false [Star Space] prev (String d t) g)
    with (if is_space d
          then match match_items false [Star Space] (Some d) t g with
               | Some r => Some r
               | None => Some (String d t, g)
               end
          else Some (String d t, g)).
  cbn [lstrip]. destruct (is_space d); [|reflexivity]. now rewrite IH.
Qed.

Lemma fence_open_matches (s : string) :
  sub_at_start fence_open ("```json" ++ s) = lstrip s.
Proof.
  unfold sub_at_start.
  change (match_items false fence_open None ("```json" ++ s) no_marks)
    with (match_items false [Star Space] (Some "n"%char) s no_marks).
  now rewrite star_space_lstrip.
Qed.

Lemma fence_open_absent (s : string) :
  has_char "`" s = false -> sub_at_start fence_open s = s.
Proof.
  intros H. unfold sub_at_start. destruct s as [|c t]; [reflexivity|].
  cbn [has_char] in H. apply orb_false_elim in H. destruct H as [Hc _].
  change (match_items false fence_open None (String c t) no_marks)
    with (if Ascii.eqb "`" c
          then match_items false (lits "``json" ++ [Star Space]) (Some c) t no_marks
          else None).
  now rewrite (Ascii.eqb_sym "`" c), Hc.
Qed.

Lemma fence_close_unfold prev (s : string) (g : marks) :
  match_items false fence_close prev s g = fence_blanks g prev s.
Proof. reflexivity. Qed.

Lemma fence_blanks_cons (g : marks) prev (d : ascii) (t : string) :
  fence_blanks g prev (String d t) =
  if is_space d then
    match fence_blanks g (Some d) t with
    | Some r => Some r
    | None => fence_ticks g prev (String d t)
    end
  else fence_ticks g prev (String d t).
Proof. reflexivity. Qed.

Lemma fence_ticks_elsewhere (g : marks) prev (s : string) :
  match head_opt s with Some c => Ascii.eqb c "`" = false | None => True end ->
  fence_ticks g prev s = None.
Proof.
  destruct s as [|c t]; [reflexivity|]. cbn [head_opt]. intros H.
  unfold fence_ticks. cbn -[Ascii.eqb]. now rewrite (Ascii.eqb_sym "`" c), H.
Qed.

Lemma fence_blanks_match (g : marks) prev (b tail : string) :
  all_blank b = true ->
  fence_blanks g prev (b ++ "```" ++ tail) = Some (tail, g).
Proof.
  intros Hb. revert prev. induction b as [|d b IH]; intros prev; [reflexivity|].
  cbn [all_blank] in Hb. apply andb_true_iff in Hb. destruct Hb as [Hd Hb].
  cbn [String.append]. now rewrite fence_blanks_cons, Hd, (IH Hb).
Qed.

Lemma fence_blanks_blocked (g : marks) prev (u rest : string) :
  has_char "`" u = false -> all_blank u = false ->
  fence_blanks g prev (u ++ rest) = None.
Proof.
  revert prev. induction u as [|c u IH]; intros prev Hu Hb; [discriminate|].
  cbn [has_char] in Hu. apply orb_false_elim in Hu. destruct Hu as [Hc Hu].
  cbn [all_blank] in Hb. cbn [String.append].
  rewrite fence_blanks_cons, (fence_ticks_elsewhere g prev (String c (u ++ rest)) Hc).
  destruct (is_space c); [|reflexivity].
  cbn [andb] in Hb. now rewrite (IH _ Hu Hb).
Qed.

Lemma sub_at_end_unfold (items : pattern) prev (s : string) :
  sub_at_end items prev s
  = match match_items false items prev s no_marks with
    | Some (rest, _) =>
        if at_end rest then rest
        else match s with
             | String c t => String c (sub_at_end items (Some c) t)
             | EmptyString => EmptyString
             end
    | None =>
        match s with
        | String c t => String c (sub_at_end items (Some c) t)
        | EmptyString => EmptyString
        end
    end.
Proof. destruct s; reflexivity. Qed.

Lemma fence_close_removed prev (u b tail : string) :
  has_char "`" u = false ->
  match last_char u with Some d => is_space d = false | None => True end ->
  all_blank b = true -> at_end tail = true ->
  sub_at_end fence_close prev (u ++ b ++ "```" ++ tail) = (u ++ tail)%string.
Proof.
  intros Hu Hl Hb Ht. revert prev. induction u as [|c u IH]; intros prev.
  - change (sub_at_end fence_close prev (b ++ "```" ++ tail) = tail).
    rewrite sub_at_end_unfold, fence_close_unfold.
    now rewrite (fence_blanks_match _ _ _ _ Hb), Ht.
  - rewrite sub_at_end_unfold, fence_close_unfold.
    rewrite (fence_blanks_blocked _ _ _ _ Hu (last_not_blank _ _ Hl)).
    cbn [has_char] in Hu. apply orb_false_elim in Hu. destruct Hu as [_ Hu].
    cbn [String.append]. rewrite (IH Hu); [reflexivity|].
    destruct u; [exact I|exact Hl].
Qed.

Lemma fence_blanks_absent (g : marks) prev (s : string) :
  has_char "`" s = false -> fence_blanks g prev s = None.
Proof.
  revert prev. induction s as [|c t IH]; intros prev H; [reflexivity|].
  cbn [has_char] in H. apply orb_false_elim in H. destruct H as [Hc Ht].
  rewrite fence_blanks_cons, (fence_ticks_elsewhere g prev (String c t) Hc).
  rewrite (IH _ Ht). now destruct (is_space c).
Qed.

Lemma fence_close_absent prev (s : string) :
  has_char "`" s = false -> sub_at_end fence_close prev s = s.
Proof.
  revert prev. induction s as [|c t IH]; intros prev H; [reflexivity|].
  rewrite sub_at_end_unfold, fence_close_unfold, (fence_blanks_absent _ _ _ H).
  cbn [has_char] in H. apply orb_false_elim in H. destruct H as [_ Ht].
  now rewrite (IH _ Ht).
Qed.

(** X21. An answer wrapped in a Markdown code fence is read as the bare answer:
    the fence and the blanks inside it are removed, a line feed after the
    closing fence is kept, and an answer without a backquote is left as it
    is.  The answer itself has no blank at either end and no blank outside
    ASCII. *)
Theorem code_fence_removed :
  forall (body before after : string),
    trimmed body = true ->
    ascii_blanks_only body = true ->
    has_char "`" body = false ->
    all_blank before = true ->
    all_blank after = true ->
    strip_code_fence ("```json" ++ before ++ body ++ after ++ "```") = body
    /\ strip_code_fence ("```json" ++ before ++ body ++ after ++ "```" ++ nl)
       = (body ++ nl)%string
    /\ strip_code_fence body = body.
Proof.
  intros body b1 b2 Ht _ Hq H1 H2.
  assert (Hl : match last_char body with
               | Some d => is_space d = false | None => True end).
  { unfold trimmed in Ht. apply andb_true_iff in Ht. destruct Ht as [_ Hl].
    destruct (last_char body); [now apply negb_true_iff in Hl|exact I]. }
  assert (Hstart : forall tail,
             lstrip (b1 ++ body ++ b2 ++ "```" ++ tail)
             = (body ++ (if truthy body then b2 else EmptyString) ++ "```" ++ tail)%string).
  { intros tail. rewrite (lstrip_blank_app _ _ H1). destruct body as [|c body].
    - cbn [String.append truthy]. rewrite (lstrip_blank_app _ _ H2). reflexivity.
    - apply lstrip_fixed. unfold trimmed in Ht. apply andb_true_iff in Ht.
      destruct Ht as [Hh _]. now apply negb_true_iff in Hh. }
  assert (Hb : all_blank (if truthy body then b2 else EmptyString) = true)
    by (destruct (truthy body); [exact H2|reflexivity]).
  unfold strip_code_fence. cbv zeta. split; [|split].
  - change ("```json" ++ b1 ++ body ++ b2 ++ "```")%string
      with ("```json" ++ b1 ++ body ++ b2 ++ "```" ++ EmptyString)%string.
    rewrite fence_open_matches, Hstart.
    rewrite (fence_close_removed None body _ EmptyString Hq Hl Hb eq_refl).
    apply append_empty.
  - rewrite fence_open_matches, Hstart.
    now rewrite (fence_close_removed None body _ nl Hq Hl Hb eq_refl).
  - rewrite (fence_open_absent _ Hq). now apply fence_close_absent.
Qed.

Lemma code_fence_removed_witness :
  trimmed "{}" = true
  /\ ascii_blanks_only "{}" = true
  /\ all_blank nl = true
  /\ strip_code_fence ("```json" ++ nl ++ "{}" ++ nl ++ "```") = "{}"%string
  /\ strip_code_fence ("```json" ++ nl ++ "{}" ++ nl ++ "```" ++ nl) = ("{}" ++ nl)%string
  /\ strip_code_fence "{}" = "{}"%string.
Proof.
  split; [reflexivity|]. split; [reflexivity|]. split; [reflexivity|].
  exact (code_fence_removed "{}" nl nl eq_refl eq_refl eq_refl eq_refl eq_refl).
Defined.

(** ** Short resumes *)

Lemma split_succeeds now (grouped_work : groups) (anonymize : bool) (lang : language) :
  Forall (fun g => forallb has_required_keys (snd g) = true
                   /\ forallb end_date_ok (snd g) = true) grouped_work ->
  succeeds (split_experiences_into_pages now grouped_work anonymize lang).
Proof.
  intros H. rewrite Forall_forall in H. unfold split_experiences_into_pages.
  apply succeeds_bind; [|intros; eexists; reflexivity].
  apply succeeds_map_r. intros [company es] Hg.
  destruct (H _ Hg) as [Hk Hd]. cbn [snd] in Hk, Hd.
  rewrite forallb_forall in Hk, Hd.
  unfold render_and_estimate, render_experience_group.
  apply succeeds_bind; [|intros; eexists; reflexivity].
  apply succeeds_bind; [|intros; eexists; reflexivity].
  apply succeeds_map_r. intros e He.
  apply render_experience_total; [now apply Hk|now apply Hd].
Qed.

(** X22. A resume of one to seven work entries has one detail page, whatever the
    companies: all groups together stay within the budget of one column.
    The pages are made whenever every entry has its four keys and an end
    date that is empty or parses. *)
Theorem short_resume_one_detail_page :
  forall now (work_list : list work_entry) (anonymize : bool) (lang : language),
    work_list <> [] -> (length work_list <= 7)%nat ->
    (forall pages_data,
        split_experiences_into_pages
          now (group_experiences_by_company work_list) anonymize lang = Ok pages_data ->
        length pages_data = 1%nat)
    /\ (forallb has_required_keys work_list = true ->
        forallb end_date_ok work_list = true ->
        succeeds (split_experiences_into_pages
                    now (group_experiences_by_company work_list) anonymize lang)).
Proof.
  intros now ws an lang Hne Hlen. split.
  - intros pages_data H. unfold split_experiences_into_pages in H.
    apply bind_Ok in H. destruct H as (out & E & H).
    assert (Hp : pages_data = pack_groups out) by congruence. subst pages_data.
    pose proof (map_r_length _ _ _ E) as Hl.
    apply render_and_estimate_heights, sum_heights_estimated in E.
    destruct E as [Hsum Hpos]. rewrite total_size_group in Hsum.
    apply pack_groups_single_page; [|assumption|].
    + intros ->. apply (group_nonempty ws Hne). now apply length_zero_iff_nil.
    + rewrite Hsum. unfold AVG_EXP_HEIGHT, MAX_HEIGHT_PER_COL. lia.
  - intros Hk Hd. rewrite forallb_forall in Hk, Hd.
    apply split_succeeds, Forall_forall. intros g Hg.
    split; apply forallb_forall; intros e He;
      [apply Hk|apply Hd]; destruct g as [k es]; eapply group_members; eauto.
Qed.

Lemma short_resume_one_detail_page_witness :
  work Samples.scenario <> []
  /\ (length (work Samples.scenario) <= 7)%nat
  /\ exists pages_data,
      split_experiences_into_pages
        Samples.today (group_experiences_by_company (work Samples.scenario)) true Fr
      = Ok pages_data
      /\ length pages_data = 1%nat.
Proof.
  split; [discriminate|]. split; [cbn; lia|].
  destruct (short_resume_one_detail_page
              Samples.today (work Samples.scenario) true Fr
              ltac:(discriminate) ltac:(cbn; lia)) as [Hone Hmade].
  destruct (Hmade eq_refl eq_refl) as [pages_data H].
  exists pages_data. split; [exact H|]. now apply Hone.
Defined.

(** When the first company has at most seven entries, no detail page is
    blank.  The pages are made whenever every entry has its four keys and
    an end date that is empty or parses. *)
Theorem no_blank_page_after_small_first_company :
  forall now (grouped_work : groups) (anonymize : bool) (lang : language),
    match grouped_work with
    | g :: _ => (length (snd g) <= 7)%nat
    | [] => True
    end ->
    (forall pages_data,
        split_experiences_into_pages now grouped_work anonymize lang = Ok pages_data ->
        Forall (fun p => empty_page p = false) pages_data)
    /\ (Forall (fun g => forallb has_required_keys (snd g) = true
                         /\ forallb end_date_ok (snd g) = true) grouped_work ->
        succeeds (split_experiences_into_pages now grouped_work anonymize lang)).
Proof.
  intros now gw an lang Hfirst. split; [|apply split_succeeds].
  intros pages_data H. unfold split_experiences_into_pages in H.
  apply bind_Ok in H. destruct H as (out & E & H).
  assert (Hp : pages_data = pack_groups out) by congruence. subst pages_data.
  apply render_and_estimate_heights in E.
  destruct gw as [|g gw]; destruct out as [|[x h] out]; try discriminate;
    [constructor|].
  cbn [map snd] in E. assert (Hh : h = estimated_height g) by congruence.
  apply pack_groups_first_fits. subst h.
  unfold estimated_height, AVG_EXP_HEIGHT, MAX_HEIGHT_PER_COL. lia.
Qed.

Lemma no_blank_page_after_small_first_company_witness :
  exists pages_data,
    split_experiences_into_pages
      Samples.today (group_experiences_by_company (work Samples.scenario)) false Fr
    = Ok pages_data
    /\ Forall (fun p => empty_page p = false) pages_data.
Proof.
  destruct (no_blank_page_after_small_first_company
              Samples.today (group_experiences_by_company (work Samples.scenario)) false Fr
              ltac:(vm_compute; lia)) as [Hfull Hmade].
  assert (Hok : Forall (fun g => forallb has_required_keys (snd g) = true
                                 /\ forallb end_date_ok (snd g) = true)
                       (group_experiences_by_company (work Samples.scenario)))
    by (vm_compute; repeat constructor).
  destruct (Hmade Hok) as [pages_data H].
  exists pages_data. split; [exact H|]. now apply Hfull.
Defined.
